(** * Data refresh TaskGroup factory: a shallow embedding

    Embedding of [openverse_catalog/dags/data_refresh/data_refresh_task_factory.py]:
    the two response callbacks ([response_filter_data_refresh],
    [response_check_wait_for_completion]), the factory
    [create_data_refresh_task_group] that wires the gate sensor and the
    trigger/wait pairs of every action, and the part of the scheduler that
    decides when a task of the generated graph may run. *)

From Stdlib Require Import List String Ascii ZArith QArith Bool Lia.
Import ListNotations.
Open Scope string_scope.
Open Scope Z_scope.

Set Implicit Arguments.
Set Warnings "-register-all".

(* ===================================================================== *)
(** ** Python values: exceptions, results and [str] helpers *)
(* ===================================================================== *)

Module Py.

(** The exceptions that the embedded code can raise or let through.
    [HTTPStatusError status] is the [AirflowException] that the HTTP hook
    raises for an error status, whose text starts with the status code;
    [RequestsConnectionError] is [requests.exceptions.ConnectionError]. *)
Inductive exn : Type :=
| KeyError (key : string)
| TypeError
| AttributeError
| ValueError (msg : string)
| JSONDecodeError
| AirflowException (msg : string)
| HTTPStatusError (status : Z)
| RequestsConnectionError
| AirflowSensorTimeout.

(** The result of running a piece of Python: a value or a raised exception. *)
Inductive outcome (A : Type) : Type :=
| Return (a : A)
| Raise (e : exn).
Arguments Return {A} a.
Arguments Raise {A} e.

Definition bind {A B : Type} (m : outcome A) (k : A -> outcome B) : outcome B :=
  match m with
  | Return a => k a
  | Raise e => Raise e
  end.

Definition returns {A : Type} (m : outcome A) : bool :=
  match m with Return _ => true | Raise _ => false end.

(** A Python [dict] whose iteration order matters: insertion-ordered pairs. *)
Definition dict (V : Type) : Type := list (string * V).

Fixpoint get {V : Type} (d : dict V) (k : string) : option V :=
  match d with
  | [] => None
  | (k', v) :: d' => if String.eqb k' k then Some v else get d' k
  end.

(** [d[k] = v]: an existing key keeps its position, a new key goes last. *)
Fixpoint set {V : Type} (d : dict V) (k : string) (v : V) : dict V :=
  match d with
  | [] => [(k, v)]
  | (k', v') :: d' =>
      if String.eqb k' k then (k', v) :: d' else (k', v') :: set d' k v
  end.

(** [a | b]: the keys of [a] in order, then the new keys of [b]; on a
    shared key the value of [b] wins. *)
Definition union {V : Type} (a b : dict V) : dict V :=
  fold_left (fun acc kv => set acc (fst kv) (snd kv)) b a.

End Py.
Import Py.

Declare Scope py_scope.
Delimit Scope py_scope with py.
Notation "x <- m ;; k" := (Py.bind m (fun x => k))
  (at level 61, m at next level, right associativity) : py_scope.
Open Scope py_scope.

(** Character-level helpers for [str] methods used by the source. *)
Module PyStr.

Definition is_char (c : ascii) : ascii -> bool := Ascii.eqb c.
Arguments is_char : simpl never.

Fixpoint all_chars (p : ascii -> bool) (s : string) : bool :=
  match s with
  | EmptyString => true
  | String c r => p c && all_chars p r
  end.

(** [c in s] for a class of characters [p]. *)
Fixpoint any_char (p : ascii -> bool) (s : string) : bool :=
  match s with
  | EmptyString => false
  | String c r => p c || any_char p r
  end.

(** Splits at the first character satisfying [p] (as [s.find] followed by
    slicing): the part before it, and the rest starting with it. *)
Fixpoint break (p : ascii -> bool) (s : string) : string * string :=
  match s with
  | EmptyString => (EmptyString, EmptyString)
  | String c r =>
      if p c then (EmptyString, s)
      else let (a, b) := break p r in (String c a, b)
  end.

(** [s.replace(c, "")] for every [c] in a class. *)
Fixpoint remove_chars (p : ascii -> bool) (s : string) : string :=
  match s with
  | EmptyString => EmptyString
  | String c r => if p c then remove_chars p r else String c (remove_chars p r)
  end.

Definition in_range (lo hi : nat) (c : ascii) : bool :=
  (Nat.leb lo (nat_of_ascii c) && Nat.leb (nat_of_ascii c) hi)%bool.

Definition is_upper : ascii -> bool := in_range 65 90.
Definition is_lower : ascii -> bool := in_range 97 122.
Definition is_digit : ascii -> bool := in_range 48 57.

Definition upper_char (c : ascii) : ascii :=
  if is_lower c then ascii_of_nat (nat_of_ascii c - 32) else c.
Definition lower_char (c : ascii) : ascii :=
  if is_upper c then ascii_of_nat (nat_of_ascii c + 32) else c.

Fixpoint map_chars (f : ascii -> ascii) (s : string) : string :=
  match s with
  | EmptyString => EmptyString
  | String c r => String (f c) (map_chars f r)
  end.

(** [s.upper()] and [s.lower()] on ASCII text. *)
Definition upper : string -> string := map_chars upper_char.
Definition lower : string -> string := map_chars lower_char.

(** [s.rfind('/')] followed by slicing: the text up to and including the
    last ['/'], and the last segment after it. *)
Fixpoint rsplit_slash (s : string) : option (string * string) :=
  match s with
  | EmptyString => None
  | String c r =>
      match rsplit_slash r with
      | Some (h, t) => Some (String c h, t)
      | None => if is_char "/" c then Some (String c EmptyString, r) else None
      end
  end.

(** [s.startswith(p)]. *)
Fixpoint starts_with (p : string) (s : string) : bool :=
  match p, s with
  | EmptyString, _ => true
  | String a p', String b s' => is_char a b && starts_with p' s'
  | String _ _, EmptyString => false
  end.

(** The slice [s[n:]]. *)
Fixpoint skip (n : nat) (s : string) : string :=
  match n, s with
  | O, _ => s
  | S n', String _ r => skip n' r
  | S _, EmptyString => EmptyString
  end.

End PyStr.

(* ===================================================================== *)
(** ** JSON bodies and HTTP responses *)
(* ===================================================================== *)

(** A decoded JSON document, as [response.json()] returns it. *)
Inductive json : Type :=
| JNull
| JBool (b : bool)
| JNum (q : Q)
| JStr (s : string)
| JArr (items : list json)
| JObj (members : list (string * json)).

(** [bool(v)]: Python's truth value of a decoded JSON value. *)
Definition truthy (v : json) : bool :=
  match v with
  | JNull => false
  | JBool b => b
  | JNum q => negb (Z.eqb (Qnum q) 0)
  | JStr s => negb (String.eqb s "")
  | JArr items => match items with [] => false | _ => true end
  | JObj members => match members with [] => false | _ => true end
  end.

(** [data[key]] for a string key: only a [dict] can be indexed by a string,
    and a missing key raises [KeyError]. *)
Definition subscript (data : json) (key : string) : outcome json :=
  match data with
  | JObj members =>
      match Py.get members key with
      | Some v => Return v
      | None => Raise (KeyError key)
      end
  | _ => Raise TypeError
  end.

(** [requests.Response]: the status code and the decoded body; [body] is
    [None] when the payload is not JSON, in which case [response.json()]
    raises. *)
Record Response : Type := mkResponse {
  status_code : Z;
  body : option json
}.

Definition response_json (response : Response) : outcome json :=
  match body response with
  | Some data => Return data
  | None => Raise JSONDecodeError
  end.

(* ===================================================================== *)
(** ** [urllib.parse.urlparse] *)
(* ===================================================================== *)

(** The standard library's URL splitter, which [response_filter_data_refresh]
    calls, following [Lib/urllib/parse.py] of CPython 3.10 for [str] input
    over 8-bit characters ([_checknetloc], which only inspects a non-ASCII
    netloc, and the result cache are left out). *)
Module UrlParse.
Import PyStr.

Record ParseResult : Type := mkParseResult {
  scheme : string;
  netloc : string;
  path : string;
  params : string;
  query : string;
  fragment : string
}.

(** [scheme_chars]: letters, digits and ["+-."]. *)
Definition scheme_char (c : ascii) : bool :=
  (is_lower c || is_upper c || is_digit c
   || is_char "+" c || is_char "-" c || is_char "." c)%bool.

(** [_UNSAFE_URL_BYTES_TO_REMOVE = ['\t', '\r', '\n']]. *)
Definition unsafe_char (c : ascii) : bool :=
  (Nat.eqb (nat_of_ascii c) 9 || Nat.eqb (nat_of_ascii c) 13
   || Nat.eqb (nat_of_ascii c) 10)%bool.

(** The delimiters that end the netloc in [_splitnetloc]. *)
Definition netloc_delim (c : ascii) : bool :=
  (is_char "/" c || is_char "?" c || is_char "#" c)%bool.

Definition uses_params : list string :=
  [""; "ftp"; "hdl"; "prospero"; "http"; "imap"; "https"; "shttp"; "rtsp";
   "rtspu"; "sip"; "sips"; "mms"; "sftp"; "tel"].

Definition in_uses_params (s : string) : bool :=
  existsb (String.eqb s) uses_params.

(** [i = url.find(':')], and when [i > 0] and every character before it is
    a scheme character: [scheme, url = url[:i].lower(), url[i+1:]]. *)
Definition split_scheme (url : string) : string * string :=
  match break (is_char ":") url with
  | (pre, String _ rest) =>
      if (negb (String.eqb pre "") && all_chars scheme_char pre)%bool
      then (lower pre, rest)
      else ("", url)
  | (_, EmptyString) => ("", url)
  end.

(** [if url[:2] == '//': netloc, url = _splitnetloc(url, 2)]. *)
Definition split_netloc (url : string) : string * string :=
  if starts_with "//" url then break netloc_delim (skip 2 url)
  else ("", url).

(** The bracket test that raises [ValueError("Invalid IPv6 URL")]. *)
Definition bad_brackets (nl : string) : bool :=
  negb (Bool.eqb (any_char (is_char "[") nl) (any_char (is_char "]") nl)).

(** [url, tail = url.split(c, 1)] when [c in url]. *)
Definition split_once (c : ascii) (url : string) : string * string :=
  match break (is_char c) url with
  | (pre, String _ rest) => (pre, rest)
  | (_, EmptyString) => (url, "")
  end.

Definition urlsplit (url0 : string) : outcome (string * string * string * string * string) :=
  let url := remove_chars unsafe_char url0 in
  let (sch, url) := split_scheme url in
  let (nl, url) := split_netloc url in
  if bad_brackets nl then Raise (ValueError "Invalid IPv6 URL")
  else
    let (url, frag) := split_once "#" url in
    let (url, qry) := split_once "?" url in
    Return (sch, nl, url, qry, frag).

(** [_splitparams]: the parameters start at the first [';'] of the last
    path segment. [urlparse] calls it only on a text that has a [';']. *)
Definition splitparams (url : string) : string * string :=
  match rsplit_slash url with
  | Some (head, seg) =>
      match break (is_char ";") seg with
      | (pre, String _ rest) => (head ++ pre, rest)
      | (_, EmptyString) => (url, "")
      end
  | None =>
      match break (is_char ";") url with
      | (pre, String _ rest) => (pre, rest)
      | (_, EmptyString) => (url, "")
      end
  end.

Definition urlparse (url : string) : outcome ParseResult :=
  sp <- urlsplit url ;;
  let '(sch, nl, url, qry, frag) := sp in
  let (url, prm) :=
    if (in_uses_params sch && any_char (is_char ";") url)%bool
    then splitparams url else (url, "") in
  Return (mkParseResult sch nl url prm qry frag).

End UrlParse.

(** What [urlparse(x).path] evaluates to: a [str] for [str] input, and
    [bytes] when the argument is not a [str] (the result is encoded back). *)
Inductive strlike : Type :=
| Str (s : string)
| Bytes (s : string).

(** [urlparse(v).path] for a decoded JSON value [v]. A [str] is parsed; any
    other value goes through [_decode_args], which maps a falsy value to the
    empty text (giving [b''] back) and calls [.decode] on a truthy one, an
    attribute that no decoded JSON value has. *)
Definition urlparse_path (v : json) : outcome strlike :=
  match v with
  | JStr s => r <- UrlParse.urlparse s ;; Return (Str (UrlParse.path r))
  | _ => if truthy v then Raise AttributeError else Return (Bytes "")
  end.

(* ===================================================================== *)
(** ** The response callbacks *)
(* ===================================================================== *)

(** [response_filter_data_refresh]: the endpoint kept for polling. *)
Definition response_filter_data_refresh (response : Response) : outcome strlike :=
  data <- response_json response ;;
  status_check_url <- subscript data "status_check" ;;
  urlparse_path status_check_url.

(** [response_check_wait_for_completion]: [Return false] asks the sensor to
    poll again, [Return true] completes it, an exception fails it. The
    f-string of the final log line reads [data['percent_completed']] before
    the value is returned. *)
Definition response_check_wait_for_completion (response : Response) : outcome bool :=
  data <- response_json response ;;
  active <- subscript data "active" ;;
  if truthy active then Return false
  else
    error <- subscript data "error" ;;
    if truthy error then Raise (AirflowException "Error triggering data refresh.")
    else
      _ <- subscript data "percent_completed" ;;
      Return true.

(** The three-way reading of the check by the polling sensor. *)
Inductive PollOutcome : Type :=
| Running
| Succeeded
| Failed (reason : exn).

Definition poll_outcome (checked : outcome bool) : PollOutcome :=
  match checked with
  | Return false => Running
  | Return true => Succeeded
  | Raise e => Failed e
  end.

Definition decode (response : Response) : PollOutcome :=
  poll_outcome (response_check_wait_for_completion response).


(* ===================================================================== *)
(** ** Task descriptions built by the factory *)
(* ===================================================================== *)

(** A sensor's [mode]: in ["poke"] mode the task keeps running (and keeps its
    worker slot) between checks; in ["reschedule"] mode it gives the slot
    back and is scheduled again for the next check. *)
Inductive sensor_mode : Type :=
| PokeMode
| RescheduleMode.

(** The pool a task goes to when the call passes no [pool]. *)
Definition DEFAULT_POOL : string := "default_pool".

Definition DATA_REFRESH_POOL : string := "data_refresh".

(** Modelled from the spec: the constant [XCOM_PULL_TEMPLATE]
    ([common.constants]) is missing from the embedded files. An instance of
    [XCOM_PULL_TEMPLATE.format(task_id, key)] stands for the value that task
    [xcom_task_ids] pushed under [xcom_key], the status endpoint that the
    trigger produced and that the matching poll loop consumes. *)
Record template : Type := XComPull {
  xcom_task_ids : string;
  xcom_key : string
}.

(** The keyword arguments of [SingleRunExternalDAGsSensor(...)]. *)
Record SingleRunExternalDAGsSensor : Type := mkGate {
  gate_task_id : string;
  external_dag_ids : list string;
  check_existence : bool;
  gate_poke_interval : Z;
  gate_mode : sensor_mode;
  gate_pool : string
}.

(** The keyword arguments of [SimpleHttpOperator(...)]; [op_data] is the
    document that [json.dumps(post_data)] serialises. *)
Record SimpleHttpOperator : Type := mkOperator {
  op_task_id : string;
  op_http_conn_id : string;
  op_endpoint : string;
  op_method : string;
  op_headers : Py.dict string;
  op_data : Py.dict json;
  op_response_check : Response -> bool;
  op_response_filter : Response -> outcome strlike;
  op_pool : string
}.

(** The keyword arguments of [HttpSensor(...)]. *)
Record HttpSensor : Type := mkSensor {
  hs_task_id : string;
  hs_http_conn_id : string;
  hs_endpoint : template;
  hs_method : string;
  hs_response_check : Response -> outcome bool;
  hs_mode : sensor_mode;
  hs_poke_interval : Z;
  hs_timeout : Z;
  hs_pool : string
}.

Inductive task : Type :=
| GateTask (s : SingleRunExternalDAGsSensor)
| TriggerTask (o : SimpleHttpOperator)
| WaitTask (s : HttpSensor).

Definition task_id (t : task) : string :=
  match t with
  | GateTask s => gate_task_id s
  | TriggerTask o => op_task_id o
  | WaitTask s => hs_task_id s
  end.

Definition task_pool (t : task) : string :=
  match t with
  | GateTask s => gate_pool s
  | TriggerTask o => op_pool o
  | WaitTask s => hs_pool s
  end.

(** A [TaskGroup]: its id, the tasks created inside it (those of nested
    groups included, in creation order) and the dependencies set between
    them, each as (upstream task id, downstream task id). *)
Record TaskGroup : Type := mkTaskGroup {
  group_id : string;
  tasks : list task;
  deps : list (string * string)
}.

(** [TaskGroup.child_id]: ids created inside a group are prefixed by it. *)
Definition child_id (parent : option string) (label : string) : string :=
  match parent with
  | Some g => g ++ "." ++ label
  | None => label
  end.

Definition mem (x : string) (l : list string) : bool := existsb (String.eqb x) l.

(** [TaskGroup.get_roots]: the tasks with no upstream task inside the group. *)
Definition get_roots (g : TaskGroup) : list string :=
  filter (fun t => negb (mem t (map snd (deps g)))) (map task_id (tasks g)).

(** [TaskGroup.get_leaves]: the tasks with no downstream task inside the group. *)
Definition get_leaves (g : TaskGroup) : list string :=
  filter (fun t => negb (mem t (map fst (deps g)))) (map task_id (tasks g)).

(** What [chain] and [>>] accept: a task or a task group. *)
Inductive chainable : Type :=
| OneTask (t : task)
| Group (g : TaskGroup).

Definition roots (c : chainable) : list string :=
  match c with OneTask t => [task_id t] | Group g => get_roots g end.

Definition leaves (c : chainable) : list string :=
  match c with OneTask t => [task_id t] | Group g => get_leaves g end.

Definition chainable_tasks (c : chainable) : list task :=
  match c with OneTask t => [t] | Group g => tasks g end.

Definition chainable_deps (c : chainable) : list (string * string) :=
  match c with OneTask _ => [] | Group g => deps g end.

(** [a >> b]: every leaf of [a] becomes upstream of every root of [b]. *)
Definition set_downstream (a b : chainable) : list (string * string) :=
  flat_map (fun u => map (fun d => (u, d)) (roots b)) (leaves a).

(** [chain(t1, t2, ..., tn)]: [t1 >> t2], [t2 >> t3], ... *)
Fixpoint chain (l : list chainable) : list (string * string) :=
  match l with
  | a :: (b :: _) as rest => set_downstream a b ++ chain rest
  | _ => []
  end.

(* ===================================================================== *)
(** ** The factory *)
(* ===================================================================== *)

(** Modelled from the spec: the dataclass [DataRefresh]
    ([data_refresh.data_refresh_types]) is missing from the embedded files;
    it is reduced to the two fields the factory reads, the media type and
    the overall timeout, in seconds. *)
Record DataRefresh : Type := mkDataRefresh {
  media_type : string;
  data_refresh_timeout : Z
}.

(** What the factory reads from its surroundings: the integer value of the
    environment variable [DATA_REFRESH_POKE_INTERVAL] when it is set, and
    the values that successive calls of [uuid.uuid4()] give, as text. *)
Record Environment : Type := mkEnvironment {
  DATA_REFRESH_POKE_INTERVAL : option Z;
  uuid4 : nat -> string
}.

(** [int(os.getenv("DATA_REFRESH_POKE_INTERVAL", 60 * 15))]. *)
Definition get_poke_interval (env : Environment) : Z :=
  match DATA_REFRESH_POKE_INTERVAL env with
  | Some v => v
  | None => 60 * 15
  end.

Section Factory.

Variable data_refresh : DataRefresh.
Variable ext_dag_ids : list string.
Variable poke_interval : Z.
Variable index_suffix : string.

(** The id of the enclosing [TaskGroup(group_id="data_refresh")]. *)
Definition data_refresh_group_id : string := child_id None "data_refresh".

Definition wait_for_data_refresh : SingleRunExternalDAGsSensor :=
  {| gate_task_id := child_id (Some data_refresh_group_id) "wait_for_data_refresh";
     external_dag_ids := ext_dag_ids;
     check_existence := true;
     gate_poke_interval := poke_interval;
     gate_mode := RescheduleMode;
     gate_pool := DATA_REFRESH_POOL |}.

(** [_get_http_operator], called inside the group [group]. *)
Definition _get_http_operator (group : string) (task_id : string)
    (post_data : Py.dict json) : SimpleHttpOperator :=
  {| op_task_id := child_id (Some group) task_id;
     op_http_conn_id := "data_refresh";
     op_endpoint := "task";
     op_method := "POST";
     op_headers := [("Content-Type", "application/json")];
     op_data := post_data;
     op_response_check := fun response => Z.eqb (status_code response) 202;
     op_response_filter := response_filter_data_refresh;
     op_pool := DEFAULT_POOL |}.

(** [_get_http_sensor], called inside the group [group]. *)
Definition _get_http_sensor (group : string) (task_id : string)
    (endpoint : template) : HttpSensor :=
  {| hs_task_id := child_id (Some group) task_id;
     hs_http_conn_id := "data_refresh";
     hs_endpoint := endpoint;
     hs_method := "GET";
     hs_response_check := response_check_wait_for_completion;
     hs_mode := RescheduleMode;
     hs_poke_interval := poke_interval;
     hs_timeout := data_refresh_timeout data_refresh;
     hs_pool := DEFAULT_POOL |}.

Definition action_data_map : Py.dict (Py.dict json) :=
  [ ("ingest_upstream", []);
    ("point_alias", [("alias", JStr (media_type data_refresh))]) ].

(** The body of the loop over [action_data_map.items()]: the task group
    of one action, with [trigger >> waiter] inside. *)
Definition action_task_group (item : string * Py.dict json) : TaskGroup :=
  let (action, action_post_data) := item in
  let group := child_id (Some data_refresh_group_id) action in
  let trigger :=
    _get_http_operator group ("trigger_" ++ action)
      (Py.union action_post_data
         [ ("model", JStr (media_type data_refresh));
           ("action", JStr (PyStr.upper action));
           ("index_suffix", JStr index_suffix) ]) in
  let waiter :=
    _get_http_sensor group ("wait_for_" ++ action)
      (XComPull (op_task_id trigger) "return_value") in
  {| group_id := group;
     tasks := [TriggerTask trigger; WaitTask waiter];
     deps := set_downstream (OneTask (TriggerTask trigger)) (OneTask (WaitTask waiter)) |}.

(** The list [tasks] that the factory hands to [chain]. *)
Definition chained (actions : Py.dict (Py.dict json)) : list chainable :=
  OneTask (GateTask wait_for_data_refresh) :: map (fun item => Group (action_task_group item)) actions.

(** The group built for a given action map. *)
Definition build_group (actions : Py.dict (Py.dict json)) : TaskGroup :=
  {| group_id := data_refresh_group_id;
     tasks := flat_map chainable_tasks (chained actions);
     deps := flat_map chainable_deps (chained actions) ++ chain (chained actions) |}.

End Factory.

(** [create_data_refresh_task_group]: [drawn] counts the calls of
    [uuid.uuid4()] made so far; the call draws one value and returns the
    group with the advanced count. *)
Definition create_data_refresh_task_group (data_refresh : DataRefresh)
    (external_dag_ids : list string) (env : Environment) (drawn : nat)
    : TaskGroup * nat :=
  let poke_interval := get_poke_interval env in
  let index_suffix := uuid4 env drawn in
  (build_group data_refresh external_dag_ids poke_interval index_suffix
     (action_data_map data_refresh),
   S drawn).

(* ===================================================================== *)
(** ** The gate sensor *)
(* ===================================================================== *)

(** What the gate observes of a sibling DAG: the state of its current run
    and whether that run's own [wait_for_data_refresh] task has succeeded. *)
Inductive dagrun_state : Type :=
| RunQueued
| RunRunning
| RunSuccess
| RunFailed.

Record sibling_run : Type := mkSiblingRun {
  sibling_state : dagrun_state;
  sibling_gate_passed : bool
}.

(** The run store as the gate reads it: [None] for a DAG id that has no run. *)
Definition activity : Type := string -> option sibling_run.

(** Modelled from the spec: the [poke] of [SingleRunExternalDAGsSensor]
    ([common.sensors.single_run_external_dags_sensor]) is missing from the
    embedded files. A sibling is active iff it is itself running and has
    passed its own gate; an id without a run is inactive. *)
Definition is_active (obs : activity) (dag_id : string) : bool :=
  match obs dag_id with
  | Some r =>
      match sibling_state r with
      | RunRunning => sibling_gate_passed r
      | _ => false
      end
  | None => false
  end.

(** Modelled from the spec: the gate's [poke] is missing from the embedded
    files; it reports clear iff none of the sibling ids is active. *)
Definition gate_poke (s : SingleRunExternalDAGsSensor) (obs : activity) : bool :=
  forallb (fun dag_id => negb (is_active obs dag_id)) (external_dag_ids s).

(* ===================================================================== *)
(** ** Running the tasks: hook, operator and sensor *)
(* ===================================================================== *)

(** What a request gets back: a response, or no connection. *)
Inductive reply : Type :=
| Got (r : Response)
| NoConnection.

(** [HttpHook.run] with its default response check: an error status raises,
    and a connection error propagates. *)
Definition hook_run (rep : reply) : outcome Response :=
  match rep with
  | NoConnection => Raise RequestsConnectionError
  | Got r =>
      if ((400 <=? status_code r) && (status_code r <? 600))%bool
      then Raise (HTTPStatusError (status_code r))
      else Return r
  end.

(** [SimpleHttpOperator.execute]: the request, then [response_check], then
    [response_filter], whose value is the task's return value. *)
Definition operator_execute (o : SimpleHttpOperator) (rep : reply) : outcome strlike :=
  response <- hook_run rep ;;
  if op_response_check o response then op_response_filter o response
  else Raise (AirflowException "Response check returned False.").

(** The return value is pushed to XCom as JSON; [bytes] cannot be. *)
Definition xcom_push (v : strlike) : outcome string :=
  match v with
  | Str s => Return s
  | Bytes _ => Raise TypeError
  end.

Definition run_operator (o : SimpleHttpOperator) (rep : reply) : outcome string :=
  v <- operator_execute o rep ;;
  xcom_push v.

(** [HttpSensor.poke]: an [AirflowException] whose text starts with ["404"]
    counts as "not yet"; anything else raised fails the sensor. *)
Definition http_sensor_poke (s : HttpSensor) (rep : reply) : outcome bool :=
  match (response <- hook_run rep ;; hs_response_check s response) with
  | Raise (HTTPStatusError status) =>
      if status =? 404 then Return false else Raise (HTTPStatusError status)
  | Raise (AirflowException msg) =>
      if PyStr.starts_with "404" msg then Return false else Raise (AirflowException msg)
  | r => r
  end.

(** One pass of the loop in [BaseSensorOperator.execute]. *)
Inductive verdict : Type :=
| Done
| Again
| Fail (e : exn).

(** [while not poke(): if run_duration() > timeout: raise
    AirflowSensorTimeout; ...], where the duration is counted from the
    sensor's first check. A sensor without [timeout] never times out. *)
Definition sensor_try (timeout : option Z) (started now : Z) (poked : outcome bool) : verdict :=
  match poked with
  | Raise e => Fail e
  | Return true => Done
  | Return false =>
      match timeout with
      | Some limit => if limit <? now - started then Fail AirflowSensorTimeout else Again
      | None => Again
      end
  end.

(* ===================================================================== *)
(** ** One run of the generated graph *)
(* ===================================================================== *)

(** Task-instance states. [Sleeping] is a sensor in poke mode between two
    checks (still running, holding its slot); [UpForReschedule] is a sensor
    in reschedule mode between two checks (its slot given back). *)
Inductive tstate : Type :=
| NoState
| Sleeping
| UpForReschedule
| Success
| TaskFailed (e : exn)
| UpstreamFailed.

Definition is_success (s : tstate) : bool :=
  match s with Success => true | _ => false end.

Definition is_failed (s : tstate) : bool :=
  match s with TaskFailed _ | UpstreamFailed => true | _ => false end.

(** Whether a task instance in this state occupies a slot of its pool. *)
Definition holds_slot (s : tstate) : bool :=
  match s with Sleeping => true | _ => false end.

Definition suspended (m : sensor_mode) : tstate :=
  match m with PokeMode => Sleeping | RescheduleMode => UpForReschedule end.

(** What a run does that can be seen from outside, newest first. *)
Inductive event : Type :=
| GatePoked (task_id : string) (clear : bool)
| TriggerCall (task_id : string) (data : Py.dict json)
| PollCall (task_id : string) (endpoint : string)
| PollResult (task_id : string) (o : PollOutcome).

Record run_state : Type := mkRunState {
  ti : string -> tstate;
  xcom : string -> option string;
  started : string -> option Z;
  wake : string -> Z;
  now : Z;
  log : list event
}.

Definition upd {A : Type} (f : string -> A) (k : string) (v : A) : string -> A :=
  fun k' => if String.eqb k k' then v else f k'.

Definition initial (t0 : Z) : run_state :=
  {| ti := fun _ => NoState;
     xcom := fun _ => None;
     started := fun _ => None;
     wake := fun _ => t0;
     now := t0;
     log := [] |}.

Definition find_task (g : TaskGroup) (id : string) : option task :=
  find (fun t => String.eqb (task_id t) id) (tasks g).

Definition upstream_of (g : TaskGroup) (id : string) : list string :=
  map fst (filter (fun d => String.eqb (snd d) id) (deps g)).

(** The default trigger rule, [all_success]. *)
Definition all_success (st : run_state) (ups : list string) : bool :=
  forallb (fun u => is_success (ti st u)) ups.

(** A task may start when it has no state and all its upstream tasks
    succeeded; a suspended sensor may check again once its date has come. *)
Definition runnable (g : TaskGroup) (st : run_state) (id : string) : bool :=
  match ti st id with
  | NoState => all_success st (upstream_of g id)
  | Sleeping | UpForReschedule => wake st id <=? now st
  | _ => false
  end.

Definition first_start (st : run_state) (id : string) : Z :=
  match started st id with
  | Some t => t
  | None => now st
  end.

(** The rendering of a sensor's templated endpoint. *)
Definition render (st : run_state) (t : template) : string :=
  match xcom st (xcom_task_ids t) with
  | Some v => v
  | None => "None"
  end.

Definition after_verdict (m : sensor_mode) (v : verdict) : tstate :=
  match v with
  | Done => Success
  | Again => suspended m
  | Fail e => TaskFailed e
  end.

(** The moves of a run: time passing, one check of the gate against an
    observation of the siblings, one execution of a trigger against a
    reply, one check of a waiter against a reply, and the scheduler marking
    a task whose upstream failed. *)
Inductive action : Type :=
| Tick (d : Z)
| RunGate (id : string) (obs : activity)
| RunTrigger (id : string) (rep : reply)
| RunPoke (id : string) (rep : reply)
| MarkUpstreamFailed (id : string).

Definition exec (g : TaskGroup) (st : run_state) (a : action) : option run_state :=
  match a with
  | Tick d =>
      if 0 <=? d
      then Some {| ti := ti st; xcom := xcom st; started := started st;
                   wake := wake st; now := now st + d; log := log st |}
      else None
  | RunGate id obs =>
      match find_task g id with
      | Some (GateTask s) =>
          if runnable g st id then
            let clear := gate_poke s obs in
            let v := sensor_try None (first_start st id) (now st) (Return clear) in
            Some {| ti := upd (ti st) id (after_verdict (gate_mode s) v);
                    xcom := xcom st;
                    started := upd (started st) id (Some (first_start st id));
                    wake := upd (wake st) id (now st + gate_poke_interval s);
                    now := now st;
                    log := GatePoked id clear :: log st |}
          else None
      | _ => None
      end
  | RunTrigger id rep =>
      match find_task g id with
      | Some (TriggerTask o) =>
          match ti st id with
          | NoState =>
              if all_success st (upstream_of g id) then
                match run_operator o rep with
                | Return v =>
                    Some {| ti := upd (ti st) id Success;
                            xcom := upd (xcom st) id (Some v);
                            started := started st; wake := wake st; now := now st;
                            log := TriggerCall id (op_data o) :: log st |}
                | Raise e =>
                    Some {| ti := upd (ti st) id (TaskFailed e);
                            xcom := xcom st;
                            started := started st; wake := wake st; now := now st;
                            log := TriggerCall id (op_data o) :: log st |}
                end
              else None
          | _ => None
          end
      | _ => None
      end
  | RunPoke id rep =>
      match find_task g id with
      | Some (WaitTask s) =>
          if runnable g st id then
            let poked := http_sensor_poke s rep in
            let v := sensor_try (Some (hs_timeout s)) (first_start st id) (now st) poked in
            Some {| ti := upd (ti st) id (after_verdict (hs_mode s) v);
                    xcom := xcom st;
                    started := upd (started st) id (Some (first_start st id));
                    wake := upd (wake st) id (now st + hs_poke_interval s);
                    now := now st;
                    log := PollResult id (poll_outcome poked)
                             :: PollCall id (render st (hs_endpoint s)) :: log st |}
          else None
      | _ => None
      end
  | MarkUpstreamFailed id =>
      match find_task g id, ti st id with
      | Some _, NoState =>
          if existsb (fun u => is_failed (ti st u)) (upstream_of g id)
          then Some {| ti := upd (ti st) id UpstreamFailed;
                       xcom := xcom st; started := started st; wake := wake st;
                       now := now st; log := log st |}
          else None
      | _, _ => None
      end
  end.

(** A run: the moves taken one after the other; [None] when one of them is
    not allowed in the state it meets. *)
Fixpoint run (g : TaskGroup) (st : run_state) (l : list action) : option run_state :=
  match l with
  | [] => Some st
  | a :: l' =>
      match exec g st a with
      | Some st' => run g st' l'
      | None => None
      end
  end.

Definition reachable (g : TaskGroup) (t0 : Z) (st : run_state) : Prop :=
  exists l, run g (initial t0) l = Some st.

(** The run is finished when every task of the group succeeded. *)
Definition finished (g : TaskGroup) (st : run_state) : bool :=
  forallb (fun t => is_success (ti st (task_id t))) (tasks g).

(** The run has failed when some task of the group failed. *)
Definition run_failed (g : TaskGroup) (st : run_state) : bool :=
  existsb (fun t => is_failed (ti st (task_id t))) (tasks g).

(* ===================================================================== *)
(** ** Vocabulary of the statements *)
(* ===================================================================== *)

(** A poll body with the three documented fields: two booleans and a number. *)
Definition well_formed_body (data : json) (active error : bool) (percent : Q) : Prop :=
  exists members,
    data = JObj members
    /\ Py.get members "active" = Some (JBool active)
    /\ Py.get members "error" = Some (JBool error)
    /\ Py.get members "percent_completed" = Some (JNum percent).

(** The components of a URL as [urlparse] names them:
    [scheme://netloc/path;params?query#fragment]. A relative reference has
    no origin (no scheme and no netloc). *)
Record url_parts : Type := mkUrlParts {
  u_origin : option (string * string);
  u_path : string;
  u_params : option string;
  u_query : option string;
  u_fragment : option string
}.

Definition opt_part (c : ascii) (o : option string) : string :=
  match o with
  | Some s => String c s
  | None => ""
  end.

Definition opt_text (o : option string) : string :=
  match o with
  | Some s => s
  | None => ""
  end.

Definition origin_text (o : option (string * string)) : string :=
  match o with
  | Some (sch, nl) => sch ++ "://" ++ nl
  | None => ""
  end.

(** The text of a URL with the given components. *)
Definition unparse (u : url_parts) : string :=
  origin_text (u_origin u) ++ u_path u ++ opt_part ";" (u_params u)
    ++ opt_part "?" (u_query u) ++ opt_part "#" (u_fragment u).

Definition last_segment (p : string) : string :=
  match PyStr.rsplit_slash p with
  | Some (_, seg) => seg
  | None => p
  end.

Definition none_of (p : ascii -> bool) (s : string) : bool := negb (PyStr.any_char p s).

(** Space and the control characters below it. *)
Definition c0_or_space (c : ascii) : bool := Nat.leb (nat_of_ascii c) 32.

Definition is_letter (c : ascii) : bool := (PyStr.is_lower c || PyStr.is_upper c)%bool.

Definition first_char_is (p : ascii -> bool) (s : string) : bool :=
  match s with
  | EmptyString => false
  | String c _ => p c
  end.

(** The components are delimited as the generic URL syntax requires: each
    one is free of the delimiters that would end it early, a scheme starts
    with a letter and the text does not start with blank or control
    characters (releases of [urllib.parse] differ on texts that break the
    last two conditions). *)
Definition valid_url (u : url_parts) : bool :=
  (negb (first_char_is c0_or_space (unparse u))
   && match u_origin u with
      | Some (sch, _) => first_char_is is_letter sch
      | None => true
      end
   && none_of UrlParse.unsafe_char (unparse u)
   && none_of (PyStr.is_char "?") (u_path u)
   && none_of (PyStr.is_char "#") (u_path u)
   && none_of (PyStr.is_char ";") (last_segment (u_path u))
   && none_of UrlParse.netloc_delim (opt_text (u_params u))
   && none_of (PyStr.is_char "#") (opt_text (u_query u))
   && match u_origin u with
      | Some (sch, nl) =>
          negb (String.eqb sch "")
          && PyStr.all_chars UrlParse.scheme_char sch
          && none_of UrlParse.netloc_delim nl
          && negb (UrlParse.bad_brackets nl)
          && (PyStr.starts_with "/" (u_path u)
              || (String.eqb (u_path u) ""
                  && match u_params u with None => true | Some _ => false end))
          && match u_params u with
             | Some _ => UrlParse.in_uses_params (PyStr.lower sch)
             | None => true
             end
      | None =>
          negb (PyStr.starts_with "//" (u_path u))
          && none_of (PyStr.is_char ":") (fst (PyStr.break (PyStr.is_char "/") (u_path u)))
      end)%bool.

(** A task instance that has executed at least once. *)
Definition begun (s : tstate) : bool :=
  match s with
  | NoState | UpstreamFailed => false
  | _ => true
  end.

Definition event_task (e : event) : string :=
  match e with
  | GatePoked id _ => id
  | TriggerCall id _ => id
  | PollCall id _ => id
  | PollResult id _ => id
  end.

(** The event that a task leaves in the log when it succeeds: the gate saw
    no active sibling, the trigger made its call, the waiter's check gave
    Succeeded. *)
Definition success_event (t : task) : event :=
  match t with
  | GateTask s => GatePoked (gate_task_id s) true
  | TriggerTask o => TriggerCall (op_task_id o) (op_data o)
  | WaitTask s => PollResult (hs_task_id s) Succeeded
  end.

(** The mode of a sensor task; a trigger has none. *)
Definition task_mode (t : task) : option sensor_mode :=
  match t with
  | GateTask s => Some (gate_mode s)
  | TriggerTask _ => None
  | WaitTask s => Some (hs_mode s)
  end.

(** The group that one call of the factory builds. *)
Definition pipeline (dr : DataRefresh) (ids : list string) (env : Environment)
    (drawn : nat) : TaskGroup :=
  fst (create_data_refresh_task_group dr ids env drawn).

(** The ids that the factory gives to the gate and to the two tasks of an
    action. *)
Definition gate_id : string := "data_refresh.wait_for_data_refresh".

Definition trigger_id (action : string) : string :=
  "data_refresh." ++ action ++ ".trigger_" ++ action.

Definition wait_id (action : string) : string :=
  "data_refresh." ++ action ++ ".wait_for_" ++ action.

(** The correlation token that a trigger's POST data carries. *)
Definition token_of (data : Py.dict json) : option json := Py.get data "index_suffix".

(** The token of a group: that of its first trigger. *)
Definition group_token (g : TaskGroup) : option json :=
  match filter (fun t => match t with TriggerTask _ => true | _ => false end) (tasks g) with
  | TriggerTask o :: _ => token_of (op_data o)
  | _ => None
  end.

(* ===================================================================== *)
(** ** Sample runs *)
(* ===================================================================== *)

Module Sample.

(** A refresh of "image" with a timeout of 100 s, checked every 30 s;
    [uuid4] is stood in for by texts of growing length. *)
Definition dr : DataRefresh := mkDataRefresh "image" 100.

Fixpoint marks (n : nat) : string :=
  match n with
  | O => "u"
  | S n' => String "-" (marks n')
  end.

Definition env : Environment := mkEnvironment (Some 30) marks.

Definition siblings : list string := ["audio_data_refresh"].

Definition group : TaskGroup := pipeline dr siblings env 0.

Definition idle : activity := fun _ => None.

Definition busy : activity :=
  fun id => if String.eqb id "audio_data_refresh"
            then Some (mkSiblingRun RunRunning true) else None.

Definition accepted : reply :=
  Got (mkResponse 202 (Some (JObj [("status_check", JStr "http://ingest:8001/task/abc")]))).

Definition accepted_without_url : reply := Got (mkResponse 202 (Some (JObj []))).

Definition status (active error : bool) : reply :=
  Got (mkResponse 200
         (Some (JObj [("active", JBool active); ("error", JBool error);
                      ("percent_completed", JNum (40 # 1))]))).

(** Gate clear, both actions triggered and polled to completion. *)
Definition full_run : list action :=
  [ RunGate gate_id idle;
    RunTrigger (trigger_id "ingest_upstream") accepted;
    RunPoke (wait_id "ingest_upstream") (status true false);
    Tick 90;
    RunPoke (wait_id "ingest_upstream") (status false false);
    RunTrigger (trigger_id "point_alias") accepted;
    RunPoke (wait_id "point_alias") (status true false);
    Tick 60;
    RunPoke (wait_id "point_alias") (status true false);
    Tick 30;
    RunPoke (wait_id "point_alias") (status false false) ].

(** The same run, stopped while the second action is still polling. *)
Definition long_poll : list action := firstn 9 full_run.

(** The first trigger is accepted with a body that has no [status_check]. *)
Definition rejected_run : list action :=
  [ RunGate gate_id idle;
    RunTrigger (trigger_id "ingest_upstream") accepted_without_url ].

(** The state a list of moves leads to from the start at time 0. *)
Definition state_after (l : list action) : run_state :=
  match run group (initial 0) l with
  | Some st => st
  | None => initial 0
  end.

End Sample.


(* ===================================================================== *)
(** ** Vocabulary of the proofs *)
(* ===================================================================== *)

(** The characters that can start the part of a URL after its path, or a
    further path segment. *)
Definition stop_char (c : ascii) : bool :=
  (PyStr.is_char "/" c || PyStr.is_char ";" c || PyStr.is_char "?" c || PyStr.is_char "#" c)%bool.

(** Empty, or starting with a character of the class. *)
Definition led_by (p : ascii -> bool) (s : string) : bool :=
  match s with
  | EmptyString => true
  | String c _ => p c
  end.


(** The components [urlparse] is expected to find in [unparse u]. *)
Definition expected (u : url_parts) : UrlParse.ParseResult :=
  {| UrlParse.scheme := match u_origin u with Some (sch, _) => PyStr.lower sch | None => "" end;
     UrlParse.netloc := match u_origin u with Some (_, nl) => nl | None => "" end;
     UrlParse.path := u_path u;
     UrlParse.params := opt_text (u_params u);
     UrlParse.query := opt_text (u_query u);
     UrlParse.fragment := opt_text (u_fragment u) |}.


(** What one move does to the task states and the log: nothing, or one
    task [id] that had neither succeeded nor failed goes to state [X]
    and leaves the events [evs]. *)
Inductive step_summary (g : TaskGroup) (st st' : run_state) : Prop :=
| step_idle :
    ti st' = ti st -> log st' = log st -> step_summary g st st'
| step_task (id : string) (t : task) (X : tstate) (evs : list event) :
    find_task g id = Some t ->
    ti st' = upd (ti st) id X ->
    log st' = (evs ++ log st)%list ->
    ti st id <> Success ->
    is_failed (ti st id) = false ->
    (begun X = true ->
     begun (ti st id) = true \/ all_success st (upstream_of g id) = true) ->
    (begun X = false -> evs = []) ->
    (begun (ti st id) = true -> begun X = true) ->
    (X = Success -> In (success_event t) evs) ->
    (forall e, In e evs -> event_task e = id) ->
    (forall v d, In (TriggerCall v d) evs ->
       evs = [TriggerCall v d]
       /\ all_success st (upstream_of g id) = true
       /\ exists o, t = TriggerTask o /\ d = op_data o) ->
    (forall w ep, In (PollCall w ep) evs -> exists s, t = WaitTask s) ->
    (X = Sleeping -> task_mode t = Some PokeMode) ->
    step_summary g st st'.


(** The facts about a run that the ordering properties rest on. *)
Record run_inv (g : TaskGroup) (st : run_state) : Prop := mkRunInv {
  inv_upstream :
    forall u v, In (u, v) (deps g) -> begun (ti st v) = true -> ti st u = Success;
  inv_success :
    forall id t, find_task g id = Some t -> ti st id = Success ->
                 In (success_event t) (log st);
  inv_begun :
    forall e, In e (log st) -> begun (ti st (event_task e)) = true;
  inv_trigger_order :
    forall post pre v d, log st = (post ++ TriggerCall v d :: pre)%list ->
      forall u t, In (u, v) (deps g) -> find_task g u = Some t ->
                  In (success_event t) pre;
  inv_trigger_data :
    forall v d, In (TriggerCall v d) (log st) ->
      exists o, find_task g v = Some (TriggerTask o) /\ d = op_data o;
  inv_poll_task :
    forall w ep, In (PollCall w ep) (log st) ->
      exists s, find_task g w = Some (WaitTask s);
  inv_sleeping :
    forall id, ti st id = Sleeping ->
      exists t, find_task g id = Some t /\ task_mode t = Some PokeMode
}.


(* ===================================================================== *)
(** ** Vocabulary of the further run properties *)
(* ===================================================================== *)

(** Every waiter of the group polls the endpoint that one of its own
    upstream triggers returned. *)
Definition endpoints_wired (g : TaskGroup) : Prop :=
  forall w s, find_task g w = Some (WaitTask s) ->
    In (xcom_task_ids (hs_endpoint s), w) (deps g)
    /\ exists o, find_task g (xcom_task_ids (hs_endpoint s)) = Some (TriggerTask o).

(** What a run keeps true of XCom: a value is there exactly for the
    triggers that succeeded, it is what the operator returned for some
    reply, and every poll went to the value its sensor's template names. *)
Record xcom_inv (g : TaskGroup) (st : run_state) : Prop := mkXcomInv {
  xi_pushed :
    forall id v, xcom st id = Some v ->
      ti st id = Success
      /\ exists o rep, find_task g id = Some (TriggerTask o)
                       /\ run_operator o rep = Return v;
  xi_success :
    forall id o, find_task g id = Some (TriggerTask o) -> ti st id = Success ->
      exists v, xcom st id = Some v;
  xi_poll :
    forall w ep, In (PollCall w ep) (log st) ->
      exists s, find_task g w = Some (WaitTask s)
                /\ xcom st (xcom_task_ids (hs_endpoint s)) = Some ep
}.

(** Two neighbours in a list, in this order. *)
Definition adjacent {A : Type} (x y : A) (l : list A) : Prop :=
  exists pre post, l = (pre ++ x :: y :: post)%list.

(** The ids of the two tasks of every action of a map, in creation order. *)
Definition action_task_ids (actions : list string) : list string :=
  flat_map (fun a => [trigger_id a; wait_id a]) actions.

(** A straight line of dependencies: [prev] before the trigger of the first
    action, and the waiter of each action before the trigger of the next. *)
Fixpoint links (prev : string) (actions : list string) : list (string * string) :=
  match actions with
  | [] => []
  | a :: rest => (prev, trigger_id a) :: links (wait_id a) rest
  end.

(** The state that a list of moves leads the sample group to in a run that
    starts at time [t0]. *)
Definition state_from (t0 : Z) (l : list action) : run_state :=
  match run Sample.group (initial t0) l with
  | Some st => st
  | None => initial t0
  end.

(** The clock of a run that started at [t0], after the moves [l]. *)
Fixpoint clock_after (t0 : Z) (l : list action) : Z :=
  match l with
  | [] => t0
  | Tick d :: l' => clock_after (t0 + d) l'
  | _ :: l' => clock_after t0 l'
  end.

(** The time of the first check of the sensor [id] among the moves [l] of
    a run that started at [t0]; [None] when [l] has no check of it. *)
Fixpoint first_check (t0 : Z) (l : list action) (id : string) : option Z :=
  match l with
  | [] => None
  | Tick d :: l' => first_check (t0 + d) l' id
  | RunGate id' _ :: l' | RunPoke id' _ :: l' =>
      if String.eqb id' id then Some t0 else first_check t0 l' id
  | _ :: l' => first_check t0 l' id
  end.

(** How long the sensor [id] has been waiting when it is checked after the
    moves [l]: the time since its first check, and nothing when this check
    is its first. *)
Definition waited (t0 : Z) (l : list action) (id : string) : Z :=
  match first_check t0 l id with
  | Some t => clock_after t0 l - t
  | None => 0
  end.

(* ===================================================================== *)
(** ** The NYPL provider script *)
(* ===================================================================== *)

(** Embedding of
    [openverse_catalog/dags/providers/provider_api_scripts/nypl.py]. The
    values the script handles are decoded JSON documents, Python's [None]
    being [JNull]; texts are taken over 8-bit characters. *)
Module Nypl.

(** What the script can raise: the exceptions of [Py], and [IndexError]. *)
Inductive raised : Type :=
| Exn (e : exn)
| IndexError.

Inductive res (A : Type) : Type :=
| Ok (a : A)
| Err (e : raised).
Arguments Ok {A} a.
Arguments Err {A} e.

Definition bind {A B : Type} (m : res A) (k : A -> res B) : res B :=
  match m with
  | Ok a => k a
  | Err e => Err e
  end.

Definition lift {A : Type} (m : outcome A) : res A :=
  match m with
  | Return a => Ok a
  | Raise e => Err (Exn e)
  end.

Declare Scope nypl_scope.
Notation "x <- m ;; k" := (bind m (fun x => k))
  (at level 61, m at next level, right associativity) : nypl_scope.
Local Open Scope nypl_scope.

(** [v.get(key, default)]: only a [dict] has the method. *)
Definition dict_get (v : json) (key : string) (default : json) : res json :=
  match v with
  | JObj members =>
      Ok (match Py.get members key with
          | Some x => x
          | None => default
          end)
  | _ => Err (Exn AttributeError)
  end.

(** [v == "primary"]. *)
Definition is_primary (v : json) : bool :=
  match v with
  | JStr s => String.eqb s "primary"
  | _ => false
  end.

(** [v is None]. *)
Definition is_none (v : json) : bool :=
  match v with
  | JNull => true
  | _ => false
  end.

Definition LIMIT : Z := 500.
Definition RETRIES : Z := 3.
Definition BASE_ENDPOINT : string := "http://api.repo.nypl.org/api/v1/items/search".
Definition METADATA_ENDPOINT : string := "http://api.repo.nypl.org/api/v1/items/item_details/".

Definition DEFAULT_QUERY_PARAMS : Py.dict json :=
  [ ("q", JStr "CC_0");
    ("field", JStr "use_rtxt_s");
    ("page", JNum (inject_Z 1));
    ("per_page", JNum (inject_Z LIMIT)) ].

Definition IMAGE_URL_DIMENSIONS : list string := ["g"; "v"; "q"; "w"; "r"].

(** [_get_query_param]: a copy of the defaults with [page] set. *)
Definition _get_query_param (default_query_params : option (Py.dict json))
    (page : json) : Py.dict json :=
  let default_query_params :=
    match default_query_params with
    | None => DEFAULT_QUERY_PARAMS
    | Some d => d
    end in
  Py.set default_query_params "page" page.

(** [_get_title]. *)
Definition _get_title (titleinfo : json) : res json :=
  match titleinfo with
  | JArr (first :: _) =>
      title <- dict_get first "title" (JObj []) ;;
      dict_get title "$" JNull
  | _ => Ok JNull
  end.

(** [next(primary_creator, None)]: the generator is consumed up to its
    first value; the elements after it are never looked at. *)
Fixpoint primary_creator (creatorinfo : list json) : res json :=
  match creatorinfo with
  | [] => Ok JNull
  | info :: rest =>
      usage <- dict_get info "usage" JNull ;;
      if is_primary usage then
        name_part <- dict_get info "namePart" (JObj []) ;;
        dict_get name_part "$" JNull
      else primary_creator rest
  end.

(** [_get_creators]. *)
Definition _get_creators (creatorinfo : json) : res json :=
  match creatorinfo with
  | JArr infos => primary_creator infos
  | _ => Ok JNull
  end.

(** A match of [FILETYPE_PATTERN = r" .(jpeg|gif) "] that starts at the head
    of [s], as its group 1: a blank, any character but a newline, one of the
    two words, a blank. *)
Definition filetype_here (s : string) : option string :=
  match s with
  | String blank (String any rest) =>
      if (PyStr.is_char " " blank && negb (Nat.eqb (nat_of_ascii any) 10))%bool then
        if PyStr.starts_with "jpeg " rest then Some "jpeg"
        else if PyStr.starts_with "gif " rest then Some "gif"
        else None
      else None
  | _ => None
  end.

(** [re.search(FILETYPE_PATTERN, s)]: the leftmost match. *)
Fixpoint filetype_search (s : string) : option string :=
  match filetype_here s with
  | Some g => Some g
  | None =>
      match s with
      | EmptyString => None
      | String _ rest => filetype_search rest
      end
  end.

(** [_get_filetype]; [re.search] accepts only a text. *)
Definition _get_filetype (description : json) : res (option string) :=
  match description with
  | JStr s => Ok (filetype_search s)
  | _ => Err (Exn TypeError)
  end.

(** [s.replace("&download=1", "")]: [skipping] counts the characters of an
    occurrence that are still to be dropped. *)
Fixpoint drop_download (s : string) (skipping : nat) : string :=
  match s with
  | EmptyString => EmptyString
  | String c rest =>
      match skipping with
      | S k => drop_download rest k
      | O =>
          if PyStr.starts_with "&download=1" s
          then drop_download rest (String.length "&download=1" - 1)
          else String c (drop_download rest 0)
      end
  end.

(** [url.replace("&download=1", "")]: only a text has the method. *)
Definition without_download (url : json) : res string :=
  match url with
  | JStr s => Ok (drop_download s 0)
  | _ => Err (Exn AttributeError)
  end.

(** [urlparse(v).query], as [urlparse_path] for the path. *)
Definition urlparse_query (v : json) : outcome strlike :=
  match v with
  | JStr s => r <- UrlParse.urlparse s ;; Return (Str (UrlParse.query r))
  | _ => if truthy v then Raise AttributeError else Return (Bytes "")
  end%py.

(** [for x in v]: a list gives its items, a [dict] its keys, a text its
    characters; nothing else can be iterated. *)
Fixpoint chars (s : string) : list json :=
  match s with
  | EmptyString => []
  | String c rest => JStr (String c EmptyString) :: chars rest
  end.

Definition iterate (v : json) : res (list json) :=
  match v with
  | JArr items => Ok items
  | JObj members => Ok (map (fun kv => JStr (fst kv)) members)
  | JStr s => Ok (chars s)
  | _ => Err (Exn TypeError)
  end.

(** [l[0]]. *)
Definition first {A : Type} (l : list A) : res A :=
  match l with
  | x :: _ => Ok x
  | [] => Err IndexError
  end.

(** The values of one entry of [image_type]. *)
Record image_link : Type := mkImageLink {
  link_url : json;
  link_description : json
}.

Section ImageData.

(** [urllib.parse.parse_qs], left open: the query's fields with their
    values. *)
Variable parse_qs : strlike -> Py.dict (list string).

(** One step of the comprehension that builds [image_type]: the key is
    computed first, then the value. *)
Definition image_entry (img : json) : res (string * image_link) :=
  url <- lift (subscript img "$") ;;
  qry <- lift (urlparse_query url) ;;
  values <- match Py.get (parse_qs qry) "t" with
            | Some values => Ok values
            | None => Err (Exn (KeyError "t"))
            end ;;
  dimension <- first values ;;
  description <- lift (subscript img "description") ;;
  Ok (dimension, mkImageLink url description).

Fixpoint image_types (images : list json) (image_type : Py.dict image_link)
    : res (Py.dict image_link) :=
  match images with
  | [] => Ok image_type
  | img :: rest =>
      entry <- image_entry img ;;
      image_types rest (Py.set image_type (fst entry) (snd entry))
  end.

(** [next(preferred_image, None)]: the first dimension of the list that
    [image_type] has. *)
Fixpoint preferred_image (dimensions : list string) (image_type : Py.dict image_link)
    : option image_link :=
  match dimensions with
  | [] => None
  | dimension :: rest =>
      match Py.get image_type dimension with
      | Some link => Some link
      | None => preferred_image rest image_type
      end
  end.

(** [_get_image_data]: the pair [(image_url, filetype)]. Unpacking the
    [None] that [next] gives when no dimension is known raises. *)
Definition _get_image_data (images : json) : res (option string * option string) :=
  imgs <- iterate images ;;
  image_type <- image_types imgs [] ;;
  match image_type with
  | [] => Ok (None, None)
  | _ =>
      match preferred_image IMAGE_URL_DIMENSIONS image_type with
      | Some link =>
          image_url <- without_download (link_url link) ;;
          filetype <- _get_filetype (link_description link) ;;
          Ok (Some image_url, filetype)
      | None => Err (Exn TypeError)
      end
  end.

End ImageData.

(** [if value := ...: metadata[key] = value]. *)
Definition set_if_truthy (metadata : Py.dict json) (key : string) (value : json)
    : Py.dict json :=
  if truthy value then Py.set metadata key value else metadata.

(** [_get_metadata]. *)
Definition _get_metadata (mods : json) : res (Py.dict json) :=
  let metadata : Py.dict json := [] in
  type_of_resource <- dict_get mods "typeOfResource" JNull ;;
  metadata <-
    match type_of_resource with
    | JArr items =>
        head <- first items ;;
        usage <- dict_get head "usage" JNull ;;
        if is_primary usage then
          value <- dict_get head "$" JNull ;;
          Ok (Py.set metadata "type_of_resource" value)
        else Ok metadata
    | _ => Ok metadata
    end ;;
  genre <- dict_get mods "genre" JNull ;;
  metadata <-
    match genre with
    | JObj _ =>
        value <- dict_get genre "$" JNull ;;
        Ok (Py.set metadata "genre" value)
    | _ => Ok metadata
    end ;;
  origin_info <- dict_get mods "originInfo" (JObj []) ;;
  issued <- dict_get origin_info "dateIssued" (JObj []) ;;
  date_issued <- dict_get issued "$" JNull ;;
  let metadata := set_if_truthy metadata "date_issued" date_issued in
  published <- dict_get origin_info "publisher" (JObj []) ;;
  publisher <- dict_get published "$" JNull ;;
  let metadata := set_if_truthy metadata "publisher" publisher in
  physical <- dict_get mods "physicalDescription" (JObj []) ;;
  note <- dict_get physical "note" (JObj []) ;;
  description <- dict_get note "$" JNull ;;
  let metadata := set_if_truthy metadata "description" description in
  Ok metadata.

(** The arguments of one call of [delay_request.get]. *)
Record request : Type := mkRequest {
  rq_endpoint : string;
  rq_params : option (Py.dict json);
  rq_headers : Py.dict string
}.

Section Script.

Variable parse_qs : strlike -> Py.dict (list string).

(** [common.licenses.get_license_info] is not among the embedded files: it
    is left open, as a function of the license URL. *)
Variable LicenseInfo : Type.
Variable get_license_info : json -> LicenseInfo.

(** The Airflow variable [API_KEY_NYPL], [None] when it is not set. *)
Variable NYPL_API : option string.

(** What [delay_request.get] returns for the requests sent so far, the
    current one last: a response, or [None]. *)
Variable server : list request -> option Response.

(** [f"Token token={NYPL_API}"]. *)
Definition TOKEN : string :=
  "Token token=" ++ match NYPL_API with Some key => key | None => "None" end.

Definition HEADERS : Py.dict string := [("Authorization", TOKEN)].

(** The keyword arguments of one call of [image_store.add_item]. *)
Record add_item_call : Type := mkAddItem {
  foreign_identifier : json;
  foreign_landing_url : json;
  image_url : string;
  filetype : option string;
  license_info : LicenseInfo;
  title : json;
  creator : json;
  meta_data : option (Py.dict json)
}.

(** What the script does to its surroundings: the requests sent, the calls
    of [image_store.add_item] and of [image_store.commit], oldest first. *)
Record world : Type := mkWorld {
  sent : list request;
  added : list add_item_call;
  commits : nat
}.

Definition start : world := mkWorld [] [] 0.

(** The [try] block of [_request_handler]. *)
Definition read_results (response : Response) : res json :=
  response_json <- lift (response_json response) ;;
  response_json <- dict_get response_json "nyplAPI" JNull ;;
  dict_get response_json "response" JNull.

(** [for retry in range(retries)]: [left] counts the passes still to make. *)
Fixpoint request_loop (rq : request) (left : nat) (w : world) : res json * world :=
  match left with
  | O => (Ok JNull, w)
  | S left' =>
      let w' := mkWorld (sent w ++ [rq]) (added w) (commits w) in
      match server (sent w') with
      | None => (Err (Exn AttributeError), w')
      | Some response =>
          if status_code response =? 200 then
            match read_results response with
            | Ok results => (Ok results, w')
            | Err _ => request_loop rq left' w'
            end
          else request_loop rq left' w'
      end
  end.

(** [_request_handler]. *)
Definition _request_handler (endpoint : option string) (params : option (Py.dict json))
    (headers : option (Py.dict string)) (retries : option Z) (w : world)
    : res json * world :=
  let endpoint := match endpoint with Some e => e | None => BASE_ENDPOINT end in
  let headers := match headers with Some h => h | None => HEADERS end in
  let retries := match retries with Some n => n | None => RETRIES end in
  request_loop (mkRequest endpoint params headers) (Z.to_nat retries) w.

(** One pass of the loop of [_get_capture_details], up to the call of
    [image_store.add_item]: [None] stands for [continue]. *)
Definition capture_item (img : json) (metadata : option (Py.dict json))
    (creator title : json) : res (option add_item_call) :=
  id_holder <- dict_get img "imageID" (JObj []) ;;
  image_id <- dict_get id_holder "$" JNull ;;
  if is_none image_id then Ok None
  else
    links <- dict_get img "imageLinks" (JObj []) ;;
    link <- dict_get links "imageLink" (JArr []) ;;
    data <- _get_image_data parse_qs link ;;
    item_link <- dict_get img "itemLink" (JObj []) ;;
    foreign_landing_url <- dict_get item_link "$" JNull ;;
    rights <- dict_get img "rightsStatementURI" (JObj []) ;;
    license_url <- dict_get rights "$" JNull ;;
    match fst data with
    | None => Ok None
    | Some image_url =>
        if (is_none foreign_landing_url || is_none license_url)%bool then Ok None
        else Ok (Some (mkAddItem image_id foreign_landing_url image_url (snd data)
                         (get_license_info license_url) title creator metadata))
    end.

Fixpoint capture_loop (captures : list json) (metadata : option (Py.dict json))
    (creator title : json) (w : world) : res unit * world :=
  match captures with
  | [] => (Ok tt, w)
  | img :: rest =>
      match capture_item img metadata creator title with
      | Err e => (Err e, w)
      | Ok None => capture_loop rest metadata creator title w
      | Ok (Some call) =>
          capture_loop rest metadata creator title
            (mkWorld (sent w) (added w ++ [call]) (commits w))
      end
  end.

(** [_get_capture_details]. *)
Definition _get_capture_details (captures : option (list json))
    (metadata : option (Py.dict json)) (creator title : json) (w : world)
    : res unit * world :=
  let captures := match captures with Some l => l | None => [] end in
  capture_loop captures metadata creator title w.

(** [METADATA_ENDPOINT + uuid]. *)
Definition metadata_endpoint (uuid : json) : res string :=
  match uuid with
  | JStr s => Ok (METADATA_ENDPOINT ++ s)
  | _ => Err (Exn TypeError)
  end.

(** What [_handle_results] reads from the details of an item, before it
    goes through the captures. *)
Definition read_details (item_details : json)
    : res (json * json * Py.dict json * list json) :=
  mods <- dict_get item_details "mods" JNull ;;
  titleinfo <- dict_get mods "titleInfo" JNull ;;
  title <- _get_title titleinfo ;;
  creatorinfo <- dict_get mods "name" JNull ;;
  creator <- _get_creators creatorinfo ;;
  metadata <- _get_metadata mods ;;
  siblings <- dict_get item_details "sibling_captures" (JObj []) ;;
  captures <- dict_get siblings "capture" (JArr []) ;;
  let captures := match captures with JArr l => l | other => [other] end in
  Ok (title, creator, metadata, captures).

(** [_handle_results]. *)
Fixpoint _handle_results (results : list json) (w : world) : res unit * world :=
  match results with
  | [] => (Ok tt, w)
  | item :: rest =>
      match (uuid <- dict_get item "uuid" JNull ;; metadata_endpoint uuid) with
      | Err e => (Err e, w)
      | Ok endpoint =>
          match _request_handler (Some endpoint) None None None w with
          | (Err e, w1) => (Err e, w1)
          | (Ok item_details, w1) =>
              if is_none item_details then _handle_results rest w1
              else
                match read_details item_details with
                | Err e => (Err e, w1)
                | Ok (title, creator, metadata, captures) =>
                    match _get_capture_details (Some captures) (Some metadata)
                            creator title w1 with
                    | (Err e, w2) => (Err e, w2)
                    | (Ok _, w2) => _handle_results rest w2
                    end
                end
          end
      end
  end.

(** The loop of [main], from page [page]; [fuel] bounds the number of pages,
    and [None] is the loop still going when it is used up. *)
Fixpoint main_loop (fuel : nat) (page : Z) (w : world) : option (res unit * world) :=
  match fuel with
  | O => None
  | S fuel' =>
      let query_param := _get_query_param None (JNum (inject_Z page)) in
      match _request_handler None (Some query_param) None None w with
      | (Err e, w1) => Some (Err e, w1)
      | (Ok request_response, w1) =>
          match dict_get request_response "result" JNull with
          | Err e => Some (Err e, w1)
          | Ok (JArr (item :: items)) =>
              match _handle_results (item :: items) w1 with
              | (Err e, w2) => Some (Err e, w2)
              | (Ok _, w2) => main_loop fuel' (page + 1) w2
              end
          | Ok _ => Some (Ok tt, mkWorld (sent w1) (added w1) (S (commits w1)))
          end
      end
  end.

(** [main]. *)
Definition main (fuel : nat) : option (res unit * world) := main_loop fuel 1 start.

(** The same loop followed for at most [fuel] pages, with the world it has
    reached: the result when the loop has ended by then, and [None] with the
    world so far when it is still going. *)
Fixpoint main_steps (fuel : nat) (page : Z) (w : world) : option (res unit) * world :=
  match fuel with
  | O => (None, w)
  | S fuel' =>
      let query_param := _get_query_param None (JNum (inject_Z page)) in
      match _request_handler None (Some query_param) None None w with
      | (Err e, w1) => (Some (Err e), w1)
      | (Ok request_response, w1) =>
          match dict_get request_response "result" JNull with
          | Err e => (Some (Err e), w1)
          | Ok (JArr (item :: items)) =>
              match _handle_results (item :: items) w1 with
              | (Err e, w2) => (Some (Err e), w2)
              | (Ok _, w2) => main_steps fuel' (page + 1) w2
              end
          | Ok _ => (Some (Ok tt), mkWorld (sent w1) (added w1) (S (commits w1)))
          end
      end
  end.

End Script.

End Nypl.

(* ===================================================================== *)
(** ** Vocabulary of the properties of the NYPL script *)
(* ===================================================================== *)

(** An entry of a creator list that the search for the primary creator
    passes over: a [dict] whose [usage] is not ["primary"]. *)
Definition not_primary (info : json) : Prop :=
  exists usage, Nypl.dict_get info "usage" JNull = Nypl.Ok usage
                /\ Nypl.is_primary usage = false.

(** [s] has an occurrence of the file type pattern with the word [ft]: a
    blank, one character that is not a newline, [ft], a blank. *)
Definition filetype_match (s ft : string) : Prop :=
  exists pre c post,
    s = pre ++ String " " (String c (ft ++ String " " post))
    /\ nat_of_ascii c <> 10%nat
    /\ (ft = "jpeg" \/ ft = "gif").

(** The same, with the part of [s] before the occurrence. *)
Definition filetype_match_at (pre s ft : string) : Prop :=
  exists c post,
    s = pre ++ String " " (String c (ft ++ String " " post))
    /\ nat_of_ascii c <> 10%nat
    /\ (ft = "jpeg" \/ ft = "gif").

(** The entries that the comprehension of [_get_image_data] computes for a
    list of images, one per image, when none of them raises. *)
Definition image_entries (parse_qs : strlike -> Py.dict (list string))
    (imgs : list json) (entries : list (string * Nypl.image_link)) : Prop :=
  Forall2 (fun img entry => Nypl.image_entry parse_qs img = Nypl.Ok entry) imgs entries.

(** What [_get_image_data] makes of the link it has chosen. *)
Definition link_data (link : Nypl.image_link) : Nypl.res (option string * option string) :=
  Nypl.bind (Nypl.without_download (Nypl.link_url link)) (fun image_url =>
  Nypl.bind (Nypl._get_filetype (Nypl.link_description link)) (fun filetype =>
  Nypl.Ok (Some image_url, filetype))).

(** A stand-in for [parse_qs] on sample links, whose query starts with the
    one-letter value of [t]. *)
Definition sample_parse_qs (qry : strlike) : Py.dict (list string) :=
  match qry with
  | Str (String c _) => [("t", [String c EmptyString])]
  | _ => []
  end.

Definition sample_link (dimension description : string) : json :=
  JObj [ ("$", JStr ("http://images.nypl.org/index.php?" ++ dimension));
         ("description", JStr description) ].

(** The keys that [_get_metadata] can set, in the order it sets them. *)
Definition metadata_keys : list string :=
  ["type_of_resource"; "genre"; "date_issued"; "publisher"; "description"].

(** A reply that makes [_request_handler] try again: a response whose
    status is not 200, or whose body cannot be read. *)
Definition unusable (reply : option Response) : Prop :=
  exists r, reply = Some r
            /\ (status_code r <> 200 \/ exists e, Nypl.read_results r = Nypl.Err e).

(** A reply that ends the retries: no response object at all, or a response
    of status 200 whose body can be read. *)
Definition conclusive (reply : option Response) : Prop :=
  reply = None
  \/ exists r results, reply = Some r /\ status_code r = 200
                       /\ Nypl.read_results r = Nypl.Ok results.

(** What [_request_handler] makes of a conclusive reply. *)
Definition conclusion (reply : option Response) : Nypl.res json :=
  match reply with
  | None => Nypl.Err (Nypl.Exn AttributeError)
  | Some r => Nypl.read_results r
  end.

(** The request that [_request_handler] sends for its arguments. *)
Definition request_of (NYPL_API : option string) (endpoint : option string)
    (params : option (Py.dict json)) (headers : option (Py.dict string)) : Nypl.request :=
  Nypl.mkRequest
    (match endpoint with Some e => e | None => Nypl.BASE_ENDPOINT end)
    params
    (match headers with Some h => h | None => Nypl.HEADERS NYPL_API end).

(** The world after [k] more requests [rq]. *)
Definition after_requests {L : Type} (w : Nypl.world L) (rq : Nypl.request) (k : nat)
    : Nypl.world L :=
  Nypl.mkWorld (Nypl.sent w ++ repeat rq k) (Nypl.added w) (Nypl.commits w).

(** A call of [image_store.add_item] made for one of the captures, with
    nothing missing. *)
Definition complete_item {L : Type} (get_license_info : json -> L)
    (metadata : option (Py.dict json)) (creator title : json)
    (call : Nypl.add_item_call L) : Prop :=
  Nypl.is_none (Nypl.foreign_identifier call) = false
  /\ Nypl.is_none (Nypl.foreign_landing_url call) = false
  /\ Nypl.title call = title
  /\ Nypl.creator call = creator
  /\ Nypl.meta_data call = metadata
  /\ exists license_url, Nypl.is_none license_url = false
                         /\ Nypl.license_info call = get_license_info license_url.

(** Sample servers: one that fails, then answers with a body that cannot be
    read, then with an empty page; and one that is down. *)
Definition empty_page : Response :=
  mkResponse 200
    (Some (JObj [("nyplAPI", JObj [("response", JObj [("result", JArr [])])])])).

Definition flaky_server (history : list Nypl.request) : option Response :=
  match List.length history with
  | 1%nat => Some (mkResponse 500 None)
  | 2%nat => Some (mkResponse 200 (Some (JObj [("nyplAPI", JStr "busy")])))
  | _ => Some empty_page
  end.

Definition dead_server (history : list Nypl.request) : option Response :=
  Some (mkResponse 503 None).

(** A request for the details of one of the items of a result page. *)
Definition details_request (NYPL_API : option string) (results : list json)
    (rq : Nypl.request) : Prop :=
  exists item uuid,
    In item results
    /\ Nypl.dict_get item "uuid" JNull = Nypl.Ok (JStr uuid)
    /\ rq = Nypl.mkRequest (Nypl.METADATA_ENDPOINT ++ uuid) None (Nypl.HEADERS NYPL_API).

(** The search request for the first page. *)
Definition first_search (NYPL_API : option string) : Nypl.request :=
  Nypl.mkRequest Nypl.BASE_ENDPOINT
    (Some [ ("q", JStr "CC_0"); ("field", JStr "use_rtxt_s");
            ("page", JNum (inject_Z 1)); ("per_page", JNum (inject_Z 500)) ])
    [("Authorization", Nypl.TOKEN NYPL_API)].

(** A stand-in for [get_license_info] on samples. *)
Definition sample_license (license_url : json) : json := license_url.

(** A sample catalog: a first page with one item, the details of that item
    with two captures (the second without links), then an empty page. *)
Definition sample_page : Response :=
  mkResponse 200
    (Some (JObj [("nyplAPI",
                  JObj [("response",
                         JObj [("result", JArr [JObj [("uuid", JStr "u1")]])])])])).

Definition sample_capture (id : string) (links : list json) : json :=
  JObj [ ("imageID", JObj [("$", JStr id)]);
         ("imageLinks", JObj [("imageLink", JArr links)]);
         ("itemLink", JObj [("$", JStr ("http://digitalcollections.nypl.org/items/" ++ id))]);
         ("rightsStatementURI",
          JObj [("$", JStr "http://creativecommons.org/publicdomain/zero/1.0/")]) ].

Definition sample_details : Response :=
  mkResponse 200
    (Some (JObj [("nyplAPI",
                  JObj [("response",
                         JObj [ ("mods",
                                 JObj [ ("titleInfo",
                                         JArr [JObj [("title", JObj [("$", JStr "Map")])]]);
                                        ("name",
                                         JArr [JObj [ ("usage", JStr "primary");
                                                      ("namePart",
                                                       JObj [("$", JStr "Hine, Lewis")]) ]]);
                                        ("genre", JObj [("$", JStr "Maps")]) ]);
                                ("sibling_captures",
                                 JObj [("capture",
                                        JArr [ sample_capture "5001"
                                                 [ sample_link "w&download=1"
                                                     "Web .jpeg (760 pixels)";
                                                   sample_link "g&download=1"
                                                     "Original .gif (full size)" ];
                                               sample_capture "5002" [] ])]) ])])])).

Definition sample_catalog (history : list Nypl.request) : option Response :=
  match List.length history with
  | 1%nat => Some sample_page
  | 2%nat => Some sample_details
  | _ => Some empty_page
  end.

(** The world that [main] leaves on a sample server, when it ends within
    the given number of pages. *)
Definition world_after (server : list Nypl.request -> option Response) (fuel : nat)
    : Nypl.world json :=
  match Nypl.main sample_parse_qs sample_license None server fuel with
  | Some (_, w) => w
  | None => Nypl.start json
  end.

(** The search request for a page. *)
Definition search_request (NYPL_API : option string) (page : Z) : Nypl.request :=
  Nypl.mkRequest Nypl.BASE_ENDPOINT
    (Some (Nypl._get_query_param None (JNum (inject_Z page))))
    (Nypl.HEADERS NYPL_API).

(** The requests of a history that went to the search endpoint. *)
Definition searches (history : list Nypl.request) : list Nypl.request :=
  filter (fun rq => String.eqb (Nypl.rq_endpoint rq) Nypl.BASE_ENDPOINT) history.

(** Consecutive pages from [page] on, the i-th of them asked for as many
    times as the i-th count says. *)
Fixpoint page_blocks (NYPL_API : option string) (page : Z) (counts : list nat)
    : list Nypl.request :=
  match counts with
  | [] => []
  | c :: rest =>
      (repeat (search_request NYPL_API page) c ++ page_blocks NYPL_API (page + 1) rest)%list
  end.

(* ===================================================================== *)
(** ** The columns of the TSV files *)
(* ===================================================================== *)

(** Embedding of [openverse_catalog/dags/common/storage/tsv_columns.py].
    The columns themselves are defined in [common.storage.columns], which is
    not among the embedded files: they are taken by name only, and which of
    them are [required] is left open. *)
Module TsvColumns.

Inductive Column : Type :=
| FOREIGN_ID
| LANDING_URL
| DIRECT_URL
| THUMBNAIL
| FILETYPE
| FILESIZE
| LICENSE
| LICENSE_VERSION
| LICENSE_URL
| CREATOR
| CREATOR_URL
| TITLE
| META_DATA
| TAGS
| CATEGORY
| WATERMARKED
| PROVIDER
| SOURCE
| INGESTION_TYPE
| DURATION
| BIT_RATE
| SAMPLE_RATE
| GENRES
| AUDIO_SET
| SET_POSITION
| ALT_FILES
| WIDTH
| HEIGHT.

(** The media types [AUDIO] and [IMAGE] of [common.constants]. *)
Inductive media : Type :=
| AUDIO
| IMAGE.

Definition CURRENT_VERSION (m : media) : string :=
  match m with
  | AUDIO => "002"
  | IMAGE => "002"
  end.

(** [COLUMNS]: per media type, the column lists by version, in the order of
    the source. *)
Definition COLUMNS (m : media) : Py.dict (list Column) :=
  match m with
  | AUDIO =>
      [ ("001",
         [ FOREIGN_ID; LANDING_URL; DIRECT_URL; THUMBNAIL; FILETYPE; FILESIZE; LICENSE;
           LICENSE_VERSION; CREATOR; CREATOR_URL; TITLE; META_DATA; TAGS; CATEGORY;
           WATERMARKED; PROVIDER; SOURCE; INGESTION_TYPE; DURATION; BIT_RATE;
           SAMPLE_RATE; GENRES; AUDIO_SET; SET_POSITION; ALT_FILES ]);
        ("002",
         [ FOREIGN_ID; LANDING_URL; DIRECT_URL; THUMBNAIL; FILETYPE; FILESIZE; LICENSE;
           LICENSE_VERSION; LICENSE_URL; CREATOR; CREATOR_URL; TITLE; META_DATA; TAGS;
           CATEGORY; PROVIDER; SOURCE; DURATION; BIT_RATE; SAMPLE_RATE; GENRES;
           AUDIO_SET; SET_POSITION; ALT_FILES ]) ]
  | IMAGE =>
      [ ("000",
         [ FOREIGN_ID; LANDING_URL; DIRECT_URL; THUMBNAIL; WIDTH; HEIGHT; FILESIZE;
           LICENSE; LICENSE_VERSION; CREATOR; CREATOR_URL; TITLE; META_DATA; TAGS;
           WATERMARKED; PROVIDER; SOURCE; INGESTION_TYPE ]);
        ("001",
         [ FOREIGN_ID; LANDING_URL; DIRECT_URL; THUMBNAIL; FILETYPE; FILESIZE; LICENSE;
           LICENSE_VERSION; CREATOR; CREATOR_URL; TITLE; META_DATA; TAGS; CATEGORY;
           WATERMARKED; PROVIDER; SOURCE; INGESTION_TYPE; WIDTH; HEIGHT ]);
        ("002",
         [ FOREIGN_ID; LANDING_URL; DIRECT_URL; THUMBNAIL; FILETYPE; FILESIZE; LICENSE;
           LICENSE_VERSION; LICENSE_URL; CREATOR; CREATOR_URL; TITLE; META_DATA; TAGS;
           CATEGORY; PROVIDER; SOURCE; WIDTH; HEIGHT ]) ]
  end.

(** [COLUMNS[m][CURRENT_VERSION[m]]]; [None] stands for the [KeyError] of a
    version that the table lacks. *)
Definition current_columns (m : media) : option (list Column) :=
  Py.get (COLUMNS m) (CURRENT_VERSION m).

Definition CURRENT_AUDIO_TSV_COLUMNS : option (list Column) := current_columns AUDIO.
Definition CURRENT_IMAGE_TSV_COLUMNS : option (list Column) := current_columns IMAGE.

(** [required_columns], for a given reading of [col.required]. *)
Definition required_columns (required : Column -> bool) : option (list Column) :=
  option_map (filter required) CURRENT_IMAGE_TSV_COLUMNS.

(** The columns that only one media type has. *)
Definition media_specific : list Column :=
  [DURATION; BIT_RATE; SAMPLE_RATE; GENRES; AUDIO_SET; SET_POSITION; ALT_FILES;
   WIDTH; HEIGHT].

(** A sample reading of [required]: the identifier, the two URLs and the
    license. *)
Definition sample_required (c : Column) : bool :=
  match c with
  | FOREIGN_ID | LANDING_URL | DIRECT_URL | LICENSE | LICENSE_VERSION => true
  | _ => false
  end.

End TsvColumns.

(* ===================================================================== *)
(** * Properties of the completion check *)
(* ===================================================================== *)

Section CompletionCheck.

Variable status : Z.

Lemma check_unfold (members : list (string * json)) :
  response_check_wait_for_completion (mkResponse status (Some (JObj members))) =
  match Py.get members "active" with
  | None => Raise (KeyError "active")
  | Some a =>
      if truthy a then Return false
      else match Py.get members "error" with
           | None => Raise (KeyError "error")
           | Some e =>
               if truthy e then Raise (AirflowException "Error triggering data refresh.")
               else match Py.get members "percent_completed" with
                    | None => Raise (KeyError "percent_completed")
                    | Some _ => Return true
                    end
           end
  end.
Proof.
  unfold response_check_wait_for_completion, response_json, subscript; cbn.
  destruct (Py.get members "active") as [a|]; cbn; [|reflexivity].
  destruct (truthy a); [reflexivity|].
  destruct (Py.get members "error") as [e|]; cbn; [|reflexivity].
  destruct (truthy e); [reflexivity|].
  destruct (Py.get members "percent_completed"); reflexivity.
Qed.

End CompletionCheck.

(** C1. On a well-formed poll body the completion check follows the
    decision table: [active] true gives Running whatever [error] and
    [percent_completed] are; [active] false with [error] true gives Failed
    (the remote-error exception); [active] false with [error] false gives
    Succeeded. *)
Theorem decode_decision_table :
  forall (status : Z) (data : json) (active error : bool) (percent : Q),
    well_formed_body data active error percent ->
    (active = true -> decode (mkResponse status (Some data)) = Running)
    /\ (active = false -> error = true ->
        decode (mkResponse status (Some data))
        = Failed (AirflowException "Error triggering data refresh."))
    /\ (active = false -> error = false ->
        decode (mkResponse status (Some data)) = Succeeded).
Proof.
  intros status data active error percent (members & -> & Ha & He & Hp).
  unfold decode. rewrite check_unfold, Ha, He, Hp. cbn.
  repeat split; intros; subst; reflexivity.
Qed.

Lemma decode_decision_table_witness :
  well_formed_body
    (JObj [("active", JBool true); ("error", JBool true); ("percent_completed", JNum (40 # 1))])
    true true (40 # 1)
  /\ decode (mkResponse 200
       (Some (JObj [("active", JBool true); ("error", JBool true);
                    ("percent_completed", JNum (40 # 1))]))) = Running.
Proof.
  assert (W : well_formed_body
    (JObj [("active", JBool true); ("error", JBool true); ("percent_completed", JNum (40 # 1))])
    true true (40 # 1)).
  { eexists; repeat split; reflexivity. }
  split; [exact W|].
  exact (proj1 (decode_decision_table 200 W) eq_refl).
Defined.

(** C7 as stated fails: a body without [error] whose [active] is true is
    read as Running. *)
Lemma missing_error_reads_running :
  Py.get [("active", JBool true)] "error" = None
  /\ decode (mkResponse 200 (Some (JObj [("active", JBool true)]))) = Running.
Proof. split; reflexivity. Qed.

(** C7, amended. A body without [active] fails with [KeyError("active")],
    which is not the remote-error exception; a body with [active] but
    without [error] fails with [KeyError("error")] when [active] is false
    (or falsy) and is read as Running when [active] is true. *)
Theorem decode_malformed_body :
  forall (status : Z) (members : list (string * json)),
    (Py.get members "active" = None ->
     decode (mkResponse status (Some (JObj members))) = Failed (KeyError "active"))
    /\ (forall a, Py.get members "active" = Some a -> Py.get members "error" = None ->
        decode (mkResponse status (Some (JObj members)))
        = if truthy a then Running else Failed (KeyError "error")).
Proof.
  intros status members; split.
  - intros Ha. unfold decode. rewrite check_unfold, Ha. reflexivity.
  - intros a Ha He. unfold decode. rewrite check_unfold, Ha, He.
    destruct (truthy a); reflexivity.
Qed.

Lemma decode_malformed_body_witness :
  decode (mkResponse 200 (Some (JObj [("error", JBool false)]))) = Failed (KeyError "active")
  /\ decode (mkResponse 200 (Some (JObj [("active", JBool false)]))) = Failed (KeyError "error").
Proof.
  split.
  - exact (proj1 (decode_malformed_body 200 [("error", JBool false)]) eq_refl).
  - exact (proj2 (decode_malformed_body 200 [("active", JBool false)])
             (JBool false) eq_refl eq_refl).
Defined.

(** C10. The check returns [True] only for a body that has
    [percent_completed]: with [active] and [error] both false and no
    [percent_completed] it raises [KeyError]; and when [active] is true it
    returns [False] without reading the other two fields, which may be
    absent. *)
Theorem check_reads_percent_completed :
  forall (status : Z) (members : list (string * json)),
    (response_check_wait_for_completion (mkResponse status (Some (JObj members))) = Return true ->
     exists v, Py.get members "percent_completed" = Some v)
    /\ (forall a e,
         Py.get members "active" = Some a -> truthy a = false ->
         Py.get members "error" = Some e -> truthy e = false ->
         Py.get members "percent_completed" = None ->
         response_check_wait_for_completion (mkResponse status (Some (JObj members)))
         = Raise (KeyError "percent_completed"))
    /\ (forall a,
         Py.get members "active" = Some a -> truthy a = true ->
         response_check_wait_for_completion (mkResponse status (Some (JObj members)))
         = Return false).
Proof.
  intros status members. rewrite check_unfold. repeat split.
  - destruct (Py.get members "active") as [a|]; [|discriminate].
    destruct (truthy a); [discriminate|].
    destruct (Py.get members "error") as [e|]; [|discriminate].
    destruct (truthy e); [discriminate|].
    destruct (Py.get members "percent_completed") as [v|]; [|discriminate].
    intros _; exists v; reflexivity.
  - intros a e Ha Ta He Te Hp. rewrite Ha, Ta, He, Te, Hp. reflexivity.
  - intros a Ha Ta. rewrite Ha, Ta. reflexivity.
Qed.

Lemma check_reads_percent_completed_witness :
  response_check_wait_for_completion
    (mkResponse 200 (Some (JObj [("active", JBool false); ("error", JBool false)])))
  = Raise (KeyError "percent_completed")
  /\ response_check_wait_for_completion
       (mkResponse 200 (Some (JObj [("active", JBool true)])))
     = Return false.
Proof.
  split.
  - exact (proj1 (proj2 (check_reads_percent_completed 200
             [("active", JBool false); ("error", JBool false)]))
             (JBool false) (JBool false) eq_refl eq_refl eq_refl eq_refl eq_refl).
  - exact (proj2 (proj2 (check_reads_percent_completed 200 [("active", JBool true)]))
             (JBool true) eq_refl eq_refl).
Defined.

(* ===================================================================== *)
(** * Properties of the endpoint filter *)
(* ===================================================================== *)

Module UrlFacts.
Import PyStr UrlParse.

Lemma any_char_app p a b :
  any_char p (a ++ b) = (any_char p a || any_char p b)%bool.
Proof.
  induction a as [|c a IH]; cbn; [reflexivity|].
  rewrite IH. now rewrite orb_assoc.
Qed.

Lemma none_of_app p a b :
  none_of p (a ++ b) = (none_of p a && none_of p b)%bool.
Proof. unfold none_of. rewrite any_char_app. now rewrite negb_orb. Qed.

Lemma app_assoc_s (a b c : string) : (a ++ b) ++ c = a ++ (b ++ c).
Proof. induction a as [|x a IH]; cbn; [reflexivity|now rewrite IH]. Qed.

Lemma app_empty_r (a : string) : a ++ "" = a.
Proof. induction a as [|x a IH]; cbn; [reflexivity|now rewrite IH]. Qed.

(** Nothing to split when the class does not occur. *)
Lemma break_none p s : none_of p s = true -> break p s = (s, "").
Proof.
  unfold none_of. induction s as [|c s IH]; cbn; [reflexivity|].
  destruct (p c); cbn; [discriminate|].
  intros H. now rewrite (IH H).
Qed.

(** The split happens at the first occurrence. *)
Lemma break_hit p a c b :
  none_of p a = true -> p c = true -> break p (a ++ String c b) = (a, String c b).
Proof.
  unfold none_of. induction a as [|x a IH]; cbn; intros Ha Hc.
  - now rewrite Hc.
  - destruct (p x); cbn in *; [discriminate|]. now rewrite (IH Ha Hc).
Qed.

(** A text is its part before the split followed by the rest. *)
Lemma break_join p s : s = fst (break p s) ++ snd (break p s).
Proof.
  induction s as [|c s IH]; cbn; [reflexivity|].
  destruct (p c); cbn; [reflexivity|].
  destruct (break p s) as [a b]; cbn in *. now rewrite <- IH.
Qed.

Lemma break_fst_none p s : none_of p (fst (break p s)) = true.
Proof.
  unfold none_of. induction s as [|c s IH]; cbn; [reflexivity|].
  destruct (p c) eqn:E; cbn; [reflexivity|].
  destruct (break p s) as [a b]; cbn in *. now rewrite E.
Qed.

Lemma break_snd_head p s :
  snd (break p s) = "" \/ exists c r, snd (break p s) = String c r /\ p c = true.
Proof.
  induction s as [|c s IH]; cbn; [now left|].
  destruct (p c) eqn:E; cbn; [right; now exists c, s|].
  destruct (break p s) as [a b]; cbn in *. exact IH.
Qed.

(** Splitting when the class first occurs past a prefix that is free of
    it and ends with a character outside the class. *)
Lemma break_skip p a c r :
  none_of p a = true -> p c = false ->
  break p (a ++ String c r) = (a ++ String c (fst (break p r)), snd (break p r)).
Proof.
  unfold none_of. induction a as [|x a IH]; cbn; intros Ha Hc.
  - rewrite Hc. now destruct (break p r).
  - destruct (p x); cbn in *; [discriminate|].
    rewrite (IH Ha Hc). reflexivity.
Qed.

Lemma remove_chars_none p s : none_of p s = true -> remove_chars p s = s.
Proof.
  unfold none_of. induction s as [|c s IH]; cbn; [reflexivity|].
  destruct (p c); cbn; [discriminate|]. intros H. now rewrite (IH H).
Qed.

Lemma all_chars_app p a b :
  all_chars p (a ++ b) = (all_chars p a && all_chars p b)%bool.
Proof.
  induction a as [|c a IH]; cbn; [reflexivity|].
  rewrite IH. now rewrite andb_assoc.
Qed.

(** A class disjoint from the scheme characters does not occur in a
    scheme. *)
Lemma scheme_none p s :
  (forall c, scheme_char c = true -> p c = false) ->
  all_chars scheme_char s = true -> none_of p s = true.
Proof.
  intros D. unfold none_of. induction s as [|c s IH]; cbn; [reflexivity|].
  intros H. apply andb_prop in H as [Hc Hs].
  rewrite (D _ Hc). cbn. exact (IH Hs).
Qed.

Lemma colon_not_scheme c : scheme_char c = true -> is_char ":" c = false.
Proof.
  destruct c as [[] [] [] [] [] [] [] []]; vm_compute; congruence.
Qed.

Lemma split_once_opt c a o :
  none_of (is_char c) a = true ->
  split_once c (a ++ opt_part c o) = (a, opt_text o).
Proof.
  intros Ha. unfold split_once. destruct o as [s|]; cbn.
  - rewrite break_hit; [reflexivity|exact Ha|].
    unfold is_char. apply Ascii.eqb_refl.
  - rewrite app_empty_r, break_none by exact Ha. reflexivity.
Qed.

Lemma rsplit_slash_none s :
  none_of (is_char "/") s = true -> rsplit_slash s = None.
Proof.
  unfold none_of. induction s as [|c s IH]; cbn; [reflexivity|].
  destruct (is_char "/" c); cbn; [discriminate|].
  intros H. now rewrite (IH H).
Qed.

Lemma rsplit_slash_none_inv s :
  rsplit_slash s = None -> none_of (is_char "/") s = true.
Proof.
  unfold none_of. induction s as [|c s IH]; cbn; [reflexivity|].
  destruct (rsplit_slash s) as [[h t]|]; [discriminate|].
  destruct (is_char "/" c); [discriminate|]. cbn. intros _. now apply IH.
Qed.

Lemma rsplit_slash_join s h t : rsplit_slash s = Some (h, t) -> s = h ++ t.
Proof.
  revert h t. induction s as [|c s IH]; cbn; [discriminate|].
  intros h t. destruct (rsplit_slash s) as [[h' t']|].
  - intros [= <- <-]. cbn. now rewrite (IH h' t' eq_refl) at 1.
  - destruct (is_char "/" c); [|discriminate]. now intros [= <- <-].
Qed.

(** Text free of ['/'] appended to a path extends its last segment. *)
Lemma rsplit_slash_app s t :
  none_of (is_char "/") t = true ->
  rsplit_slash (s ++ t) =
  match rsplit_slash s with
  | Some (h, seg) => Some (h, seg ++ t)
  | None => None
  end.
Proof.
  intros Ht. induction s as [|c s IH]; cbn.
  - now apply rsplit_slash_none.
  - rewrite IH. destruct (rsplit_slash s) as [[h seg]|]; [reflexivity|].
    destruct (is_char "/" c); reflexivity.
Qed.

End UrlFacts.

Module UrlSplit.
Import PyStr UrlParse UrlFacts.

Lemma led_by_app p a b :
  led_by p a = true -> led_by p b = true -> led_by p (a ++ b) = true.
Proof. destruct a; cbn; auto. Qed.

Lemma led_by_opt_part p c o : p c = true -> led_by p (opt_part c o) = true.
Proof. destruct o; cbn; auto. Qed.

Lemma led_by_weaken (p q : ascii -> bool) s :
  (forall c, p c = true -> q c = true) -> led_by p s = true -> led_by q s = true.
Proof. destruct s; cbn; auto. Qed.

Lemma none_of_weaken (p q : ascii -> bool) s :
  (forall c, q c = true -> p c = true) -> none_of p s = true -> none_of q s = true.
Proof.
  intros W. unfold none_of. induction s as [|c s IH]; cbn; [reflexivity|].
  destruct (p c) eqn:Ep; cbn; [discriminate|].
  intros H. destruct (q c) eqn:Eq; cbn; [|exact (IH H)].
  rewrite (W _ Eq) in Ep. discriminate.
Qed.

Lemma none_of_opt_part p c o :
  p c = false -> none_of p (opt_text o) = true -> none_of p (opt_part c o) = true.
Proof.
  destruct o as [s|]; cbn; [|reflexivity].
  unfold none_of; cbn. intros ->. auto.
Qed.

(** Splitting at a class right where the free prefix ends. *)
Lemma break_led p a r :
  none_of p a = true -> led_by p r = true -> break p (a ++ r) = (a, r).
Proof.
  intros Ha Hr. destruct r as [|c r]; cbn in Hr.
  - rewrite app_empty_r. now apply break_none.
  - now apply break_hit.
Qed.

Lemma all_chars_mid p a c b :
  p c = false -> all_chars p (a ++ String c b) = false.
Proof.
  intros Hc. rewrite all_chars_app. cbn. rewrite Hc.
  now rewrite andb_false_r.
Qed.

Lemma stop_not_scheme c : stop_char c = true -> scheme_char c = false.
Proof. destruct c as [[] [] [] [] [] [] [] []]; vm_compute; congruence. Qed.

Lemma stop_not_colon c : stop_char c = true -> is_char ":" c = false.
Proof. destruct c as [[] [] [] [] [] [] [] []]; vm_compute; congruence. Qed.

(** With an origin, the scheme is split off at the first colon. *)
Lemma split_scheme_absolute sch rest :
  String.eqb sch "" = false -> all_chars scheme_char sch = true ->
  split_scheme (sch ++ String ":" rest) = (lower sch, rest).
Proof.
  intros Hne Hall. unfold split_scheme.
  rewrite break_hit.
  - now rewrite Hne, Hall.
  - apply scheme_none; [exact colon_not_scheme|exact Hall].
  - reflexivity.
Qed.

(** Without an origin, no scheme is found when the first path segment
    has no colon. *)
Lemma split_scheme_relative seg r :
  none_of (is_char ":") seg = true -> led_by stop_char r = true ->
  split_scheme (seg ++ r) = ("", seg ++ r).
Proof.
  intros Hseg Hr. unfold split_scheme. destruct r as [|c r]; cbn in Hr.
  - rewrite app_empty_r, break_none by exact Hseg. reflexivity.
  - rewrite break_skip; [|exact Hseg|now apply stop_not_colon].
    destruct (snd (break (is_char ":") r)); [reflexivity|].
    rewrite all_chars_mid by now apply stop_not_scheme.
    now rewrite andb_false_r.
Qed.

Lemma split_netloc_absolute nl r :
  none_of netloc_delim nl = true -> led_by netloc_delim r = true ->
  split_netloc (String "/" (String "/" (nl ++ r))) = (nl, r).
Proof. intros Hn Hr. unfold split_netloc. cbn. now apply break_led. Qed.

Lemma starts_with_slash_inv s :
  starts_with "/" s = true -> exists r, s = String "/" r.
Proof.
  destruct s as [|c s]; cbn; [discriminate|].
  unfold is_char. destruct (Ascii.eqb_spec "/" c) as [<-|]; [|discriminate].
  now exists s.
Qed.

Lemma split_netloc_relative p r :
  starts_with "//" p = false ->
  led_by (fun c => negb (is_char "/" c)) r = true ->
  split_netloc (p ++ r) = ("", p ++ r).
Proof.
  intros Hp Hr. unfold split_netloc.
  assert (E : starts_with "//" (p ++ r) = false); [|now rewrite E].
  destruct p as [|c1 [|c2 p]]; cbn in *.
  - destruct r as [|c [|c' r]]; cbn in *; try reflexivity.
    + apply negb_true_iff in Hr. now rewrite Hr.
    + apply negb_true_iff in Hr. now rewrite Hr.
  - destruct (is_char "/" c1); [|reflexivity]. cbn.
    destruct r as [|c r]; cbn in *; [reflexivity|].
    apply negb_true_iff in Hr. now rewrite Hr.
  - exact Hp.
Qed.

(** The parameters are split off the last segment. *)
Lemma splitparams_some p prm :
  none_of (is_char ";") (last_segment p) = true ->
  none_of (is_char "/") prm = true ->
  splitparams (p ++ String ";" prm) = (p, prm).
Proof.
  intros Hseg Hprm. unfold splitparams, last_segment in *.
  rewrite rsplit_slash_app.
  2:{ unfold none_of in *. cbn [any_char].
      change (is_char "/" ";") with false. exact Hprm. }
  destruct (rsplit_slash p) as [[h seg]|] eqn:E.
  - rewrite break_hit by (exact Hseg || reflexivity).
    now rewrite (rsplit_slash_join _ E).
  - rewrite break_hit by (exact Hseg || reflexivity). reflexivity.
Qed.

Lemma splitparams_none p :
  none_of (is_char ";") (last_segment p) = true ->
  splitparams p = (p, "").
Proof.
  intros Hseg. unfold splitparams, last_segment in *.
  destruct (rsplit_slash p) as [[h seg]|] eqn:E;
    rewrite break_none by exact Hseg; reflexivity.
Qed.

End UrlSplit.

Module UrlRoundTrip.
Import PyStr UrlParse UrlFacts UrlSplit.

(** [urlsplit] in terms of its stages. *)
Lemma urlsplit_stages url0 :
  urlsplit url0 =
  let url := remove_chars unsafe_char url0 in
  let s := split_scheme url in
  let n := split_netloc (snd s) in
  if bad_brackets (fst n) then Raise (ValueError "Invalid IPv6 URL")
  else
    let f := split_once "#" (snd n) in
    let q := split_once "?" (fst f) in
    Return (fst s, fst n, fst q, snd q, snd f).
Proof.
  unfold urlsplit. cbv zeta.
  destruct (split_scheme _) as [sch u1]; cbn [fst snd].
  destruct (split_netloc u1) as [nl u2]; cbn [fst snd].
  destruct (bad_brackets nl); [reflexivity|].
  destruct (split_once "#" u2) as [u3 fr]; cbn [fst snd].
  destruct (split_once "?" u3) as [u4 qr]; reflexivity.
Qed.

Lemma tail_led prm q f :
  led_by (fun c => (is_char ";" c || is_char "?" c || is_char "#" c)%bool)
    (opt_part ";" prm ++ opt_part "?" q ++ opt_part "#" f) = true.
Proof. destruct prm, q, f; reflexivity. Qed.

Lemma tail_char_not_slash c :
  (is_char ";" c || is_char "?" c || is_char "#" c)%bool = true ->
  negb (is_char "/" c) = true.
Proof. destruct c as [[] [] [] [] [] [] [] []]; vm_compute; congruence. Qed.

(** The three delimited parts after the path come back as they went in. *)
Lemma split_tail p prm q f :
  none_of (is_char "?") p = true ->
  none_of (is_char "#") p = true ->
  none_of netloc_delim (opt_text prm) = true ->
  none_of (is_char "#") (opt_text q) = true ->
  let url := p ++ opt_part ";" prm ++ opt_part "?" q ++ opt_part "#" f in
  split_once "#" url = (p ++ opt_part ";" prm ++ opt_part "?" q, opt_text f)
  /\ split_once "?" (p ++ opt_part ";" prm ++ opt_part "?" q)
     = (p ++ opt_part ";" prm, opt_text q).
Proof.
  intros Hpq Hph Hprm Hq url. subst url.
  assert (Pq : none_of (is_char "?") (opt_part ";" prm) = true).
  { apply none_of_opt_part; [reflexivity|].
    revert Hprm. apply none_of_weaken. intros c Hc. unfold netloc_delim.
    rewrite Hc. now rewrite orb_true_r. }
  assert (Ph : none_of (is_char "#") (opt_part ";" prm) = true).
  { apply none_of_opt_part; [reflexivity|].
    revert Hprm. apply none_of_weaken. intros c Hc. unfold netloc_delim.
    rewrite Hc. now rewrite orb_true_r. }
  assert (Qh : none_of (is_char "#") (opt_part "?" q) = true).
  { apply none_of_opt_part; [reflexivity|exact Hq]. }
  split.
  - replace (p ++ opt_part ";" prm ++ opt_part "?" q ++ opt_part "#" f)
      with ((p ++ opt_part ";" prm ++ opt_part "?" q) ++ opt_part "#" f)
      by now rewrite !app_assoc_s.
    apply split_once_opt. rewrite !none_of_app, Hph, Ph, Qh. reflexivity.
  - replace (p ++ opt_part ";" prm ++ opt_part "?" q)
      with ((p ++ opt_part ";" prm) ++ opt_part "?" q)
      by now rewrite !app_assoc_s.
    apply split_once_opt. rewrite !none_of_app, Hpq, Pq. reflexivity.
Qed.

Lemma params_stage sch p prm :
  none_of (is_char ";") (last_segment p) = true ->
  none_of netloc_delim (opt_text prm) = true ->
  match prm with Some _ => in_uses_params sch | None => true end = true ->
  (if (in_uses_params sch && any_char (is_char ";") (p ++ opt_part ";" prm))%bool
   then splitparams (p ++ opt_part ";" prm) else (p ++ opt_part ";" prm, ""))
  = (p, opt_text prm).
Proof.
  intros Hseg Hprm Huses. destruct prm as [x|]; cbn [opt_part opt_text] in *.
  - rewrite Huses, any_char_app. cbn [any_char].
    change (is_char ";" ";") with true. rewrite orb_true_r. cbn [andb orb].
    apply splitparams_some; [exact Hseg|].
    revert Hprm. apply none_of_weaken. intros c Hc. unfold netloc_delim.
    now rewrite Hc.
  - rewrite app_empty_r.
    destruct (in_uses_params sch && any_char (is_char ";") p)%bool; [|reflexivity].
    now apply splitparams_none.
Qed.

(** Parsing the text of a valid URL gives its components back. *)
Lemma urlparse_unparse (u : url_parts) :
  valid_url u = true -> urlparse (unparse u) = Return (expected u).
Proof.
  destruct u as [o p prm q f]. unfold valid_url, expected, unparse.
  cbn [u_origin u_path u_params u_query u_fragment].
  intros V. apply andb_prop in V as [V Vo].
  apply andb_prop in V as [V Vq]. apply andb_prop in V as [V Vprm].
  apply andb_prop in V as [V Vseg]. apply andb_prop in V as [V Vph].
  apply andb_prop in V as [V Vpq]. apply andb_prop in V as [_ Vsafe].
  destruct (split_tail p prm q f Vpq Vph Vprm Vq) as [Ef Eq].
  unfold urlparse. rewrite urlsplit_stages. cbv zeta.
  rewrite remove_chars_none by exact Vsafe.
  destruct o as [[sch nl]|]; cbn [origin_text].
  - apply andb_prop in Vo as [Vo Vuses]. apply andb_prop in Vo as [Vo Vlead].
    apply andb_prop in Vo as [Vo Vbr]. apply andb_prop in Vo as [Vo Vnl].
    apply andb_prop in Vo as [Vne Vall].
    apply negb_true_iff in Vne, Vbr.
    replace ((sch ++ "://" ++ nl) ++ p ++ opt_part ";" prm ++ opt_part "?" q ++ opt_part "#" f)
      with (sch ++ String ":" (String "/" (String "/"
             (nl ++ p ++ opt_part ";" prm ++ opt_part "?" q ++ opt_part "#" f))))
      by (rewrite !app_assoc_s; reflexivity).
    rewrite split_scheme_absolute; [|exact Vne|exact Vall]. cbn [fst snd].
    rewrite split_netloc_absolute; [|exact Vnl|].
    + cbn [fst snd]. rewrite Vbr, Ef. cbn [fst snd]. rewrite Eq. cbn [fst snd Py.bind].
      rewrite params_stage; [reflexivity|exact Vseg|exact Vprm|exact Vuses].
    + apply orb_prop in Vlead as [Vlead|Vlead].
      * apply starts_with_slash_inv in Vlead as [r ->]. reflexivity.
      * apply andb_prop in Vlead as [Vp Vnone].
        apply String.eqb_eq in Vp. subst p. destruct prm; [discriminate|].
        destruct q, f; reflexivity.
  - apply andb_prop in Vo as [Vstart Vcolon]. apply negb_true_iff in Vstart.
    set (url := p ++ opt_part ";" prm ++ opt_part "?" q ++ opt_part "#" f) in *.
    assert (Es : split_scheme url = ("", url)).
    { subst url. rewrite (break_join (is_char "/") p) at 1 2.
      rewrite app_assoc_s. apply split_scheme_relative; [exact Vcolon|].
      apply led_by_app.
      - destruct (break_snd_head (is_char "/") p) as [->|(c & r & -> & Hc)];
          [reflexivity|]. cbn. unfold stop_char. now rewrite Hc.
      - eapply led_by_weaken; [|apply tail_led].
        intros c Hc. cbv beta in Hc. unfold stop_char.
        destruct (is_char "/" c), (is_char ";" c), (is_char "?" c), (is_char "#" c);
          cbn in *; congruence. }
    cbn [append]. fold url. rewrite Es. cbn [fst snd].
    assert (En : split_netloc url = ("", url)).
    { subst url. apply split_netloc_relative; [exact Vstart|].
      eapply led_by_weaken; [|apply tail_led].
      exact tail_char_not_slash. }
    rewrite En. cbn [fst snd]. change (bad_brackets "") with false. cbv iota.
    rewrite Ef. cbn [fst snd]. rewrite Eq. cbn [fst snd Py.bind].
    rewrite params_stage; [reflexivity|exact Vseg|exact Vprm|].
    destruct prm; reflexivity.
Qed.

End UrlRoundTrip.

(** C9. For a trigger response whose body carries a [status_check] URL,
    absolute ([scheme://netloc] followed by the path) or relative (the path
    alone), with optional parameters, query and fragment, the endpoint that
    [response_filter_data_refresh] keeps is exactly the path component:
    scheme, host, parameters, query and fragment are dropped. *)
Theorem response_filter_keeps_path :
  forall (status : Z) (members : list (string * json)) (u : url_parts),
    valid_url u = true ->
    Py.get members "status_check" = Some (JStr (unparse u)) ->
    response_filter_data_refresh (mkResponse status (Some (JObj members)))
    = Return (Str (u_path u)).
Proof.
  intros status members u V G.
  unfold response_filter_data_refresh, response_json, subscript. cbn.
  rewrite G. cbn.
  rewrite (UrlRoundTrip.urlparse_unparse u V). reflexivity.
Qed.

Lemma response_filter_keeps_path_witness :
  response_filter_data_refresh
    (mkResponse 202
       (Some (JObj [("status_check", JStr "https://ingest.example:8001/task/abc;v=1?verbose=1#top")])))
  = Return (Str "/task/abc")
  /\ response_filter_data_refresh
       (mkResponse 202 (Some (JObj [("status_check", JStr "/task/abc?verbose=1")])))
     = Return (Str "/task/abc").
Proof.
  split.
  - exact (@response_filter_keeps_path 202
             [("status_check", JStr "https://ingest.example:8001/task/abc;v=1?verbose=1#top")]
             (mkUrlParts (Some ("https", "ingest.example:8001")) "/task/abc"
                (Some "v=1") (Some "verbose=1") (Some "top"))
             eq_refl eq_refl).
  - exact (@response_filter_keeps_path 202
             [("status_check", JStr "/task/abc?verbose=1")]
             (mkUrlParts None "/task/abc" None (Some "verbose=1") None)
             eq_refl eq_refl).
Defined.

(* ===================================================================== *)
(** * Runs of a task group *)
(* ===================================================================== *)

Section RunInvariants.

Variable g : TaskGroup.

Lemma upd_same {A : Type} (f : string -> A) k v : upd f k v k = v.
Proof. unfold upd. now rewrite String.eqb_refl. Qed.

Lemma upd_other {A : Type} (f : string -> A) k v k' : k <> k' -> upd f k v k' = f k'.
Proof. unfold upd. intros H. apply String.eqb_neq in H. now rewrite H. Qed.

Lemma find_task_id id t : find_task g id = Some t -> task_id t = id.
Proof.
  unfold find_task. intros H. apply find_some in H as [_ H].
  now apply String.eqb_eq.
Qed.

Lemma upstream_of_in u v : In (u, v) (deps g) -> In u (upstream_of g v).
Proof.
  intros H. unfold upstream_of. apply in_map_iff. exists (u, v). split; [reflexivity|].
  apply filter_In. split; [exact H|]. apply String.eqb_refl.
Qed.

Lemma all_success_in st v u :
  all_success st (upstream_of g v) = true -> In (u, v) (deps g) -> ti st u = Success.
Proof.
  intros H Hin. unfold all_success in H. rewrite forallb_forall in H.
  specialize (H u (upstream_of_in _ _ Hin)). now destruct (ti st u).
Qed.

Lemma runnable_cases st id :
  runnable g st id = true ->
  ti st id <> Success /\ is_failed (ti st id) = false
  /\ (begun (ti st id) = true \/ all_success st (upstream_of g id) = true).
Proof.
  unfold runnable. destruct (ti st id); intros H; try discriminate;
    (split; [discriminate|split; [reflexivity|]]); auto.
Qed.

Lemma after_verdict_sleeping m v :
  after_verdict m v = Sleeping -> m = PokeMode.
Proof. destruct v, m; cbn; congruence. Qed.

Lemma after_verdict_begun m v : begun (after_verdict m v) = true.
Proof. destruct v, m; reflexivity. Qed.

Lemma exec_summary st a st' : exec g st a = Some st' -> step_summary g st st'.
Proof.
  destruct a as [d|id obs|id rep|id rep|id]; cbn [exec].
  - destruct (0 <=? d); [|discriminate]. intros [= <-]. now apply step_idle.
  - destruct (find_task g id) as [[s|o|s]|] eqn:F; try discriminate.
    destruct (runnable g st id) eqn:R; [|discriminate].
    apply runnable_cases in R as (R1 & R2 & R3).
    pose proof (find_task_id _ F) as Hid. cbn in Hid.
    intros [= <-]. cbn [ti log].
    eapply step_task with (evs := [GatePoked id (gate_poke s obs)]);
      try eassumption; try reflexivity.
    + auto.
    + now rewrite after_verdict_begun.
    + intros _. apply after_verdict_begun.
    + destruct (gate_poke s obs) eqn:P; cbn.
      * intros _. cbn. rewrite Hid. now left.
      * destruct (gate_mode s); discriminate.
    + intros e [<-|[]]. reflexivity.
    + intros v d [H|[]]. discriminate.
    + intros w ep [H|[]]. discriminate.
    + intros H. apply after_verdict_sleeping in H. cbn. now rewrite H.
  - destruct (find_task g id) as [[s|o|s]|] eqn:F; try discriminate.
    destruct (ti st id) eqn:T; try discriminate.
    destruct (all_success st (upstream_of g id)) eqn:A; [|discriminate].
    pose proof (find_task_id _ F) as Hid. cbn in Hid.
    intros H.
    assert (exists X, ti st' = upd (ti st) id X
                      /\ log st' = TriggerCall id (op_data o) :: log st
                      /\ begun X = true /\ X <> Sleeping)
      as (X & Eti & Elog & BX & NSl).
    { destruct (run_operator o rep); injection H as <-; cbn;
        eexists; repeat split; discriminate || reflexivity. }
    eapply step_task with (X := X) (evs := [TriggerCall id (op_data o)]).
    + exact F.
    + exact Eti.
    + exact Elog.
    + rewrite T; discriminate.
    + rewrite T; reflexivity.
    + auto.
    + rewrite BX; discriminate.
    + intros _. exact BX.
    + intros _. cbn. rewrite Hid. now left.
    + intros e' [<-|[]]; reflexivity.
    + intros v' d [[= <- <-]|[]]. split; [reflexivity|split; [exact A|]]. now exists o.
    + intros w ep [H'|[]]; discriminate.
    + intros E; contradiction.
  - destruct (find_task g id) as [[s|o|s]|] eqn:F; try discriminate.
    destruct (runnable g st id) eqn:R; [|discriminate].
    apply runnable_cases in R as (R1 & R2 & R3).
    pose proof (find_task_id _ F) as Hid. cbn in Hid.
    intros [= <-]. cbn [ti log].
    eapply step_task with
      (evs := [PollResult id (poll_outcome (http_sensor_poke s rep));
               PollCall id (render st (hs_endpoint s))]);
      try eassumption; try reflexivity.
    + auto.
    + now rewrite after_verdict_begun.
    + intros _. apply after_verdict_begun.
    + unfold sensor_try. destruct (http_sensor_poke s rep) as [[|]|e]; cbn.
      * intros _. cbn. rewrite Hid. now left.
      * destruct (hs_timeout s <? now st - first_start st id);
          [discriminate|destruct (hs_mode s); discriminate].
      * discriminate.
    + intros e [<-|[<-|[]]]; reflexivity.
    + intros v d [H|[H|[]]]; discriminate.
    + intros w ep _. now exists s.
    + intros H. apply after_verdict_sleeping in H. cbn. now rewrite H.
  - destruct (find_task g id) as [t|] eqn:F; [|discriminate].
    destruct (ti st id) eqn:T; try discriminate.
    destruct (existsb _ _); [|discriminate]. intros [= <-]. cbn [ti log].
    eapply step_task with (X := UpstreamFailed) (evs := []).
    + exact F.
    + reflexivity.
    + reflexivity.
    + rewrite T; discriminate.
    + rewrite T; reflexivity.
    + discriminate.
    + reflexivity.
    + rewrite T. discriminate.
    + discriminate.
    + intros e [].
    + intros v d [].
    + intros w ep [].
    + discriminate.
Qed.

(** A property that holds at the start and is kept by every move holds
    in every state that a run reaches. *)
Lemma run_preserves (P : run_state -> Prop) :
  (forall st a st', P st -> exec g st a = Some st' -> P st') ->
  forall l st st', P st -> run g st l = Some st' -> P st'.
Proof.
  intros Hstep. induction l as [|a l IH]; cbn; intros st st' HP H.
  - now injection H as <-.
  - destruct (exec g st a) as [st1|] eqn:E; [|discriminate].
    eapply IH; [|exact H]. eapply Hstep; eassumption.
Qed.

Lemma reachable_ind (P : run_state -> Prop) (t0 : Z) :
  P (initial t0) ->
  (forall st a st', P st -> exec g st a = Some st' -> P st') ->
  forall st, reachable g t0 st -> P st.
Proof.
  intros H0 Hstep st [l Hl]. eapply run_preserves; eassumption.
Qed.

End RunInvariants.

Section RunOrder.

Variable g : TaskGroup.

(** A task that succeeded or failed keeps its state. *)
Lemma exec_keeps_final st a st' id :
  exec g st a = Some st' ->
  ti st id = Success \/ is_failed (ti st id) = true ->
  ti st' id = ti st id.
Proof.
  intros E H. destruct (exec_summary _ _ _ E) as [-> _|id' t X evs _ -> _ NS NF].
  - reflexivity.
  - destruct (String.eqb_spec id' id) as [->|N].
    + destruct H as [H|H]; congruence.
    + now apply upd_other.
Qed.

Lemma run_keeps_final l st st' id :
  run g st l = Some st' ->
  ti st id = Success \/ is_failed (ti st id) = true ->
  ti st' id = ti st id.
Proof.
  revert st. induction l as [|a l IH]; cbn; intros st R H.
  - now injection R as <-.
  - destruct (exec g st a) as [st1|] eqn:E; [|discriminate].
    pose proof (exec_keeps_final _ _ id E H) as K.
    rewrite <- K. apply IH; [exact R|]. now rewrite K.
Qed.

(** The log only grows. *)
Lemma exec_log_grows st a st' :
  exec g st a = Some st' -> exists evs, log st' = (evs ++ log st)%list.
Proof.
  intros E. destruct (exec_summary _ _ _ E) as [_ ->|id' t X evs _ _ ->].
  - now exists [].
  - now exists evs.
Qed.

Lemma run_log_grows l st st' :
  run g st l = Some st' -> exists evs, log st' = (evs ++ log st)%list.
Proof.
  revert st. induction l as [|a l IH]; cbn; intros st R.
  - injection R as <-. now exists [].
  - destruct (exec g st a) as [st1|] eqn:E; [|discriminate].
    destruct (IH _ R) as [e2 ->]. destruct (exec_log_grows _ _ E) as [e1 ->].
    exists (e2 ++ e1)%list. now rewrite app_assoc.
Qed.

Lemma run_inv_initial t0 : run_inv g (initial t0).
Proof.
  constructor; cbn.
  - intros; discriminate.
  - intros; discriminate.
  - intros e [].
  - intros [|? ?] pre v d H; discriminate.
  - intros ? ? [].
  - intros ? ? [].
  - intros; discriminate.
Qed.

Lemma begun_not_final_upstream st id u :
  run_inv g st -> In (u, id) (deps g) ->
  begun (ti st id) = true \/ all_success st (upstream_of g id) = true ->
  ti st u = Success.
Proof.
  intros I Hin [B|A].
  - eapply inv_upstream; eassumption.
  - eapply all_success_in; eassumption.
Qed.

Lemma run_inv_step st a st' : run_inv g st -> exec g st a = Some st' -> run_inv g st'.
Proof.
  intros I E.
  destruct (exec_summary _ _ _ E)
    as [Eti Elog|id t X evs F Eti Elog NS NF HB HNB HBB HS HE HT HP HSl].
  { destruct I; constructor; rewrite ?Eti, ?Elog; assumption. }
  assert (Hup : forall u, In (u, id) (deps g) -> begun X = true -> ti st u = Success).
  { intros u Hin B. eapply begun_not_final_upstream; eauto. }
  assert (Hne : forall u, ti st u = Success -> id <> u).
  { intros u Hu ->. contradiction. }
  constructor; rewrite ?Eti, ?Elog.
  - (* upstream tasks succeeded *)
    intros u v Hin B.
    destruct (String.eqb_spec id v) as [<-|Nv].
    + rewrite upd_same in B. pose proof (Hup u Hin B) as Su.
      rewrite upd_other; [exact Su|now apply Hne].
    + rewrite upd_other in B by exact Nv.
      pose proof (inv_upstream I _ _ Hin B) as Su.
      rewrite upd_other; [exact Su|now apply Hne].
  - (* a success is in the log *)
    intros id' t' F' S'. apply in_or_app.
    destruct (String.eqb_spec id id') as [<-|N].
    + rewrite upd_same in S'. left. rewrite F in F'. injection F' as <-. now apply HS.
    + rewrite upd_other in S' by exact N. right. eapply inv_success; eassumption.
  - (* logged tasks have begun *)
    intros e Hin. apply in_app_or in Hin as [Hin|Hin].
    + rewrite (HE _ Hin), upd_same.
      destruct (begun X) eqn:B; [reflexivity|]. rewrite (HNB eq_refl) in Hin. destruct Hin.
    + pose proof (inv_begun I _ Hin) as B.
      destruct (String.eqb_spec id (event_task e)) as [Eq|N].
      * rewrite <- Eq, upd_same. apply HBB. now rewrite Eq.
      * now rewrite upd_other.
  - (* a trigger follows the success of its upstream tasks *)
    intros post pre v d Hlog u t' Hin F'.
    apply app_eq_app in Hlog as [l [[E1 E2]|[E1 E2]]].
    + destruct l as [|y l].
      * cbn in E2. eapply (inv_trigger_order I) with (post := []); eauto.
      * cbn in E2. injection E2 as <- ->.
        assert (Hx : In (TriggerCall v d) evs).
        { rewrite E1. apply in_or_app. right. now left. }
        destruct (HT _ _ Hx) as (Eevs & A & _).
        pose proof (HE _ Hx) as Ev. cbn in Ev. subst v.
        rewrite Eevs in E1. destruct post as [|p post].
        -- cbn in E1. injection E1 as <-. cbn.
           eapply inv_success; [exact I|exact F'|].
           eapply all_success_in; eassumption.
        -- destruct post; discriminate.
    + eapply (inv_trigger_order I); eauto.
  - (* a trigger call carries the data of its operator *)
    intros v d Hin. apply in_app_or in Hin as [Hin|Hin].
    + destruct (HT _ _ Hin) as (_ & _ & o & -> & ->).
      pose proof (HE _ Hin) as Ev. cbn in Ev. subst v. now exists o.
    + eapply inv_trigger_data; eassumption.
  - (* only waiters poll *)
    intros w ep Hin. apply in_app_or in Hin as [Hin|Hin].
    + destruct (HP _ _ Hin) as [s ->].
      pose proof (HE _ Hin) as Ev. cbn in Ev. subst w. now exists s.
    + eapply inv_poll_task; eassumption.
  - (* only a sensor in poke mode sleeps *)
    intros id' S'. destruct (String.eqb_spec id id') as [<-|N].
    + rewrite upd_same in S'. exists t. split; [exact F|now apply HSl].
    + rewrite upd_other in S' by exact N. eapply inv_sleeping; eassumption.
Qed.

Lemma reachable_inv t0 st : reachable g t0 st -> run_inv g st.
Proof.
  apply reachable_ind; [apply run_inv_initial|].
  intros s a s' I E. eapply run_inv_step; eassumption.
Qed.

End RunOrder.

(* ===================================================================== *)
(** * The generated pipeline *)
(* ===================================================================== *)

Section Pipeline.

Variable dr : DataRefresh.
Variable ids : list string.
Variable env : Environment.
Variable drawn : nat.

Let g : TaskGroup := pipeline dr ids env drawn.

(** The dependencies that [trigger >> waiter] and [chain] set. *)
Lemma pipeline_deps :
  deps g =
  [ (trigger_id "ingest_upstream", wait_id "ingest_upstream");
    (trigger_id "point_alias", wait_id "point_alias");
    (gate_id, trigger_id "ingest_upstream");
    (wait_id "ingest_upstream", trigger_id "point_alias") ].
Proof. reflexivity. Qed.

Lemma pipeline_task_ids :
  map task_id (tasks g) =
  [ gate_id; trigger_id "ingest_upstream"; wait_id "ingest_upstream";
    trigger_id "point_alias"; wait_id "point_alias" ].
Proof. reflexivity. Qed.

(** The tasks of the group, by kind. *)
Lemma pipeline_tasks :
  exists gate o1 w1 o2 w2,
    tasks g = [GateTask gate; TriggerTask o1; WaitTask w1; TriggerTask o2; WaitTask w2]
    /\ find_task g gate_id = Some (GateTask gate)
    /\ find_task g (trigger_id "ingest_upstream") = Some (TriggerTask o1)
    /\ find_task g (wait_id "ingest_upstream") = Some (WaitTask w1)
    /\ find_task g (trigger_id "point_alias") = Some (TriggerTask o2)
    /\ find_task g (wait_id "point_alias") = Some (WaitTask w2)
    /\ hs_task_id w1 = wait_id "ingest_upstream"
    /\ gate_task_id gate = gate_id.
Proof. do 5 eexists. repeat split. Qed.

End Pipeline.

Lemma pipeline_find (g : TaskGroup) (id : string) (t : task) :
  find_task g id = Some t -> In t (tasks g).
Proof. unfold find_task. intros H. now apply find_some in H. Qed.

(** C2. In every run of the pipeline that the factory builds, a call of
    [trigger_point_alias] is preceded in the log by the Succeeded outcome of
    [wait_for_ingest_upstream], and a call of [trigger_ingest_upstream] by a
    clear check of the gate; more generally a trigger is called only after
    every task upstream of it has left its success event. *)
Theorem actions_run_in_order :
  forall (dr : DataRefresh) (ids : list string) (env : Environment) (drawn : nat)
         (t0 : Z) (st : run_state),
    reachable (pipeline dr ids env drawn) t0 st ->
    (forall post pre d,
        log st = (post ++ TriggerCall (trigger_id "point_alias") d :: pre)%list ->
        In (PollResult (wait_id "ingest_upstream") Succeeded) pre)
    /\ (forall post pre d,
        log st = (post ++ TriggerCall (trigger_id "ingest_upstream") d :: pre)%list ->
        In (GatePoked gate_id true) pre)
    /\ (forall post pre v d u t,
        log st = (post ++ TriggerCall v d :: pre)%list ->
        In (u, v) (deps (pipeline dr ids env drawn)) ->
        find_task (pipeline dr ids env drawn) u = Some t ->
        In (success_event t) pre).
Proof.
  intros dr ids env drawn t0 st R.
  pose proof (reachable_inv R) as I.
  assert (G : forall post pre v d u t,
             log st = (post ++ TriggerCall v d :: pre)%list ->
             In (u, v) (deps (pipeline dr ids env drawn)) ->
             find_task (pipeline dr ids env drawn) u = Some t ->
             In (success_event t) pre).
  { intros. eapply (inv_trigger_order I); eassumption. }
  destruct (pipeline_tasks dr ids env drawn)
    as (gate & o1 & w1 & o2 & w2 & _ & Fg & _ & Fw1 & _ & _ & Ew1 & Eg).
  repeat split.
  - intros post pre d L.
    pose proof (G post pre _ d (wait_id "ingest_upstream") (WaitTask w1) L) as H.
    rewrite pipeline_deps in H.
    specialize (H (or_intror (or_intror (or_intror (or_introl eq_refl)))) Fw1).
    cbn [success_event] in H. now rewrite Ew1 in H.
  - intros post pre d L.
    pose proof (G post pre _ d gate_id (GateTask gate) L) as H.
    rewrite pipeline_deps in H.
    specialize (H (or_intror (or_intror (or_introl eq_refl))) Fg).
    cbn [success_event] in H. now rewrite Eg in H.
  - exact G.
Qed.

Lemma sample_full_run_reachable :
  reachable Sample.group 0 (Sample.state_after Sample.full_run).
Proof. exists Sample.full_run. vm_compute. reflexivity. Qed.

Lemma actions_run_in_order_witness :
  reachable Sample.group 0 (Sample.state_after Sample.full_run)
  /\ In (PollResult (wait_id "ingest_upstream") Succeeded)
       (skipn 7 (log (Sample.state_after Sample.full_run))).
Proof.
  split; [exact sample_full_run_reachable|].
  assert (L : log (Sample.state_after Sample.full_run)
              = (firstn 6 (log (Sample.state_after Sample.full_run))
                 ++ TriggerCall (trigger_id "point_alias")
                      [("alias", JStr "image"); ("model", JStr "image");
                       ("action", JStr "POINT_ALIAS"); ("index_suffix", JStr "u")]
                 :: skipn 7 (log (Sample.state_after Sample.full_run)))%list).
  { vm_compute. reflexivity. }
  exact (proj1 (@actions_run_in_order Sample.dr Sample.siblings Sample.env 0 0
                  (Sample.state_after Sample.full_run) sample_full_run_reachable)
           _ _ _ L).
Defined.

(* ===================================================================== *)
(** * The correlation token *)
(* ===================================================================== *)

Lemma pipeline_trigger_token dr ids env drawn o :
  In (TriggerTask o) (tasks (pipeline dr ids env drawn)) ->
  token_of (op_data o) = Some (JStr (uuid4 env drawn)).
Proof.
  intros H. cbn in H.
  destruct H as [H|[H|[H|[H|[H|[]]]]]]; try discriminate;
    injection H as <-; reflexivity.
Qed.

(** C4, as the code has it. [index_suffix] is drawn once, by the call of the
    factory that builds the graph, and written into the POST data of both
    triggers. So every trigger call of every run of the built graph
    carries that one token: the calls of one run agree, and so do the calls
    of two different runs, whenever they start. *)
Theorem runs_share_build_token :
  forall (dr : DataRefresh) (ids : list string) (env : Environment) (drawn : nat)
         (t0 t0' : Z) (st st' : run_state) (v v' : string) (d d' : Py.dict json),
    reachable (pipeline dr ids env drawn) t0 st ->
    reachable (pipeline dr ids env drawn) t0' st' ->
    In (TriggerCall v d) (log st) ->
    In (TriggerCall v' d') (log st') ->
    token_of d = Some (JStr (uuid4 env drawn))
    /\ token_of d' = Some (JStr (uuid4 env drawn))
    /\ group_token (pipeline dr ids env drawn) = Some (JStr (uuid4 env drawn))
    /\ snd (create_data_refresh_task_group dr ids env drawn) = S drawn.
Proof.
  intros dr ids env drawn t0 t0' st st' v v' d d' R R' Hin Hin'.
  assert (Tok : forall t1 st1 v1 d1,
             reachable (pipeline dr ids env drawn) t1 st1 ->
             In (TriggerCall v1 d1) (log st1) ->
             token_of d1 = Some (JStr (uuid4 env drawn))).
  { intros t1 st1 v1 d1 R1 H1.
    destruct (inv_trigger_data (reachable_inv R1) _ _ H1) as (o & F & ->).
    apply (@pipeline_trigger_token dr ids env drawn). eapply pipeline_find. exact F. }
  repeat split.
  - exact (Tok _ _ _ _ R Hin).
  - exact (Tok _ _ _ _ R' Hin').
Qed.

Lemma runs_share_build_token_witness :
  (now (state_from 0 Sample.full_run) = 180
   /\ In (TriggerCall (trigger_id "ingest_upstream")
            [("model", JStr "image"); ("action", JStr "INGEST_UPSTREAM");
             ("index_suffix", JStr "u")])
         (log (state_from 0 Sample.full_run)))
  /\ (now (state_from 604800 Sample.full_run) = 604980
      /\ In (TriggerCall (trigger_id "point_alias")
               [("alias", JStr "image"); ("model", JStr "image");
                ("action", JStr "POINT_ALIAS"); ("index_suffix", JStr "u")])
            (log (state_from 604800 Sample.full_run)))
  /\ token_of [("model", JStr "image"); ("action", JStr "INGEST_UPSTREAM");
               ("index_suffix", JStr "u")]
     = Some (JStr "u")
  /\ token_of [("alias", JStr "image"); ("model", JStr "image");
               ("action", JStr "POINT_ALIAS"); ("index_suffix", JStr "u")]
     = Some (JStr "u")
  /\ group_token Sample.group = Some (JStr "u")
  /\ snd (create_data_refresh_task_group Sample.dr Sample.siblings Sample.env 0) = 1%nat.
Proof.
  assert (R : reachable Sample.group 0 (state_from 0 Sample.full_run)).
  { exists Sample.full_run. vm_compute. reflexivity. }
  assert (R' : reachable Sample.group 604800 (state_from 604800 Sample.full_run)).
  { exists Sample.full_run. vm_compute. reflexivity. }
  assert (H : In (TriggerCall (trigger_id "ingest_upstream")
                    [("model", JStr "image"); ("action", JStr "INGEST_UPSTREAM");
                     ("index_suffix", JStr "u")])
                 (log (state_from 0 Sample.full_run))).
  { vm_compute. do 11 right. left. reflexivity. }
  assert (H' : In (TriggerCall (trigger_id "point_alias")
                     [("alias", JStr "image"); ("model", JStr "image");
                      ("action", JStr "POINT_ALIAS"); ("index_suffix", JStr "u")])
                  (log (state_from 604800 Sample.full_run))).
  { vm_compute. do 6 right. left. reflexivity. }
  split; [split; [vm_compute; reflexivity|exact H]|].
  split; [split; [vm_compute; reflexivity|exact H']|].
  exact (@runs_share_build_token Sample.dr Sample.siblings Sample.env 0
           0 604800 (state_from 0 Sample.full_run) (state_from 604800 Sample.full_run)
           (trigger_id "ingest_upstream") (trigger_id "point_alias") _ _ R R' H H').
Defined.

(* ===================================================================== *)
(** * Worker slots while waiting *)
(* ===================================================================== *)

(** C5, as the code has it. The gate and both waiters are built with
    [mode="reschedule"]; the gate is in the [data_refresh] pool and the
    waiters, given no [pool], are in the default pool. So no task of a run
    holds a slot between two checks: a waiter gives its slot back exactly
    as the gate does, and it never occupies the [data_refresh] pool. *)
Theorem waiters_give_slot_back :
  forall (dr : DataRefresh) (ids : list string) (env : Environment) (drawn : nat),
    (forall s, In (GateTask s) (tasks (pipeline dr ids env drawn)) ->
               gate_mode s = RescheduleMode /\ gate_pool s = DATA_REFRESH_POOL)
    /\ (forall s, In (WaitTask s) (tasks (pipeline dr ids env drawn)) ->
                  hs_mode s = RescheduleMode /\ hs_pool s = DEFAULT_POOL)
    /\ (forall t0 st id,
           reachable (pipeline dr ids env drawn) t0 st ->
           holds_slot (ti st id) = false).
Proof.
  intros dr ids env drawn. repeat split.
  - cbn in H. destruct H as [H|[H|[H|[H|[H|[]]]]]]; try discriminate.
    injection H as <-. reflexivity.
  - cbn in H. destruct H as [H|[H|[H|[H|[H|[]]]]]]; try discriminate.
    injection H as <-. reflexivity.
  - cbn in H. destruct H as [H|[H|[H|[H|[H|[]]]]]]; try discriminate;
      injection H as <-; reflexivity.
  - cbn in H. destruct H as [H|[H|[H|[H|[H|[]]]]]]; try discriminate;
      injection H as <-; reflexivity.
  - intros t0 st id R.
    destruct (ti st id) eqn:T; try reflexivity.
    destruct (inv_sleeping (reachable_inv R) _ T) as (t & F & M).
    apply pipeline_find in F. cbn in F.
    destruct F as [F|[F|[F|[F|[F|[]]]]]]; subst t; discriminate.
Qed.

Lemma waiters_give_slot_back_witness :
  ti (Sample.state_after Sample.long_poll) (wait_id "point_alias") = UpForReschedule
  /\ holds_slot (ti (Sample.state_after Sample.long_poll) (wait_id "point_alias")) = false.
Proof.
  split; [vm_compute; reflexivity|].
  refine (proj2 (proj2 (waiters_give_slot_back Sample.dr Sample.siblings Sample.env 0))
            0 (Sample.state_after Sample.long_poll) (wait_id "point_alias") _).
  exists Sample.long_poll. vm_compute. reflexivity.
Defined.

(* ===================================================================== *)
(** * Triggering an action *)
(* ===================================================================== *)

Lemma run_app g l1 : forall l2 st,
  run g st (l1 ++ l2)%list =
  match run g st l1 with
  | Some st1 => run g st1 l2
  | None => None
  end.
Proof.
  induction l1 as [|a l1 IH]; cbn; intros l2 st; [reflexivity|].
  destruct (exec g st a); [apply IH|reflexivity].
Qed.

Lemma reachable_run g t0 st l st' :
  reachable g t0 st -> run g st l = Some st' -> reachable g t0 st'.
Proof.
  intros [l0 R0] R. exists (l0 ++ l)%list. now rewrite run_app, R0.
Qed.

Lemma reachable_exec g t0 st a st' :
  reachable g t0 st -> exec g st a = Some st' -> reachable g t0 st'.
Proof.
  intros R E. apply (@reachable_run g t0 st [a] st' R). cbn. now rewrite E.
Qed.

(** The ids of the pipeline's tasks are distinct: looking one up gives the
    task back. *)
Lemma pipeline_find_back dr ids env drawn t :
  In t (tasks (pipeline dr ids env drawn)) ->
  find_task (pipeline dr ids env drawn) (task_id t) = Some t.
Proof.
  intros H. cbn in H.
  destruct H as [H|[H|[H|[H|[H|[]]]]]]; subst t; reflexivity.
Qed.

Lemma run_operator_202 dr ids env drawn o rep p :
  In (TriggerTask o) (tasks (pipeline dr ids env drawn)) ->
  run_operator o rep = Return p <->
  exists r, rep = Got r /\ status_code r = 202
            /\ response_filter_data_refresh r = Return (Str p).
Proof.
  intros Hin.
  assert (Ec : op_response_check o = fun response => Z.eqb (status_code response) 202).
  { cbn in Hin. destruct Hin as [H|[H|[H|[H|[H|[]]]]]]; try discriminate;
      injection H as <-; reflexivity. }
  assert (Ef : op_response_filter o = response_filter_data_refresh).
  { cbn in Hin. destruct Hin as [H|[H|[H|[H|[H|[]]]]]]; try discriminate;
      injection H as <-; reflexivity. }
  unfold run_operator, operator_execute, hook_run. rewrite Ec, Ef. split.
  - destruct rep as [r|]; cbn; [|discriminate].
    destruct ((400 <=? status_code r) && (status_code r <? 600))%bool; cbn; [discriminate|].
    destruct (status_code r =? 202) eqn:E202; [|discriminate].
    apply Z.eqb_eq in E202.
    destruct (response_filter_data_refresh r) as [[s|s]|e] eqn:Er; cbn; try discriminate.
    intros [= <-]. exists r. repeat split; assumption.
  - intros (r & -> & E202 & Er).
    cbn -[response_filter_data_refresh Z.eqb Z.leb Z.ltb]. rewrite E202.
    cbn -[response_filter_data_refresh Z.eqb]. rewrite E202, Er. reflexivity.
Qed.

(** C6 as stated fails: a trigger response with status 202 whose body has
    no [status_check] makes the trigger task fail. *)
Lemma accepted_without_url_fails :
  Sample.accepted_without_url = Got (mkResponse 202 (Some (JObj [])))
  /\ ti (Sample.state_after Sample.rejected_run) (trigger_id "ingest_upstream")
     = TaskFailed (KeyError "status_check").
Proof. split; [reflexivity|vm_compute; reflexivity]. Qed.

(** C6, amended. A trigger of the pipeline succeeds iff the response has
    status 202 and [response_filter_data_refresh] returns a path for it;
    the trigger task then succeeds, and otherwise it fails with what was
    raised. A failed trigger stays failed (nothing runs it again), the run
    has failed and never finishes, and no poll call of the action's waiter
    is ever made. *)
Theorem trigger_succeeds_iff :
  forall (dr : DataRefresh) (ids : list string) (env : Environment) (drawn : nat)
         (o : SimpleHttpOperator),
    In (TriggerTask o) (tasks (pipeline dr ids env drawn)) ->
    (forall rep p,
        run_operator o rep = Return p <->
        exists r, rep = Got r /\ status_code r = 202
                  /\ response_filter_data_refresh r = Return (Str p))
    /\ (forall st rep st',
           exec (pipeline dr ids env drawn) st (RunTrigger (op_task_id o) rep) = Some st' ->
           ti st' (op_task_id o)
           = match run_operator o rep with
             | Return _ => Success
             | Raise e => TaskFailed e
             end)
    /\ (forall t0 st e l st',
           reachable (pipeline dr ids env drawn) t0 st ->
           ti st (op_task_id o) = TaskFailed e ->
           run (pipeline dr ids env drawn) st l = Some st' ->
           ti st' (op_task_id o) = TaskFailed e
           /\ run_failed (pipeline dr ids env drawn) st' = true
           /\ finished (pipeline dr ids env drawn) st' = false
           /\ (forall w ep, In (op_task_id o, w) (deps (pipeline dr ids env drawn)) ->
                            In (PollCall w ep) (log st') -> False)).
Proof.
  intros dr ids env drawn o Hin. split; [|split].
  - intros rep p. exact (@run_operator_202 dr ids env drawn o rep p Hin).
  - intros st rep st' E. cbn [exec] in E.
    rewrite (@pipeline_find_back dr ids env drawn _ Hin : find_task _ (op_task_id o) = _) in E.
    destruct (ti st (op_task_id o)); try discriminate.
    destruct (all_success _ _); [|discriminate].
    destruct (run_operator o rep); injection E as <-; cbn; apply upd_same.
  - intros t0 st e l st' R T Rl.
    assert (T' : ti st' (op_task_id o) = TaskFailed e).
    { rewrite <- T. eapply run_keeps_final; [exact Rl|]. right. now rewrite T. }
    pose proof (reachable_inv (@reachable_run _ _ _ _ _ R Rl)) as I.
    split; [exact T'|split; [|split]].
    + unfold run_failed. apply existsb_exists. exists (TriggerTask o).
      split; [exact Hin|]. cbn [task_id]. now rewrite T'.
    + unfold finished. apply not_true_is_false. intros Hall.
      rewrite forallb_forall in Hall. specialize (Hall _ Hin). cbn in Hall.
      now rewrite T' in Hall.
    + intros w ep Hd Hp.
      pose proof (inv_begun I _ Hp) as B. cbn in B.
      pose proof (inv_upstream I _ _ Hd B) as S. congruence.
Qed.

Lemma trigger_succeeds_iff_witness :
  run_operator
    (_get_http_operator "data_refresh.ingest_upstream" "trigger_ingest_upstream"
       [("model", JStr "image"); ("action", JStr "INGEST_UPSTREAM");
        ("index_suffix", JStr "u")])
    Sample.accepted
  = Return "/task/abc".
Proof.
  refine (proj2 (proj1 (@trigger_succeeds_iff Sample.dr Sample.siblings Sample.env 0 _ _)
                   Sample.accepted "/task/abc") _).
  - cbn. right. left. reflexivity.
  - eexists. split; [reflexivity|]. split; [reflexivity|]. vm_compute. reflexivity.
Defined.

(* ===================================================================== *)
(** * The timeout of the polling sensors *)
(* ===================================================================== *)

(** C8 as stated fails: with a timeout of 100 s and a run started at time
    0, the run is still polling its second action at time 150, its waiter
    has just been told Running and is rescheduled, nothing has failed; the
    run then finishes at time 180. *)
Lemma run_outlives_timeout :
  data_refresh_timeout Sample.dr = 100
  /\ now (Sample.state_after Sample.long_poll) = 150
  /\ ti (Sample.state_after Sample.long_poll) (wait_id "point_alias") = UpForReschedule
  /\ run_failed Sample.group (Sample.state_after Sample.long_poll) = false
  /\ now (Sample.state_after Sample.full_run) = 180
  /\ finished Sample.group (Sample.state_after Sample.full_run) = true.
Proof. repeat split; vm_compute; reflexivity. Qed.

(** The clock of a run and the start of its sensors: the clock moves with
    the ticks only, and a sensor's start is set by its first check and
    kept by every later one. *)
Lemma run_clock (g : TaskGroup) (l : list action) : forall st st',
  run g st l = Some st' ->
  now st' = clock_after (now st) l
  /\ forall id, started st' id
                = match started st id with
                  | Some t => Some t
                  | None => first_check (now st) l id
                  end.
Proof.
  induction l as [|a l IH]; intros st st' R.
  - cbn in R. injection R as <-. split; [reflexivity|].
    intros id. now destruct (started st id).
  - cbn [run] in R. destruct (exec g st a) as [st1|] eqn:E; [|discriminate].
    destruct (IH _ _ R) as [Hn Hs]. clear IH R.
    assert (Sensor : forall id0 (started1 : string -> option Z),
               now st1 = now st ->
               started st1 = upd (started st) id0 (Some (first_start st id0)) ->
               now st' = clock_after (now st) l
               /\ forall id, started st' id
                             = match started st id with
                               | Some t => Some t
                               | None => if String.eqb id0 id then Some (now st)
                                         else first_check (now st) l id
                               end).
    { intros id0 _ En Es. rewrite En in Hn, Hs. split; [exact Hn|].
      intros id. rewrite Hs, Es. unfold upd, first_start.
      destruct (String.eqb_spec id0 id) as [->|N]; [|reflexivity].
      now destruct (started st id). }
    destruct a as [dt|id0 obs|id0 rep|id0 rep|id0]; cbn [exec] in E;
      cbn [clock_after first_check].
    + destruct (0 <=? dt); [|discriminate]. injection E as <-.
      cbn [now started] in Hn, Hs. split; [exact Hn|exact Hs].
    + destruct (find_task g id0) as [[s|o|s]|]; try discriminate.
      destruct (runnable g st id0); [|discriminate]. injection E as <-.
      apply (Sensor id0 (started st)); reflexivity.
    + destruct (find_task g id0) as [[s|o|s]|]; try discriminate.
      destruct (ti st id0); try discriminate.
      destruct (all_success st (upstream_of g id0)); [|discriminate].
      destruct (run_operator o rep); injection E as <-;
        cbn [now started] in Hn, Hs; (split; [exact Hn|exact Hs]).
    + destruct (find_task g id0) as [[s|o|s]|]; try discriminate.
      destruct (runnable g st id0); [|discriminate]. injection E as <-.
      apply (Sensor id0 (started st)); reflexivity.
    + destruct (find_task g id0) as [t|]; [|discriminate].
      destruct (ti st id0); try discriminate.
      destruct (existsb _ _); [|discriminate]. injection E as <-.
      cbn [now started] in Hn, Hs. split; [exact Hn|exact Hs].
Qed.

(** C8, amended. Every waiter of the pipeline carries the configured
    timeout, counted from that waiter's own first check in the run, however
    many checks came in between. In a run that started at [t0] and has made
    the moves [l], a check of a waiter that is told "still running" fails
    the waiter with [AirflowSensorTimeout] exactly when more than the
    timeout has passed on the run's clock since the waiter's first check
    among [l]; the run has then failed and stays failed, unfinished,
    whatever follows. Told the same within the timeout, the waiter is
    rescheduled; a check that finds the job done succeeds whatever the
    time. *)
Theorem waiter_timeout :
  forall (dr : DataRefresh) (ids : list string) (env : Environment) (drawn : nat)
         (s : HttpSensor) (t0 : Z) (l : list action) (st st' : run_state) (rep : reply),
    In (WaitTask s) (tasks (pipeline dr ids env drawn)) ->
    run (pipeline dr ids env drawn) (initial t0) l = Some st ->
    exec (pipeline dr ids env drawn) st (RunPoke (hs_task_id s) rep) = Some st' ->
    hs_timeout s = data_refresh_timeout dr
    /\ now st = clock_after t0 l
    /\ ti st' (hs_task_id s)
       = match http_sensor_poke s rep with
         | Return true => Success
         | Return false =>
             if data_refresh_timeout dr <? waited t0 l (hs_task_id s)
             then TaskFailed AirflowSensorTimeout
             else UpForReschedule
         | Raise e => TaskFailed e
         end
    /\ (http_sensor_poke s rep = Return false ->
        data_refresh_timeout dr < waited t0 l (hs_task_id s) ->
        forall l' st'',
          run (pipeline dr ids env drawn) st' l' = Some st'' ->
          ti st'' (hs_task_id s) = TaskFailed AirflowSensorTimeout
          /\ run_failed (pipeline dr ids env drawn) st'' = true
          /\ finished (pipeline dr ids env drawn) st'' = false).
Proof.
  intros dr ids env drawn s t0 l st st' rep Hin R E.
  assert (Et : hs_timeout s = data_refresh_timeout dr).
  { cbn in Hin. destruct Hin as [H|[H|[H|[H|[H|[]]]]]]; try discriminate;
      injection H as <-; reflexivity. }
  assert (Em : hs_mode s = RescheduleMode).
  { cbn in Hin. destruct Hin as [H|[H|[H|[H|[H|[]]]]]]; try discriminate;
      injection H as <-; reflexivity. }
  destruct (@run_clock (pipeline dr ids env drawn) l (initial t0) st R) as [Hn Hs].
  cbn [now started initial] in Hn, Hs.
  assert (W : now st - first_start st (hs_task_id s) = waited t0 l (hs_task_id s)).
  { unfold first_start, waited. rewrite Hs, Hn.
    destruct (first_check t0 l (hs_task_id s)); lia. }
  assert (T : ti st' (hs_task_id s)
              = match http_sensor_poke s rep with
                | Return true => Success
                | Return false =>
                    if data_refresh_timeout dr <? waited t0 l (hs_task_id s)
                    then TaskFailed AirflowSensorTimeout
                    else UpForReschedule
                | Raise e => TaskFailed e
                end).
  { cbn [exec] in E.
    rewrite (@pipeline_find_back dr ids env drawn _ Hin : find_task _ (hs_task_id s) = _) in E.
    destruct (runnable _ st (hs_task_id s)); [|discriminate].
    injection E as <-. cbn [ti]. rewrite upd_same, Et, Em.
    unfold sensor_try. rewrite W.
    destruct (http_sensor_poke s rep) as [[|]|e]; try reflexivity.
    now destruct (data_refresh_timeout dr <? waited t0 l (hs_task_id s)). }
  split; [exact Et|]. split; [exact Hn|]. split; [exact T|].
  intros P Late l' st'' R'.
  rewrite P in T. apply Z.ltb_lt in Late. rewrite Late in T.
  assert (T' : ti st'' (hs_task_id s) = TaskFailed AirflowSensorTimeout).
  { rewrite <- T. eapply run_keeps_final; [exact R'|]. right. now rewrite T. }
  split; [exact T'|]. split.
  - unfold run_failed. apply existsb_exists. exists (WaitTask s). split; [exact Hin|].
    cbn [task_id]. now rewrite T'.
  - destruct (finished (pipeline dr ids env drawn) st'') eqn:F; [|reflexivity].
    unfold finished in F. rewrite forallb_forall in F.
    specialize (F _ Hin). cbn [task_id] in F. rewrite T' in F. discriminate.
Qed.

Lemma waiter_timeout_witness :
  (now (Sample.state_after
          [ RunGate gate_id Sample.idle;
            RunTrigger (trigger_id "ingest_upstream") Sample.accepted;
            RunPoke (wait_id "ingest_upstream") (Sample.status true false);
            Tick 60;
            RunPoke (wait_id "ingest_upstream") (Sample.status true false);
            Tick 60 ]) = 120
   /\ waited 0
        [ RunGate gate_id Sample.idle;
          RunTrigger (trigger_id "ingest_upstream") Sample.accepted;
          RunPoke (wait_id "ingest_upstream") (Sample.status true false);
          Tick 60;
          RunPoke (wait_id "ingest_upstream") (Sample.status true false);
          Tick 60 ] (wait_id "ingest_upstream") = 120)
  /\ ti (Sample.state_after
           [ RunGate gate_id Sample.idle;
             RunTrigger (trigger_id "ingest_upstream") Sample.accepted;
             RunPoke (wait_id "ingest_upstream") (Sample.status true false);
             Tick 60;
             RunPoke (wait_id "ingest_upstream") (Sample.status true false);
             Tick 60;
             RunPoke (wait_id "ingest_upstream") (Sample.status true false);
             MarkUpstreamFailed (trigger_id "point_alias") ])
        (wait_id "ingest_upstream")
     = TaskFailed AirflowSensorTimeout
  /\ run_failed Sample.group
       (Sample.state_after
          [ RunGate gate_id Sample.idle;
            RunTrigger (trigger_id "ingest_upstream") Sample.accepted;
            RunPoke (wait_id "ingest_upstream") (Sample.status true false);
            Tick 60;
            RunPoke (wait_id "ingest_upstream") (Sample.status true false);
            Tick 60;
            RunPoke (wait_id "ingest_upstream") (Sample.status true false);
            MarkUpstreamFailed (trigger_id "point_alias") ]) = true
  /\ finished Sample.group
       (Sample.state_after
          [ RunGate gate_id Sample.idle;
            RunTrigger (trigger_id "ingest_upstream") Sample.accepted;
            RunPoke (wait_id "ingest_upstream") (Sample.status true false);
            Tick 60;
            RunPoke (wait_id "ingest_upstream") (Sample.status true false);
            Tick 60;
            RunPoke (wait_id "ingest_upstream") (Sample.status true false);
            MarkUpstreamFailed (trigger_id "point_alias") ]) = false.
Proof.
  split; [split; vm_compute; reflexivity|].
  refine (proj2 (proj2 (proj2 (@waiter_timeout Sample.dr Sample.siblings Sample.env 0
            (_get_http_sensor Sample.dr 30 "data_refresh.ingest_upstream"
               "wait_for_ingest_upstream"
               (XComPull "data_refresh.ingest_upstream.trigger_ingest_upstream" "return_value"))
            0
            [ RunGate gate_id Sample.idle;
              RunTrigger (trigger_id "ingest_upstream") Sample.accepted;
              RunPoke (wait_id "ingest_upstream") (Sample.status true false);
              Tick 60;
              RunPoke (wait_id "ingest_upstream") (Sample.status true false);
              Tick 60 ]
            (Sample.state_after
               [ RunGate gate_id Sample.idle;
                 RunTrigger (trigger_id "ingest_upstream") Sample.accepted;
                 RunPoke (wait_id "ingest_upstream") (Sample.status true false);
                 Tick 60;
                 RunPoke (wait_id "ingest_upstream") (Sample.status true false);
                 Tick 60 ])
            (Sample.state_after
               [ RunGate gate_id Sample.idle;
                 RunTrigger (trigger_id "ingest_upstream") Sample.accepted;
                 RunPoke (wait_id "ingest_upstream") (Sample.status true false);
                 Tick 60;
                 RunPoke (wait_id "ingest_upstream") (Sample.status true false);
                 Tick 60;
                 RunPoke (wait_id "ingest_upstream") (Sample.status true false) ])
            (Sample.status true false) _ _ _)))
          _ _ [MarkUpstreamFailed (trigger_id "point_alias")] _ _).
  - cbn. right. right. left. reflexivity.
  - vm_compute. reflexivity.
  - vm_compute. reflexivity.
  - vm_compute. reflexivity.
  - vm_compute. reflexivity.
  - vm_compute. reflexivity.
Defined.

(* ===================================================================== *)
(** * The gate *)
(* ===================================================================== *)

Lemma gate_poke_clear s obs :
  gate_poke s obs = true <->
  forall dag_id, In dag_id (external_dag_ids s) -> is_active obs dag_id = false.
Proof.
  unfold gate_poke. rewrite forallb_forall. split; intros H x Hx.
  - now apply negb_true_iff, H.
  - now apply negb_true_iff, H.
Qed.

Lemma is_active_iff obs dag_id :
  is_active obs dag_id = true <->
  exists r, obs dag_id = Some r /\ sibling_state r = RunRunning
            /\ sibling_gate_passed r = true.
Proof.
  unfold is_active. split.
  - destruct (obs dag_id) as [r|]; [|discriminate].
    destruct (sibling_state r) eqn:E; try discriminate.
    intros P. now exists r.
  - intros (r & -> & -> & P). exact P.
Qed.

(** No trigger has been called while the gate has not cleared. *)
Lemma no_trigger_before_gate dr ids env drawn t0 st v d :
  reachable (pipeline dr ids env drawn) t0 st ->
  In (TriggerCall v d) (log st) ->
  ti st gate_id = Success.
Proof.
  intros R Hin. pose proof (reachable_inv R) as I.
  destruct (inv_trigger_data I _ _ Hin) as (o & F & _).
  pose proof (inv_begun I _ Hin) as B. cbn [event_task] in B.
  pose proof (inv_upstream I) as U. rewrite pipeline_deps in U.
  assert (G1 : begun (ti st (trigger_id "ingest_upstream")) = true -> ti st gate_id = Success).
  { intros B1. apply (U gate_id (trigger_id "ingest_upstream")); [|exact B1].
    right. right. now left. }
  pose proof (@find_task_id _ _ _ F) as Ev. cbn [task_id] in Ev.
  apply pipeline_find in F. cbn in F.
  destruct F as [F|[F|[F|[F|[F|[]]]]]]; try discriminate; injection F as <-;
    cbn in Ev; subst v.
  - apply G1. exact B.
  - apply G1.
    assert (S1 : ti st (wait_id "ingest_upstream") = Success).
    { apply (U _ (trigger_id "point_alias")); [|exact B]. right. right. right. now left. }
    assert (S2 : ti st (trigger_id "ingest_upstream") = Success).
    { apply (U _ (wait_id "ingest_upstream")); [now left|]. now rewrite S1. }
    now rewrite S2.
Qed.

(** C3. The gate reports clear iff no sibling id is active, where a
    sibling is active iff its run is running and has passed its own gate;
    an id without a run is inactive and raises nothing. A check of the
    pipeline's gate that sees an active sibling leaves the gate waiting
    (rescheduled, holding no slot), a check that sees none lets it succeed;
    and in no run is a trigger called before the gate has succeeded. *)
Theorem gate_waits_for_siblings :
  forall (dr : DataRefresh) (ids : list string) (env : Environment) (drawn : nat),
    (forall s obs,
        gate_poke s obs = true <->
        forall dag_id, In dag_id (external_dag_ids s) -> is_active obs dag_id = false)
    /\ (forall obs dag_id,
           is_active obs dag_id = true <->
           exists r, obs dag_id = Some r /\ sibling_state r = RunRunning
                     /\ sibling_gate_passed r = true)
    /\ (forall obs dag_id, obs dag_id = None -> is_active obs dag_id = false)
    /\ (forall st obs st',
           exec (pipeline dr ids env drawn) st (RunGate gate_id obs) = Some st' ->
           (exists dag_id, In dag_id ids /\ is_active obs dag_id = true) ->
           ti st' gate_id = UpForReschedule /\ holds_slot (ti st' gate_id) = false)
    /\ (forall st obs st',
           exec (pipeline dr ids env drawn) st (RunGate gate_id obs) = Some st' ->
           (forall dag_id, In dag_id ids -> is_active obs dag_id = false) ->
           ti st' gate_id = Success)
    /\ (forall t0 st v d,
           reachable (pipeline dr ids env drawn) t0 st ->
           In (TriggerCall v d) (log st) ->
           ti st gate_id = Success).
Proof.
  intros dr ids env drawn.
  assert (Step : forall st obs st',
             exec (pipeline dr ids env drawn) st (RunGate gate_id obs) = Some st' ->
             ti st' gate_id
             = if forallb (fun dag_id => negb (is_active obs dag_id)) ids
               then Success else UpForReschedule).
  { intros st obs st' E. cbn [exec] in E.
    change (find_task (pipeline dr ids env drawn) gate_id)
      with (Some (GateTask (wait_for_data_refresh ids (get_poke_interval env)))) in E.
    destruct (runnable _ st gate_id); [|discriminate].
    injection E as <-. cbn [ti]. rewrite upd_same.
    unfold gate_poke. cbn [external_dag_ids wait_for_data_refresh gate_mode].
    now destruct (forallb _ ids). }
  split; [intros; apply gate_poke_clear|].
  split; [intros; apply is_active_iff|].
  split; [intros obs dag_id H; unfold is_active; now rewrite H|].
  split; [|split].
  - intros st obs st' E (dag_id & Hin & A).
    rewrite (Step _ _ _ E).
    destruct (forallb _ ids) eqn:F; [|split; reflexivity].
    rewrite forallb_forall in F. specialize (F _ Hin). now rewrite A in F.
  - intros st obs st' E H. rewrite (Step _ _ _ E).
    replace (forallb _ ids) with true; [reflexivity|].
    symmetry. apply forallb_forall. intros x Hx. now rewrite (H x Hx).
  - intros t0 st v d R Hin. eapply no_trigger_before_gate; eassumption.
Qed.

Lemma gate_waits_for_siblings_witness :
  ti (Sample.state_after [RunGate gate_id Sample.busy]) gate_id = UpForReschedule
  /\ holds_slot (ti (Sample.state_after [RunGate gate_id Sample.busy]) gate_id) = false.
Proof.
  refine (proj1 (proj2 (proj2 (proj2
            (gate_waits_for_siblings Sample.dr Sample.siblings Sample.env 0))))
          (initial 0) Sample.busy (Sample.state_after [RunGate gate_id Sample.busy]) _ _).
  - vm_compute. reflexivity.
  - exists "audio_data_refresh". split; [now left|reflexivity].
Defined.

(* ===================================================================== *)
(** * Further properties of runs *)
(* ===================================================================== *)

Section RunFacts.

Variable g : TaskGroup.

(** A task downstream of a failed task never begins. *)
Lemma failed_blocks t0 st u v l st' :
  reachable g t0 st ->
  In (u, v) (deps g) ->
  is_failed (ti st u) = true ->
  run g st l = Some st' ->
  begun (ti st' v) = false /\ (forall e, In e (log st') -> event_task e <> v).
Proof.
  intros R Hin Fu Rl.
  pose proof (reachable_inv (@reachable_run _ _ _ _ _ R Rl)) as I.
  assert (Fu' : ti st' u = ti st u).
  { eapply run_keeps_final; [exact Rl|]. now right. }
  assert (B : begun (ti st' v) = false).
  { destruct (begun (ti st' v)) eqn:B; [|reflexivity].
    pose proof (inv_upstream I _ _ Hin B) as S.
    rewrite Fu' in S. rewrite S in Fu. discriminate. }
  split; [exact B|].
  intros e He Ev. pose proof (inv_begun I _ He) as B'.
  rewrite Ev, B in B'. discriminate.
Qed.

Lemma xcom_inv_initial t0 : xcom_inv g (initial t0).
Proof.
  split.
  - intros id v H. discriminate.
  - intros id o _ H. discriminate.
  - intros w ep [].
Qed.

Lemma xcom_inv_step st a st' :
  endpoints_wired g -> run_inv g st -> xcom_inv g st ->
  exec g st a = Some st' -> xcom_inv g st'.
Proof.
  intros W I [P S L] E.
  assert (Same : forall id X,
             ti st id <> Success ->
             (forall o, find_task g id = Some (TriggerTask o) -> X <> Success) ->
             (forall id' v, xcom st id' = Some v ->
                upd (ti st) id X id' = Success
                /\ exists o rep, find_task g id' = Some (TriggerTask o)
                                 /\ run_operator o rep = Return v)
             /\ (forall id' o, find_task g id' = Some (TriggerTask o) ->
                   upd (ti st) id X id' = Success -> exists v, xcom st id' = Some v)).
  { intros id X NS NT. split.
    - intros id' v Hx. destruct (P _ _ Hx) as [T Ho]. split; [|exact Ho].
      rewrite upd_other; [exact T|]. intros ->. contradiction.
    - intros id' o F T. destruct (String.eqb_spec id id') as [->|N].
      + rewrite upd_same in T. destruct (NT _ F T).
      + rewrite upd_other in T by exact N. eapply S; eassumption. }
  destruct a as [dt|id obs|id rep|id rep|id]; cbn [exec] in E.
  - destruct (0 <=? dt); [|discriminate]. injection E as <-.
    split; cbn [ti xcom log]; assumption.
  - destruct (find_task g id) as [[s|o|s]|] eqn:F; try discriminate.
    destruct (runnable g st id) eqn:R; [|discriminate].
    apply runnable_cases in R as (R1 & _ & _).
    injection E as <-.
    destruct (Same id (after_verdict (gate_mode s)
                         (sensor_try None (first_start st id) (now st)
                            (Return (gate_poke s obs)))) R1) as [P' S'].
    { intros o F'. congruence. }
    split; cbn [ti xcom log]; [exact P'|exact S'|].
    intros w ep [H|H]; [discriminate|]. now apply L.
  - destruct (find_task g id) as [[s|o|s]|] eqn:F; try discriminate.
    destruct (ti st id) eqn:T; try discriminate.
    destruct (all_success st (upstream_of g id)); [|discriminate].
    assert (NX : xcom st id = None).
    { destruct (xcom st id) eqn:X; [|reflexivity].
      destruct (P _ _ X) as [T' _]. congruence. }
    destruct (run_operator o rep) as [v|e] eqn:Ro; injection E as <-.
    + split; cbn [ti xcom log].
      * intros id' v' Hx. destruct (String.eqb_spec id id') as [<-|N].
        -- rewrite upd_same in Hx. injection Hx as <-. rewrite upd_same.
           split; [reflexivity|]. now exists o, rep.
        -- rewrite upd_other in Hx by exact N. rewrite upd_other by exact N.
           now apply P.
      * intros id' o' F' T'. destruct (String.eqb_spec id id') as [<-|N].
        -- exists v. now rewrite upd_same.
        -- rewrite upd_other in T' by exact N. rewrite upd_other by exact N.
           eapply S; eassumption.
      * intros w ep [H|H]; [discriminate|].
        destruct (L _ _ H) as (s & Fs & Hx). exists s. split; [exact Fs|].
        rewrite upd_other; [exact Hx|]. intros N. rewrite <- N in Hx. congruence.
    + destruct (Same id (TaskFailed e)) as [P' S'].
      { congruence. }
      { intros _ _. discriminate. }
      split; cbn [ti xcom log]; [exact P'|exact S'|].
      intros w ep [H|H]; [discriminate|]. now apply L.
  - destruct (find_task g id) as [[s|o|s]|] eqn:F; try discriminate.
    destruct (runnable g st id) eqn:R; [|discriminate].
    apply runnable_cases in R as (R1 & _ & R3).
    injection E as <-.
    destruct (Same id (after_verdict (hs_mode s)
                         (sensor_try (Some (hs_timeout s)) (first_start st id) (now st)
                            (http_sensor_poke s rep))) R1) as [P' S'].
    { intros o F'. congruence. }
    split; cbn [ti xcom log]; [exact P'|exact S'|].
    intros w ep [H|[H|H]]; [discriminate| |now apply L].
    injection H as <- <-. exists s. split; [exact F|].
    destruct (W _ _ F) as [Hd (o & Fo)].
    assert (Tu : ti st (xcom_task_ids (hs_endpoint s)) = Success).
    { destruct R3 as [B|A].
      - eapply (inv_upstream I); eassumption.
      - eapply all_success_in; eassumption. }
    destruct (S _ _ Fo Tu) as [v Hv]. unfold render. now rewrite Hv.
  - destruct (find_task g id) as [t|] eqn:F; [|discriminate].
    destruct (ti st id) eqn:T; try discriminate.
    destruct (existsb _ _); [|discriminate]. injection E as <-.
    destruct (Same id UpstreamFailed) as [P' S'].
    { congruence. }
    { intros _ _. discriminate. }
    split; cbn [ti xcom log]; assumption.
Qed.

Lemma reachable_xcom_inv t0 st :
  endpoints_wired g -> reachable g t0 st -> xcom_inv g st.
Proof.
  intros W R.
  enough (H : run_inv g st /\ xcom_inv g st) by apply H.
  revert st R. apply reachable_ind.
  - split; [apply run_inv_initial|apply xcom_inv_initial].
  - intros st a st' [I X] E. split.
    + eapply run_inv_step; eassumption.
    + eapply xcom_inv_step; eassumption.
Qed.

End RunFacts.

(* ===================================================================== *)
(** * The endpoint a waiter polls *)
(* ===================================================================== *)

Lemma pipeline_endpoints_wired dr ids env drawn :
  endpoints_wired (pipeline dr ids env drawn).
Proof.
  intros w s F.
  pose proof (find_task_id _ _ F) as Hid. cbn [task_id] in Hid.
  apply pipeline_find in F. cbn in F.
  destruct F as [H|[H|[H|[H|[H|[]]]]]]; try discriminate;
    injection H as <-; subst w; cbn.
  - split; [now left|]. eexists. reflexivity.
  - split; [right; now left|]. eexists. reflexivity.
Qed.

(** X1. In every run of the pipeline, each request of a waiter goes to the
    path that the trigger of the same action returned: that trigger has
    succeeded, the path is its XCom value, and it is what
    [response_filter_data_refresh] gave for a reply of status 202. The
    endpoint template is never rendered without its value. *)
Theorem polls_use_trigger_endpoint :
  forall (dr : DataRefresh) (ids : list string) (env : Environment) (drawn : nat)
         (t0 : Z) (st : run_state) (w ep : string),
    reachable (pipeline dr ids env drawn) t0 st ->
    In (PollCall w ep) (log st) ->
    exists action,
      In action ["ingest_upstream"; "point_alias"]
      /\ w = wait_id action
      /\ ti st (trigger_id action) = Success
      /\ xcom st (trigger_id action) = Some ep
      /\ exists r, status_code r = 202
                   /\ response_filter_data_refresh r = Return (Str ep).
Proof.
  intros dr ids env drawn t0 st w ep R Hin.
  pose proof (reachable_xcom_inv (pipeline_endpoints_wired dr ids env drawn) R) as [P _ L].
  destruct (L _ _ Hin) as (s & F & Hx).
  destruct (P _ _ Hx) as (T & o & rep & Fo & Ro).
  apply pipeline_find in Fo.
  apply (@run_operator_202 dr ids env drawn o rep ep Fo) in Ro as (r & _ & E202 & Er).
  pose proof (find_task_id _ _ F) as Hid. cbn [task_id] in Hid.
  apply pipeline_find in F. cbn in F.
  destruct F as [H|[H|[H|[H|[H|[]]]]]]; try discriminate;
    injection H as <-; subst w; cbn in Hx, T.
  - exists "ingest_upstream". split; [now left|].
    repeat split; try assumption. now exists r.
  - exists "point_alias". split; [right; now left|].
    repeat split; try assumption. now exists r.
Qed.

Lemma polls_use_trigger_endpoint_witness :
  exists action,
    In action ["ingest_upstream"; "point_alias"]
    /\ wait_id "point_alias" = wait_id action
    /\ ti (Sample.state_after Sample.full_run) (trigger_id action) = Success
    /\ xcom (Sample.state_after Sample.full_run) (trigger_id action) = Some "/task/abc"
    /\ exists r, status_code r = 202
                 /\ response_filter_data_refresh r = Return (Str "/task/abc").
Proof.
  apply (@polls_use_trigger_endpoint Sample.dr Sample.siblings Sample.env 0 0
           (Sample.state_after Sample.full_run) (wait_id "point_alias") "/task/abc"
           sample_full_run_reachable).
  vm_compute. right. left. reflexivity.
Defined.

(* ===================================================================== *)
(** * Failures stop what is downstream *)
(* ===================================================================== *)

(** X2. Under the default trigger rule, once a task of a group has failed
    (or was marked upstream-failed), no task directly downstream of it
    begins in any continuation of the run: it stays without a check or a
    call, leaves no event, and the run never finishes. *)
Theorem failed_task_blocks_downstream :
  forall (g : TaskGroup) (t0 : Z) (st st' : run_state) (u v : string)
         (t : task) (l : list action),
    reachable g t0 st ->
    In (u, v) (deps g) ->
    find_task g v = Some t ->
    is_failed (ti st u) = true ->
    run g st l = Some st' ->
    begun (ti st' v) = false
    /\ (forall e, In e (log st') -> event_task e <> v)
    /\ finished g st' = false.
Proof.
  intros g t0 st st' u v t l R Hin F Fu Rl.
  destruct (@failed_blocks g t0 st u v l st' R Hin Fu Rl) as [B E].
  repeat split; [exact B|exact E|].
  destruct (finished g st') eqn:Fin; [|reflexivity].
  unfold finished in Fin. rewrite forallb_forall in Fin.
  specialize (Fin t (@pipeline_find g v t F)).
  rewrite (@find_task_id g v t F) in Fin.
  destruct (ti st' v); discriminate.
Qed.

Lemma sample_rejected_run_reachable :
  reachable Sample.group 0 (Sample.state_after Sample.rejected_run).
Proof. exists Sample.rejected_run. vm_compute. reflexivity. Qed.

Lemma failed_task_blocks_downstream_witness :
  begun (ti (Sample.state_after
               (Sample.rejected_run ++ [MarkUpstreamFailed (wait_id "ingest_upstream")]))
            (trigger_id "point_alias")) = false
  /\ (forall e,
        In e (log (Sample.state_after
                     (Sample.rejected_run ++ [MarkUpstreamFailed (wait_id "ingest_upstream")]))) ->
        event_task e <> trigger_id "point_alias")
  /\ finished Sample.group
       (Sample.state_after
          (Sample.rejected_run ++ [MarkUpstreamFailed (wait_id "ingest_upstream")])) = false.
Proof.
  assert (F : exists t, find_task Sample.group (trigger_id "point_alias") = Some t).
  { vm_compute. eexists. reflexivity. }
  destruct F as [t F].
  apply (@failed_task_blocks_downstream Sample.group 0
           (Sample.state_after
              (Sample.rejected_run ++ [MarkUpstreamFailed (wait_id "ingest_upstream")]))
           (Sample.state_after
              (Sample.rejected_run ++ [MarkUpstreamFailed (wait_id "ingest_upstream")]))
           (wait_id "ingest_upstream") (trigger_id "point_alias") t []).
  - exists (Sample.rejected_run ++ [MarkUpstreamFailed (wait_id "ingest_upstream")])%list.
    vm_compute. reflexivity.
  - vm_compute. right. right. right. left. reflexivity.
  - exact F.
  - vm_compute. reflexivity.
  - reflexivity.
Defined.

(* ===================================================================== *)
(** * The POST data of a trigger *)
(* ===================================================================== *)

Lemma get_set_same {V : Type} (d : Py.dict V) k v : Py.get (Py.set d k v) k = Some v.
Proof.
  induction d as [|[k' v'] d IH]; cbn.
  - now rewrite String.eqb_refl.
  - destruct (String.eqb k' k) eqn:E; cbn; rewrite E; [reflexivity|exact IH].
Qed.

Lemma get_set_other {V : Type} (d : Py.dict V) k v k' :
  k <> k' -> Py.get (Py.set d k v) k' = Py.get d k'.
Proof.
  intros N. induction d as [|[k0 v0] d IH]; cbn.
  - apply String.eqb_neq in N. now rewrite N.
  - destruct (String.eqb k0 k) eqn:E; cbn.
    + apply String.eqb_eq in E. subst k0.
      apply String.eqb_neq in N. now rewrite N.
    + now rewrite IH.
Qed.

Lemma keys_set_old {V : Type} (d : Py.dict V) k v :
  exists rest, map fst (Py.set d k v) = (map fst d ++ rest)%list.
Proof.
  induction d as [|[k0 v0] d [rest IH]]; cbn.
  - now exists [k].
  - destruct (String.eqb k0 k); cbn.
    + exists []. now rewrite app_nil_r.
    + exists rest. now rewrite IH.
Qed.

(** X3. Whatever data an action brings, the POST data of its trigger names
    the media type as [model], the action's name in upper case as [action]
    and the group's [index_suffix]: on these three keys the fixed fields of
    the factory win over the action's own data; every other key reads as in
    the action's data, and the action's keys keep their places at the
    front. *)
Theorem post_data_fixed_fields_win :
  forall (dr : DataRefresh) (poke_interval : Z) (index_suffix action : string)
         (action_post_data : Py.dict json) (k : string),
    k <> "model" -> k <> "action" -> k <> "index_suffix" ->
    exists o w,
      tasks (action_task_group dr poke_interval index_suffix (action, action_post_data))
      = [TriggerTask o; WaitTask w]
      /\ Py.get (op_data o) "model" = Some (JStr (media_type dr))
      /\ Py.get (op_data o) "action" = Some (JStr (PyStr.upper action))
      /\ Py.get (op_data o) "index_suffix" = Some (JStr index_suffix)
      /\ Py.get (op_data o) k = Py.get action_post_data k
      /\ exists rest, map fst (op_data o) = (map fst action_post_data ++ rest)%list.
Proof.
  intros dr pi suffix action data k N1 N2 N3.
  do 2 eexists. split; [reflexivity|]. cbn [op_data _get_http_operator].
  unfold Py.union. cbn [fold_left fst snd].
  repeat split.
  - rewrite get_set_other by discriminate. rewrite get_set_other by discriminate.
    apply get_set_same.
  - rewrite get_set_other by discriminate. apply get_set_same.
  - apply get_set_same.
  - rewrite !get_set_other by (intros E; symmetry in E; contradiction).
    reflexivity.
  - destruct (keys_set_old (Py.set (Py.set data "model" (JStr (media_type dr)))
                              "action" (JStr (PyStr.upper action)))
                "index_suffix" (JStr suffix)) as [r3 E3].
    destruct (keys_set_old (Py.set data "model" (JStr (media_type dr)))
                "action" (JStr (PyStr.upper action))) as [r2 E2].
    destruct (keys_set_old data "model" (JStr (media_type dr))) as [r1 E1].
    exists (r1 ++ r2 ++ r3)%list. rewrite E3, E2, E1. now rewrite <- !app_assoc.
Qed.

Lemma post_data_fixed_fields_win_witness :
  exists o w,
    tasks (action_task_group Sample.dr 30 "u"
             ("point_alias", [("model", JStr "audio"); ("alias", JStr "image")]))
    = [TriggerTask o; WaitTask w]
    /\ Py.get (op_data o) "model" = Some (JStr (media_type Sample.dr))
    /\ Py.get (op_data o) "action" = Some (JStr (PyStr.upper "point_alias"))
    /\ Py.get (op_data o) "index_suffix" = Some (JStr "u")
    /\ Py.get (op_data o) "alias"
       = Py.get [("model", JStr "audio"); ("alias", JStr "image")] "alias"
    /\ exists rest, map fst (op_data o) = (["model"; "alias"] ++ rest)%list.
Proof.
  apply (@post_data_fixed_fields_win Sample.dr 30 "u" "point_alias"
           [("model", JStr "audio"); ("alias", JStr "image")] "alias");
    discriminate.
Defined.

(* ===================================================================== *)
(** * The group built for any action map *)
(* ===================================================================== *)

Section AnyActionMap.

Variable dr : DataRefresh.
Variable ids : list string.
Variable poke_interval : Z.
Variable index_suffix : string.

Lemma length_app (a b : string) :
  String.length (a ++ b) = (String.length a + String.length b)%nat.
Proof. induction a as [|c a IH]; cbn; [reflexivity|now rewrite IH]. Qed.

Lemma eqb_app_prefix (a x y : string) : String.eqb (a ++ x) (a ++ y) = String.eqb x y.
Proof.
  induction a as [|c a IH]; cbn; [reflexivity|]. now rewrite Ascii.eqb_refl.
Qed.

Lemma app_inj_length (a b x y : string) :
  String.length a = String.length b -> a ++ x = b ++ y -> a = b /\ x = y.
Proof.
  revert b. induction a as [|c a IH]; intros [|c' b]; cbn; try discriminate.
  - auto.
  - intros [= L] [= -> E]. destruct (IH _ L E) as [-> ->]. auto.
Qed.

Lemma trigger_id_length a : String.length (trigger_id a) = (22 + 2 * String.length a)%nat.
Proof. unfold trigger_id. cbn. rewrite !length_app. cbn. lia. Qed.

Lemma wait_id_length a : String.length (wait_id a) = (23 + 2 * String.length a)%nat.
Proof. unfold wait_id. cbn. rewrite !length_app. cbn. lia. Qed.

Lemma trigger_not_wait a b : trigger_id a <> wait_id b.
Proof.
  intros E. apply (f_equal String.length) in E.
  rewrite trigger_id_length, wait_id_length in E. lia.
Qed.

Lemma gate_not_wait a : gate_id <> wait_id a.
Proof.
  intros E. apply (f_equal String.length) in E.
  rewrite wait_id_length in E. cbn in E. lia.
Qed.

Lemma trigger_id_inj a b : trigger_id a = trigger_id b -> a = b.
Proof.
  intros E. pose proof (f_equal String.length E) as L.
  rewrite !trigger_id_length in L.
  unfold trigger_id in E. cbn in E. injection E as E.
  apply app_inj_length in E; [tauto|lia].
Qed.

Lemma wait_id_inj a b : wait_id a = wait_id b -> a = b.
Proof.
  intros E. pose proof (f_equal String.length E) as L.
  rewrite !wait_id_length in L.
  unfold wait_id in E. cbn in E. injection E as E.
  apply app_inj_length in E; [tauto|lia].
Qed.

Lemma gate_not_trigger a : gate_id <> trigger_id a.
Proof.
  intros E. pose proof (f_equal String.length E) as L.
  rewrite trigger_id_length in L. cbn in L.
  assert (La : String.length a = 6%nat) by lia.
  destruct a as [|c1 [|c2 [|c3 [|c4 [|c5 [|c6 [|c7 a]]]]]]]; discriminate.
Qed.

Lemma eqb_wait_trigger a : String.eqb (wait_id a) (trigger_id a) = false.
Proof. apply String.eqb_neq. intros E. symmetry in E. now apply trigger_not_wait in E. Qed.

(** The group of one action: its two tasks, their ids and its one
    dependency. *)
Lemma action_group_shape (item : string * Py.dict json) :
  exists o w,
    tasks (action_task_group dr poke_interval index_suffix item)
    = [TriggerTask o; WaitTask w]
    /\ deps (action_task_group dr poke_interval index_suffix item)
       = [(trigger_id (fst item), wait_id (fst item))]
    /\ op_task_id o = trigger_id (fst item)
    /\ hs_task_id w = wait_id (fst item)
    /\ hs_endpoint w = XComPull (trigger_id (fst item)) "return_value".
Proof. destruct item as [a d]. do 2 eexists. repeat split. Qed.

Lemma action_group_leaves item :
  get_leaves (action_task_group dr poke_interval index_suffix item) = [wait_id (fst item)].
Proof.
  destruct (action_group_shape item) as (o & w & Et & Ed & Eo & Ew & _).
  unfold get_leaves. rewrite Et, Ed. cbn [map task_id fst snd filter mem existsb].
  rewrite Eo, Ew, String.eqb_refl, eqb_wait_trigger. reflexivity.
Qed.

Lemma action_group_roots item :
  get_roots (action_task_group dr poke_interval index_suffix item) = [trigger_id (fst item)].
Proof.
  destruct (action_group_shape item) as (o & w & Et & Ed & Eo & Ew & _).
  unfold get_roots. rewrite Et, Ed. cbn [map task_id fst snd filter mem existsb].
  rewrite Eo, Ew, String.eqb_refl.
  assert (E : String.eqb (trigger_id (fst item)) (wait_id (fst item)) = false).
  { apply String.eqb_neq. apply trigger_not_wait. }
  rewrite E. reflexivity.
Qed.

Lemma chain_links (c : chainable) (prev : string) (actions : Py.dict (Py.dict json)) :
  leaves c = [prev] ->
  chain (c :: map (fun item => Group (action_task_group dr poke_interval index_suffix item))
                  actions)
  = links prev (map fst actions).
Proof.
  revert c prev. induction actions as [|item actions IH]; intros c prev Hc; [reflexivity|].
  cbn [map chain links]. unfold set_downstream at 1. rewrite Hc.
  cbn [roots flat_map]. rewrite action_group_roots. cbn [map app].
  f_equal. apply IH. cbn [leaves]. apply action_group_leaves.
Qed.

Lemma build_group_task_ids (actions : Py.dict (Py.dict json)) :
  map task_id (tasks (build_group dr ids poke_interval index_suffix actions))
  = gate_id :: action_task_ids (map fst actions).
Proof.
  cbn [build_group tasks chained flat_map chainable_tasks app map task_id].
  f_equal. induction actions as [|item actions IH]; [reflexivity|].
  cbn [map flat_map chainable_tasks]. rewrite map_app, IH.
  destruct (action_group_shape item) as (o & w & Et & _ & Eo & Ew & _).
  rewrite Et. cbn [map task_id]. rewrite Eo, Ew. reflexivity.
Qed.

Lemma build_group_deps (actions : Py.dict (Py.dict json)) :
  deps (build_group dr ids poke_interval index_suffix actions)
  = (map (fun a => (trigger_id a, wait_id a)) (map fst actions)
     ++ links gate_id (map fst actions))%list.
Proof.
  cbn [build_group deps]. f_equal.
  - cbn [chained flat_map chainable_deps app].
    induction actions as [|item actions IH]; [reflexivity|].
    cbn [map flat_map chainable_deps]. rewrite IH.
    destruct (action_group_shape item) as (o & w & _ & Ed & _). rewrite Ed. reflexivity.
  - unfold chained. apply chain_links. reflexivity.
Qed.

Lemma in_action_task_ids x l :
  In x (action_task_ids l) <-> exists a, In a l /\ (x = trigger_id a \/ x = wait_id a).
Proof.
  unfold action_task_ids. rewrite in_flat_map. split.
  - intros (a & Ha & [H|[H|[]]]); exists a; auto.
  - intros (a & Ha & [H|H]); exists a; subst x; cbn; auto.
Qed.

Lemma action_task_ids_nodup l : NoDup (action_task_ids l) <-> NoDup l.
Proof.
  induction l as [|a l IH]; cbn.
  - split; constructor.
  - change (flat_map (fun a0 => [trigger_id a0; wait_id a0]) l) with (action_task_ids l).
    split.
    + intros H. inversion H as [|? ? N1 H1]; subst. inversion H1 as [|? ? N2 H2]; subst.
      constructor; [|now apply IH].
      intros Hin. apply N2. apply in_action_task_ids. exists a. auto.
    + intros H. inversion H as [|? ? N1 H1]; subst.
      constructor; [|constructor; [|now apply IH]].
      * intros [E|Hin].
        -- symmetry in E. now apply trigger_not_wait in E.
        -- apply in_action_task_ids in Hin as (b & Hb & [E|E]).
           ++ apply trigger_id_inj in E. now subst b.
           ++ now apply trigger_not_wait in E.
      * intros Hin. apply in_action_task_ids in Hin as (b & Hb & [E|E]).
        -- symmetry in E. now apply trigger_not_wait in E.
        -- apply wait_id_inj in E. now subst b.
Qed.

Lemma gate_not_action l : ~ In gate_id (action_task_ids l).
Proof.
  intros H. apply in_action_task_ids in H as (a & _ & [E|E]).
  - now apply gate_not_trigger in E.
  - now apply gate_not_wait in E.
Qed.

Lemma links_first prev b rest : In (prev, trigger_id b) (links prev (b :: rest)).
Proof. now left. Qed.

Lemma links_adjacent a b l : forall prev,
  adjacent a b l -> In (wait_id a, trigger_id b) (links prev l).
Proof.
  intros prev (pre & post & ->). revert prev.
  induction pre as [|c pre IH]; intros prev; cbn.
  - right. now left.
  - right. apply IH.
Qed.

(** A task of the group by its kind. *)
Lemma build_group_task_kinds actions t :
  In t (tasks (build_group dr ids poke_interval index_suffix actions)) ->
  task_id t = gate_id
  \/ (exists a o, In a (map fst actions) /\ t = TriggerTask o /\ op_task_id o = trigger_id a)
  \/ (exists a w, In a (map fst actions) /\ t = WaitTask w /\ hs_task_id w = wait_id a
                  /\ hs_endpoint w = XComPull (trigger_id a) "return_value").
Proof.
  cbn [build_group tasks chained flat_map chainable_tasks app].
  intros [<-|H]; [now left|]. right.
  apply in_flat_map in H as (c & Hc & Ht).
  apply in_map_iff in Hc as (item & <- & Hitem). cbn [chainable_tasks] in Ht.
  destruct (action_group_shape item) as (o & w & Et & _ & Eo & Ew & Ee).
  rewrite Et in Ht.
  assert (Ha : In (fst item) (map fst actions)) by now apply in_map.
  destruct Ht as [<-|[<-|[]]].
  - left. now exists (fst item), o.
  - right. now exists (fst item), w.
Qed.

Lemma build_group_finds id actions :
  In id (gate_id :: action_task_ids (map fst actions)) ->
  exists t, find_task (build_group dr ids poke_interval index_suffix actions) id = Some t.
Proof.
  intros H. rewrite <- build_group_task_ids in H.
  apply in_map_iff in H as (x & Ex & Hx).
  unfold find_task.
  destruct (find _ _) as [t|] eqn:F; [now exists t|].
  pose proof (find_none _ _ F x Hx) as N. cbn beta in N.
  rewrite Ex, String.eqb_refl in N. discriminate.
Qed.

Lemma build_group_find_wait a actions :
  In a (map fst actions) ->
  exists w, find_task (build_group dr ids poke_interval index_suffix actions) (wait_id a)
            = Some (WaitTask w)
            /\ hs_task_id w = wait_id a
            /\ hs_endpoint w = XComPull (trigger_id a) "return_value".
Proof.
  intros Ha.
  destruct (@build_group_finds (wait_id a) actions) as [t F].
  { right. apply in_action_task_ids. exists a. auto. }
  pose proof (@find_task_id _ _ _ F) as Hid.
  destruct (@build_group_task_kinds actions t (@pipeline_find _ _ _ F))
    as [E|[(b & o & _ & -> & E)|(b & w & _ & -> & E & Ee)]].
  - rewrite Hid in E. symmetry in E. now apply gate_not_wait in E.
  - cbn in Hid. rewrite E in Hid. now apply trigger_not_wait in Hid.
  - cbn in Hid. rewrite E in Hid. apply wait_id_inj in Hid. subst b.
    exists w. auto.
Qed.

Lemma build_group_find_trigger a actions :
  In a (map fst actions) ->
  exists o, find_task (build_group dr ids poke_interval index_suffix actions) (trigger_id a)
            = Some (TriggerTask o).
Proof.
  intros Ha.
  destruct (@build_group_finds (trigger_id a) actions) as [t F].
  { right. apply in_action_task_ids. exists a. auto. }
  pose proof (@find_task_id _ _ _ F) as Hid.
  destruct (@build_group_task_kinds actions t (@pipeline_find _ _ _ F))
    as [E|[(b & o & _ & -> & E)|(b & w & _ & -> & E & Ee)]].
  - rewrite Hid in E. symmetry in E. now apply gate_not_trigger in E.
  - now exists o.
  - cbn in Hid. rewrite E in Hid. symmetry in Hid. now apply trigger_not_wait in Hid.
Qed.

End AnyActionMap.

(** X4. For any action map, [chain] and the nested task groups give a
    single line: the tasks are the gate and then, per action in the map's
    order, its trigger and its waiter; a trigger is upstream of its own
    waiter, the gate is upstream of the first trigger, and the waiter of
    each action is upstream of the trigger of the next one. There is no other
    dependency. *)
Theorem any_action_map_is_a_line :
  forall (dr : DataRefresh) (ids : list string) (poke_interval : Z)
         (index_suffix : string) (actions : Py.dict (Py.dict json)),
    map task_id (tasks (build_group dr ids poke_interval index_suffix actions))
    = gate_id :: action_task_ids (map fst actions)
    /\ deps (build_group dr ids poke_interval index_suffix actions)
       = (map (fun a => (trigger_id a, wait_id a)) (map fst actions)
          ++ links gate_id (map fst actions))%list.
Proof.
  intros. split; [apply build_group_task_ids|apply build_group_deps].
Qed.

(** X5. The task ids of the group built for an action map are pairwise
    distinct exactly when the action names are: the prefixes that the nested
    task groups put before [trigger_<action>] and [wait_for_<action>] keep
    the ids of different actions, of a trigger and a waiter, and of the gate
    apart. *)
Theorem task_ids_distinct_iff :
  forall (dr : DataRefresh) (ids : list string) (poke_interval : Z)
         (index_suffix : string) (actions : Py.dict (Py.dict json)),
    NoDup (map task_id (tasks (build_group dr ids poke_interval index_suffix actions)))
    <-> NoDup (map fst actions).
Proof.
  intros. rewrite build_group_task_ids. split.
  - intros H. inversion H; subst. now apply action_task_ids_nodup.
  - intros H. constructor; [apply gate_not_action|now apply action_task_ids_nodup].
Qed.

(** X6. In every run of the group built for any action map, the trigger of
    an action is called only after the waiter of the action just before it
    in the map has left its Succeeded result, and the trigger of the first
    action only after a clear check of the gate. *)
Theorem any_action_map_runs_in_order :
  forall (dr : DataRefresh) (ids : list string) (poke_interval : Z)
         (index_suffix : string) (actions : Py.dict (Py.dict json))
         (t0 : Z) (st : run_state) (post pre : list event) (b : string)
         (d : Py.dict json),
    reachable (build_group dr ids poke_interval index_suffix actions) t0 st ->
    log st = (post ++ TriggerCall (trigger_id b) d :: pre)%list ->
    (forall a, adjacent a b (map fst actions) ->
               In (PollResult (wait_id a) Succeeded) pre)
    /\ (forall rest, map fst actions = b :: rest -> In (GatePoked gate_id true) pre).
Proof.
  intros dr ids pi suffix actions t0 st post pre b d R L.
  pose proof (reachable_inv R) as I.
  split.
  - intros a A.
    assert (Ha : In a (map fst actions)).
    { destruct A as (p & q & ->). apply in_or_app. right. now left. }
    destruct (@build_group_find_wait dr ids pi suffix a actions Ha) as (w & F & Ew & _).
    assert (D : In (wait_id a, trigger_id b) (deps (build_group dr ids pi suffix actions))).
    { rewrite build_group_deps. apply in_or_app. right. now apply links_adjacent. }
    assert (H : In (success_event (WaitTask w)) pre)
      by (eapply (inv_trigger_order I); eassumption).
    cbn [success_event] in H. now rewrite Ew in H.
  - intros rest E.
    assert (D : In (gate_id, trigger_id b) (deps (build_group dr ids pi suffix actions))).
    { rewrite build_group_deps, E. apply in_or_app. right. apply links_first. }
    assert (F : find_task (build_group dr ids pi suffix actions) gate_id
                = Some (GateTask (wait_for_data_refresh ids pi))) by reflexivity.
    assert (H : In (success_event (GateTask (wait_for_data_refresh ids pi))) pre)
      by (eapply (inv_trigger_order I); eassumption).
    exact H.
Qed.

Lemma any_action_map_runs_in_order_witness :
  (forall a, adjacent a "point_alias" (map fst (action_data_map Sample.dr)) ->
             In (PollResult (wait_id a) Succeeded)
                (skipn 7 (log (Sample.state_after Sample.full_run))))
  /\ (forall rest, map fst (action_data_map Sample.dr) = "point_alias" :: rest ->
                   In (GatePoked gate_id true)
                      (skipn 7 (log (Sample.state_after Sample.full_run)))).
Proof.
  apply (@any_action_map_runs_in_order Sample.dr Sample.siblings 30 "u"
           (action_data_map Sample.dr) 0 (Sample.state_after Sample.full_run)
           (firstn 6 (log (Sample.state_after Sample.full_run)))
           (skipn 7 (log (Sample.state_after Sample.full_run)))
           "point_alias"
           [("alias", JStr "image"); ("model", JStr "image");
            ("action", JStr "POINT_ALIAS"); ("index_suffix", JStr "u")]).
  - exact sample_full_run_reachable.
  - vm_compute. reflexivity.
Defined.

(* ===================================================================== *)
(** * The NYPL provider script *)
(* ===================================================================== *)

(** X7. [_get_query_param] returns the given (or the default) parameters
    with [page] set to the requested page: every other key reads as before
    and the keys keep their order; with the defaults the keys are [q],
    [field], [page], [per_page], and [per_page] is 500. *)
Theorem query_param_only_sets_page :
  forall (defaults : option (Py.dict json)) (page : json) (k : string),
    k <> "page" ->
    Py.get (Nypl._get_query_param defaults page) "page" = Some page
    /\ Py.get (Nypl._get_query_param defaults page) k
       = Py.get (match defaults with
                 | Some d => d
                 | None => Nypl.DEFAULT_QUERY_PARAMS
                 end) k
    /\ (exists rest,
          map fst (Nypl._get_query_param defaults page)
          = (map fst (match defaults with
                      | Some d => d
                      | None => Nypl.DEFAULT_QUERY_PARAMS
                      end) ++ rest)%list)
    /\ Nypl._get_query_param None page
       = [ ("q", JStr "CC_0"); ("field", JStr "use_rtxt_s"); ("page", page);
           ("per_page", JNum (inject_Z 500)) ].
Proof.
  intros defaults page k N. unfold Nypl._get_query_param. repeat split.
  - apply get_set_same.
  - apply get_set_other. intros E. symmetry in E. contradiction.
  - apply keys_set_old.
Qed.

Lemma query_param_only_sets_page_witness :
  Py.get (Nypl._get_query_param (Some [("page", JNum (inject_Z 4)); ("q", JStr "maps")])
            (JNum (inject_Z 7))) "page" = Some (JNum (inject_Z 7))
  /\ Py.get (Nypl._get_query_param (Some [("page", JNum (inject_Z 4)); ("q", JStr "maps")])
               (JNum (inject_Z 7))) "q"
     = Py.get [("page", JNum (inject_Z 4)); ("q", JStr "maps")] "q"
  /\ (exists rest,
        map fst (Nypl._get_query_param (Some [("page", JNum (inject_Z 4)); ("q", JStr "maps")])
                   (JNum (inject_Z 7)))
        = (map fst [("page", JNum (inject_Z 4)); ("q", JStr "maps")] ++ rest)%list)
  /\ Nypl._get_query_param None (JNum (inject_Z 7))
     = [ ("q", JStr "CC_0"); ("field", JStr "use_rtxt_s"); ("page", JNum (inject_Z 7));
         ("per_page", JNum (inject_Z 500)) ].
Proof.
  apply (@query_param_only_sets_page
           (Some [("page", JNum (inject_Z 4)); ("q", JStr "maps")])
           (JNum (inject_Z 7)) "q").
  discriminate.
Defined.

Lemma dict_get_error v key default e :
  Nypl.dict_get v key default = Nypl.Err e -> e = Nypl.Exn AttributeError.
Proof. destruct v; cbn; congruence. Qed.

(** X8. [_get_title] looks at the first entry of the list only, gives
    [None] for an empty list and for anything that is not a list, and the
    text under [title] and [$] of the first entry when that entry and its
    [title] are objects; the only exception it lets out is the
    [AttributeError] of a first entry, or of a [title], that is not an
    object. *)
Theorem title_reads_first_entry :
  forall (titleinfo : json),
    (forall first rest, titleinfo = JArr (first :: rest) ->
       Nypl._get_title titleinfo = Nypl._get_title (JArr [first]))
    /\ ((forall first rest, titleinfo <> JArr (first :: rest)) ->
        Nypl._get_title titleinfo = Nypl.Ok JNull)
    /\ (forall members title_members rest,
          titleinfo = JArr (JObj members :: rest) ->
          Py.get members "title" = Some (JObj title_members) ->
          Nypl._get_title titleinfo
          = Nypl.Ok (match Py.get title_members "$" with
                     | Some t => t
                     | None => JNull
                     end))
    /\ (forall e, Nypl._get_title titleinfo = Nypl.Err e -> e = Nypl.Exn AttributeError).
Proof.
  intros titleinfo. repeat split.
  - intros first rest ->. reflexivity.
  - intros H. destruct titleinfo as [| | | |[|first rest]|]; try reflexivity.
    destruct (H first rest eq_refl).
  - intros members tm rest -> E. cbn. rewrite E. reflexivity.
  - intros e. destruct titleinfo as [| | | |[|first rest]|]; cbn; try discriminate.
    destruct (Nypl.dict_get first "title" (JObj [])) eqn:E; cbn.
    + apply dict_get_error.
    + apply dict_get_error in E. congruence.
Qed.

Lemma primary_creator_skips pre rest :
  Forall not_primary pre ->
  Nypl.primary_creator (pre ++ rest) = Nypl.primary_creator rest.
Proof.
  induction 1 as [|info pre (usage & E & N) _ IH]; [reflexivity|].
  cbn. rewrite E. cbn. rewrite N. exact IH.
Qed.

(** X9. [_get_creators] gives the name of the first entry whose [usage] is
    ["primary"], whatever follows it in the list (later primary entries and
    entries that are not objects included), and [None] when no entry is
    primary. *)
Theorem first_primary_creator_wins :
  forall (pre post : list json) (members name_part : list (string * json)),
    Forall not_primary pre ->
    Py.get members "usage" = Some (JStr "primary") ->
    Py.get members "namePart" = Some (JObj name_part) ->
    Nypl._get_creators (JArr (pre ++ JObj members :: post))
    = Nypl.Ok (match Py.get name_part "$" with
               | Some name => name
               | None => JNull
               end)
    /\ Nypl._get_creators (JArr pre) = Nypl.Ok JNull.
Proof.
  intros pre post members np Hpre Hu Hn. cbn [Nypl._get_creators]. split.
  - rewrite primary_creator_skips by exact Hpre.
    cbn. rewrite Hu. cbn. rewrite Hn. reflexivity.
  - rewrite <- (app_nil_r pre). rewrite primary_creator_skips by exact Hpre.
    reflexivity.
Qed.

Lemma first_primary_creator_wins_witness :
  Nypl._get_creators
    (JArr ([JObj [("usage", JStr "secondary")]; JObj []]
           ++ JObj [("usage", JStr "primary"); ("namePart", JObj [("$", JStr "Hine, Lewis")])]
           :: [JNull; JObj [("usage", JStr "primary")]]))
  = Nypl.Ok (match Py.get [("$", JStr "Hine, Lewis")] "$" with
             | Some name => name
             | None => JNull
             end)
  /\ Nypl._get_creators (JArr [JObj [("usage", JStr "secondary")]; JObj []])
     = Nypl.Ok JNull.
Proof.
  apply (@first_primary_creator_wins
           [JObj [("usage", JStr "secondary")]; JObj []]
           [JNull; JObj [("usage", JStr "primary")]]
           [("usage", JStr "primary"); ("namePart", JObj [("$", JStr "Hine, Lewis")])]
           [("$", JStr "Hine, Lewis")]).
  - repeat constructor.
    + exists (JStr "secondary"). split; reflexivity.
    + exists JNull. split; reflexivity.
  - reflexivity.
  - reflexivity.
Defined.

(* ===================================================================== *)
(** * The file type of an image link *)
(* ===================================================================== *)

Lemma starts_with_iff p s :
  PyStr.starts_with p s = true <-> exists post, s = p ++ post.
Proof.
  revert s. induction p as [|a p IH]; intros s; cbn.
  - split; [intros _; now exists s|reflexivity].
  - destruct s as [|b s].
    + split; [discriminate|]. intros [post E]. discriminate.
    + rewrite andb_true_iff, IH. unfold PyStr.is_char. rewrite Ascii.eqb_eq. split.
      * intros [-> [post ->]]. now exists post.
      * intros [post [= -> ->]]. split; [reflexivity|now exists post].
Qed.

Lemma filetype_here_spec s ft :
  Nypl.filetype_here s = Some ft <-> filetype_match_at "" s ft.
Proof.
  split.
  - destruct s as [|blank [|any rest]]; cbn [Nypl.filetype_here]; try discriminate.
    destruct (PyStr.is_char " " blank) eqn:B; cbn [andb]; [|discriminate].
    unfold PyStr.is_char in B. apply Ascii.eqb_eq in B. subst blank.
    destruct (Nat.eqb (nat_of_ascii any) 10) eqn:N; cbn [negb]; [discriminate|].
    apply Nat.eqb_neq in N.
    destruct (PyStr.starts_with "jpeg " rest) eqn:J.
    + intros [= <-]. apply starts_with_iff in J as [post ->].
      exists any, post. repeat split; auto.
    + destruct (PyStr.starts_with "gif " rest) eqn:G; [|discriminate].
      intros [= <-]. apply starts_with_iff in G as [post ->].
      exists any, post. repeat split; auto.
  - intros (c & post & -> & N & F). apply Nat.eqb_neq in N.
    destruct F as [->| ->]; cbn; rewrite N; reflexivity.
Qed.

Lemma filetype_search_spec s :
  match Nypl.filetype_search s with
  | Some ft =>
      exists pre, filetype_match_at pre s ft
                  /\ forall pre' ft', filetype_match_at pre' s ft' ->
                                      (String.length pre <= String.length pre')%nat
  | None => forall pre ft, ~ filetype_match_at pre s ft
  end.
Proof.
  induction s as [|a s IH].
  - cbn. intros pre ft (c & post & E & _). destruct pre; discriminate.
  - cbn [Nypl.filetype_search].
    destruct (Nypl.filetype_here (String a s)) as [g|] eqn:H.
    + exists "". split; [now apply filetype_here_spec|]. intros. cbn. lia.
    + assert (Hhead : forall ft', ~ filetype_match_at "" (String a s) ft').
      { intros ft' M. apply filetype_here_spec in M. congruence. }
      destruct (Nypl.filetype_search s) as [ft|].
      * destruct IH as (pre & (c & post & E & N & F) & Least).
        exists (String a pre). split.
        -- exists c, post. rewrite E. auto.
        -- intros [|a' pre'] ft' M; [destruct (Hhead _ M)|].
           destruct M as (c' & post' & E' & N' & F').
           cbn in E'. injection E' as _ E'.
           cbn. apply le_n_S. apply (Least pre' ft').
           exists c', post'. auto.
      * intros [|a' pre'] ft' M; [destruct (Hhead _ M)|].
        destruct M as (c' & post' & E' & N' & F').
        cbn in E'. injection E' as _ E'.
        apply (IH pre' ft'). exists c', post'. auto.
Qed.

(** X10. [_get_filetype] finds the leftmost place of the description where
    a blank, one character that is not a newline, the word [jpeg] or [gif]
    and a blank follow one another, and gives that word; the character
    before the word need not be a dot. Without such a place it gives
    [None], and a description that is not a text raises [TypeError]. *)
Theorem filetype_is_leftmost_match :
  forall (description : json),
    match description with
    | JStr s =>
        exists r, Nypl._get_filetype description = Nypl.Ok r
          /\ match r with
             | Some ft =>
                 exists pre, filetype_match_at pre s ft
                   /\ forall pre' ft', filetype_match_at pre' s ft' ->
                                       (String.length pre <= String.length pre')%nat
             | None => forall ft, ~ filetype_match s ft
             end
    | _ => Nypl._get_filetype description = Nypl.Err (Nypl.Exn TypeError)
    end.
Proof.
  intros [| | |s| |]; try reflexivity.
  exists (Nypl.filetype_search s). split; [reflexivity|].
  pose proof (filetype_search_spec s) as H.
  destruct (Nypl.filetype_search s) as [ft|]; [exact H|].
  intros ft (pre & c & post & M). apply (H pre ft). now exists c, post.
Qed.

(* ===================================================================== *)
(** * The image chosen among the links of a capture *)
(* ===================================================================== *)

Section ImageChoice.

Variable parse_qs : strlike -> Py.dict (list string).

Lemma image_types_ok imgs entries : forall acc,
  image_entries parse_qs imgs entries ->
  Nypl.image_types parse_qs imgs acc = Nypl.Ok (Py.union acc entries).
Proof.
  intros acc H. revert acc.
  induction H as [|img entry imgs entries E _ IH]; intros acc; [reflexivity|].
  cbn [Nypl.image_types]. rewrite E. cbn [Nypl.bind]. rewrite IH. reflexivity.
Qed.

Lemma set_not_nil {V : Type} (d : Py.dict V) k v : Py.set d k v <> [].
Proof. destruct d as [|[k' v'] d]; cbn; [discriminate|]. destruct (String.eqb k' k); discriminate. Qed.

Lemma union_keeps_some {V : Type} (b : Py.dict V) : forall a, a <> [] -> Py.union a b <> [].
Proof.
  induction b as [|[k v] b IH]; intros a H; [exact H|].
  unfold Py.union. cbn [fold_left fst snd]. apply IH. apply set_not_nil.
Qed.

Lemma union_not_nil {V : Type} (a b : Py.dict V) : b <> [] -> Py.union a b <> [].
Proof.
  destruct b as [|[k v] b]; [congruence|]. intros _.
  unfold Py.union. cbn [fold_left fst snd]. apply union_keeps_some. apply set_not_nil.
Qed.

Lemma get_union_other {V : Type} (b : Py.dict V) k : forall a,
  ~ In k (map fst b) -> Py.get (Py.union a b) k = Py.get a k.
Proof.
  induction b as [|[k' v] b IH]; intros a H; [reflexivity|].
  unfold Py.union. cbn [fold_left fst snd].
  change (Py.get (Py.union (Py.set a k' v) b) k = Py.get a k).
  rewrite IH.
  - apply get_set_other. intros ->. apply H. now left.
  - intros Hin. apply H. now right.
Qed.

Lemma get_union_last {V : Type} (pre post : Py.dict V) k v : forall a,
  ~ In k (map fst post) ->
  Py.get (Py.union a (pre ++ (k, v) :: post)%list) k = Some v.
Proof.
  induction pre as [|[k' v'] pre IH]; intros a H.
  - unfold Py.union. cbn [app fold_left fst snd].
    change (Py.get (Py.union (Py.set a k v) post) k = Some v).
    rewrite get_union_other by exact H. apply get_set_same.
  - unfold Py.union. cbn [app fold_left fst snd].
    apply (IH (Py.set a k' v')). exact H.
Qed.

Lemma preferred_image_first before d after (image_type : Py.dict Nypl.image_link) link :
  (forall d', In d' before -> Py.get image_type d' = None) ->
  Py.get image_type d = Some link ->
  Nypl.preferred_image (before ++ d :: after)%list image_type = Some link.
Proof.
  intros Hb Hd. induction before as [|d0 before IH]; cbn.
  - now rewrite Hd.
  - rewrite (Hb d0) by now left. apply IH. intros d' H. apply Hb. now right.
Qed.

Lemma preferred_image_none dims (image_type : Py.dict Nypl.image_link) :
  (forall d, In d dims -> Py.get image_type d = None) ->
  Nypl.preferred_image dims image_type = None.
Proof.
  intros H. induction dims as [|d dims IH]; [reflexivity|].
  cbn. rewrite (H d) by now left. apply IH. intros d' Hd. apply H. now right.
Qed.

End ImageChoice.

(** X11. When no link of the list raises, [_get_image_data] takes the link
    whose [t] field is the first of [g], [v], [q], [w], [r] that occurs
    among the links, and among several links with that [t] the last one;
    its URL is returned without ["&download=1"] and its description gives
    the file type. *)
Theorem image_data_prefers_first_dimension :
  forall (parse_qs : strlike -> Py.dict (list string)) (imgs : list json)
         (entries pre post : list (string * Nypl.image_link))
         (before after : list string) (d : string) (link : Nypl.image_link),
    image_entries parse_qs imgs entries ->
    Nypl.IMAGE_URL_DIMENSIONS = (before ++ d :: after)%list ->
    (forall d', In d' before -> ~ In d' (map fst entries)) ->
    entries = (pre ++ (d, link) :: post)%list ->
    ~ In d (map fst post) ->
    Nypl._get_image_data parse_qs (JArr imgs) = link_data link.
Proof.
  intros parse_qs imgs entries pre post before after d link He Hd Hb Hentries Hpost.
  unfold Nypl._get_image_data. cbn [Nypl.iterate Nypl.bind].
  rewrite (image_types_ok [] He). cbn [Nypl.bind].
  assert (Hn : Py.union [] entries <> []).
  { apply union_not_nil. rewrite Hentries. destruct pre; discriminate. }
  assert (Hp : Nypl.preferred_image Nypl.IMAGE_URL_DIMENSIONS (Py.union [] entries)
               = Some link).
  { rewrite Hd. apply preferred_image_first.
    - intros d' Hin. rewrite get_union_other by now apply Hb. reflexivity.
    - rewrite Hentries. now apply get_union_last. }
  destruct (Py.union [] entries) as [|e u]; [congruence|].
  rewrite Hp. reflexivity.
Qed.

Lemma image_data_prefers_first_dimension_witness :
  Nypl._get_image_data sample_parse_qs
    (JArr [ sample_link "r" "Thumb .gif (100 pixels)";
            sample_link "q&download=1" "Cropped .jpeg (1600 pixels on the long side)";
            sample_link "w&download=1" "Web .jpeg (760 pixels)";
            sample_link "q&download=1&again" "Cropped .gif (1600 pixels)";
            sample_link "b" "Small .gif (bare)" ])
  = link_data
      (Nypl.mkImageLink (JStr "http://images.nypl.org/index.php?q&download=1&again")
         (JStr "Cropped .gif (1600 pixels)")).
Proof.
  apply (@image_data_prefers_first_dimension sample_parse_qs
           [ sample_link "r" "Thumb .gif (100 pixels)";
             sample_link "q&download=1" "Cropped .jpeg (1600 pixels on the long side)";
             sample_link "w&download=1" "Web .jpeg (760 pixels)";
             sample_link "q&download=1&again" "Cropped .gif (1600 pixels)";
             sample_link "b" "Small .gif (bare)" ]
           [ ("r", Nypl.mkImageLink (JStr "http://images.nypl.org/index.php?r")
                     (JStr "Thumb .gif (100 pixels)"));
             ("q", Nypl.mkImageLink (JStr "http://images.nypl.org/index.php?q&download=1")
                     (JStr "Cropped .jpeg (1600 pixels on the long side)"));
             ("w", Nypl.mkImageLink (JStr "http://images.nypl.org/index.php?w&download=1")
                     (JStr "Web .jpeg (760 pixels)"));
             ("q", Nypl.mkImageLink
                     (JStr "http://images.nypl.org/index.php?q&download=1&again")
                     (JStr "Cropped .gif (1600 pixels)"));
             ("b", Nypl.mkImageLink (JStr "http://images.nypl.org/index.php?b")
                     (JStr "Small .gif (bare)")) ]
           [ ("r", Nypl.mkImageLink (JStr "http://images.nypl.org/index.php?r")
                     (JStr "Thumb .gif (100 pixels)"));
             ("q", Nypl.mkImageLink (JStr "http://images.nypl.org/index.php?q&download=1")
                     (JStr "Cropped .jpeg (1600 pixels on the long side)"));
             ("w", Nypl.mkImageLink (JStr "http://images.nypl.org/index.php?w&download=1")
                     (JStr "Web .jpeg (760 pixels)")) ]
           [ ("b", Nypl.mkImageLink (JStr "http://images.nypl.org/index.php?b")
                     (JStr "Small .gif (bare)")) ]
           ["g"; "v"] ["w"; "r"] "q"
           (Nypl.mkImageLink (JStr "http://images.nypl.org/index.php?q&download=1&again")
              (JStr "Cropped .gif (1600 pixels)"))).
  - repeat constructor.
  - reflexivity.
  - intros d' [<-|[<-|[]]]; cbn; intros H;
      repeat (destruct H as [H|H]; [discriminate|]); exact H.
  - reflexivity.
  - cbn. intros [H|[]]. discriminate.
Defined.

(** X12. A list of links of which none has a [t] among [g], [v], [q], [w],
    [r] makes [_get_image_data] raise [TypeError] (the unpacking of the
    [None] that [next] gives), unless the list is empty, for which the pair
    [(None, None)] is returned. *)
Theorem image_data_without_known_dimension :
  forall (parse_qs : strlike -> Py.dict (list string)) (imgs : list json)
         (entries : list (string * Nypl.image_link)),
    image_entries parse_qs imgs entries ->
    (forall d, In d Nypl.IMAGE_URL_DIMENSIONS -> ~ In d (map fst entries)) ->
    Nypl._get_image_data parse_qs (JArr imgs)
    = match imgs with
      | [] => Nypl.Ok (None, None)
      | _ => Nypl.Err (Nypl.Exn TypeError)
      end.
Proof.
  intros parse_qs imgs entries He Hd.
  unfold Nypl._get_image_data. cbn [Nypl.iterate Nypl.bind].
  rewrite (image_types_ok [] He). cbn [Nypl.bind].
  destruct He as [|img entry imgs entries E He]; [reflexivity|].
  assert (Hn : Py.union [] (entry :: entries) <> []) by (apply union_not_nil; discriminate).
  assert (Hp : Nypl.preferred_image Nypl.IMAGE_URL_DIMENSIONS (Py.union [] (entry :: entries))
               = None).
  { apply preferred_image_none. intros d Hin.
    rewrite get_union_other by now apply Hd. reflexivity. }
  destruct (Py.union [] (entry :: entries)) as [|e u]; [congruence|].
  rewrite Hp. reflexivity.
Qed.

Lemma image_data_without_known_dimension_witness :
  Nypl._get_image_data sample_parse_qs
    (JArr [sample_link "b" "Small .gif (bare)"; sample_link "t" "Thumb .gif (tiny)"])
  = Nypl.Err (Nypl.Exn TypeError).
Proof.
  apply (@image_data_without_known_dimension sample_parse_qs
           [sample_link "b" "Small .gif (bare)"; sample_link "t" "Thumb .gif (tiny)"]
           [ ("b", Nypl.mkImageLink (JStr "http://images.nypl.org/index.php?b")
                     (JStr "Small .gif (bare)"));
             ("t", Nypl.mkImageLink (JStr "http://images.nypl.org/index.php?t")
                     (JStr "Thumb .gif (tiny)")) ]).
  - repeat constructor.
  - cbn. intros d H1 H2.
    repeat (destruct H1 as [H1|H1];
            [subst d; repeat (destruct H2 as [H2|H2]; [discriminate|]); exact H2|]).
    exact H1.
Defined.

(* ===================================================================== *)
(** * The metadata of an item *)
(* ===================================================================== *)

Ltac next_stage H x E :=
  cbv zeta in H;
  match type of H with
  | Nypl.bind ?m _ = _ =>
      destruct m as [x|] eqn:E; cbn [Nypl.bind] in H; [|discriminate]
  end.

Lemma metadata_stages mods md :
  Nypl._get_metadata mods = Nypl.Ok md ->
  exists m1 m2 v3 v4 v5,
    (m1 = [] \/ exists v, m1 = [("type_of_resource", v)])
    /\ (m2 = m1 \/ exists v, m2 = Py.set m1 "genre" v)
    /\ md = Nypl.set_if_truthy
              (Nypl.set_if_truthy (Nypl.set_if_truthy m2 "date_issued" v3) "publisher" v4)
              "description" v5.
Proof.
  intros H. unfold Nypl._get_metadata in H.
  next_stage H tor0 Etor. next_stage H m1 E1.
  next_stage H genre0 Egenre. next_stage H m2 E2.
  next_stage H origin0 Eo. next_stage H issued0 Ei. next_stage H v3 E3.
  next_stage H published0 Ep. next_stage H v4 E4.
  next_stage H physical0 Eph. next_stage H note0 En. next_stage H v5 E5.
  cbv zeta in H. injection H as <-.
  exists m1, m2, v3, v4, v5. split; [|split; [|reflexivity]].
  - destruct tor0; try (injection E1 as <-; now left).
    destruct items as [|head items]; [discriminate|]. cbn [Nypl.first Nypl.bind] in E1.
    next_stage E1 usage0 Eu. destruct (Nypl.is_primary usage0).
    + next_stage E1 value0 Ev. injection E1 as <-. right. eexists. reflexivity.
    + injection E1 as <-. now left.
  - destruct genre0; try (injection E2 as <-; now left).
    next_stage E2 value0 Ev. injection E2 as <-. right. eexists. reflexivity.
Qed.

(** X13. The metadata that [_get_metadata] returns has its keys among
    [type_of_resource], [genre], [date_issued], [publisher] and
    [description], in this order and each at most once; [date_issued],
    [publisher] and [description] are present only with a value that is
    true in Python's sense (never [None] or an empty text). *)
Theorem metadata_keys_in_order :
  forall (mods : json) (metadata : Py.dict json),
    Nypl._get_metadata mods = Nypl.Ok metadata ->
    (exists keep, map fst metadata = filter keep metadata_keys)
    /\ (forall k v, In k ["date_issued"; "publisher"; "description"] ->
                    Py.get metadata k = Some v -> truthy v = true).
Proof.
  intros mods md H.
  destruct (metadata_stages _ H) as (m1 & m2 & v3 & v4 & v5 & A1 & A2 & ->).
  unfold Nypl.set_if_truthy.
  destruct A1 as [->|[v1 ->]]; destruct A2 as [->|[v2 ->]];
    destruct (truthy v3) eqn:T3; destruct (truthy v4) eqn:T4; destruct (truthy v5) eqn:T5;
    cbn;
    (split;
     [ match goal with
       | |- exists keep, ?ks = _ => exists (fun k => existsb (String.eqb k) ks)
       end; reflexivity
     | intros k v [<-|[<-|[<-|[]]]]; cbn; intros E; try discriminate;
       injection E as <-; assumption ]).
Qed.

Lemma metadata_keys_in_order_witness :
  (exists keep,
     map fst [("genre", JStr "Maps"); ("publisher", JStr "NYPL")]
     = filter keep metadata_keys)
  /\ (forall k v, In k ["date_issued"; "publisher"; "description"] ->
                  Py.get [("genre", JStr "Maps"); ("publisher", JStr "NYPL")] k = Some v ->
                  truthy v = true).
Proof.
  apply (@metadata_keys_in_order
           (JObj [ ("typeOfResource", JArr [JObj [("usage", JStr "secondary")]]);
                   ("genre", JObj [("$", JStr "Maps")]);
                   ("originInfo", JObj [ ("dateIssued", JObj [("$", JStr "")]);
                                         ("publisher", JObj [("$", JStr "NYPL")]) ]) ])
           [("genre", JStr "Maps"); ("publisher", JStr "NYPL")]).
  reflexivity.
Defined.

Lemma first_stage_error (tor : json) (m : Py.dict json) e :
  match tor with
  | JArr items =>
      Nypl.bind (Nypl.first items) (fun head =>
      Nypl.bind (Nypl.dict_get head "usage" JNull) (fun usage =>
      if Nypl.is_primary usage then
        Nypl.bind (Nypl.dict_get head "$" JNull) (fun value =>
        Nypl.Ok (Py.set m "type_of_resource" value))
      else Nypl.Ok m))
  | _ => Nypl.Ok m
  end = Nypl.Err e ->
  (e = Nypl.IndexError /\ tor = JArr []) \/ e = Nypl.Exn AttributeError.
Proof.
  destruct tor; try discriminate. destruct items as [|head items]; cbn [Nypl.first Nypl.bind].
  - intros [= <-]. now left.
  - intros H. right.
    destruct (Nypl.dict_get head "usage" JNull) as [usage0|e0] eqn:Eu; cbn [Nypl.bind] in H.
    + destruct (Nypl.is_primary usage0); [|discriminate].
      destruct (Nypl.dict_get head "$" JNull) eqn:Ev; cbn [Nypl.bind] in H; [discriminate|].
      injection H as <-. eapply dict_get_error; eassumption.
    + injection H as <-. eapply dict_get_error; eassumption.
Qed.

Ltac stage_or_error H x E :=
  cbv zeta in H;
  match type of H with
  | Nypl.bind ?m _ = _ =>
      destruct m as [x|] eqn:E; cbn [Nypl.bind] in H;
      [|injection H as <-; right; eapply dict_get_error; eassumption]
  end.

(** X14. [_get_metadata] raises [IndexError] exactly when [typeOfResource]
    is an empty list, whatever else the item holds; the only other
    exception it lets out is the [AttributeError] of a [.get] on something
    that is not an object. *)
Theorem metadata_errors :
  forall (mods : json),
    (Nypl._get_metadata mods = Nypl.Err Nypl.IndexError
     <-> Nypl.dict_get mods "typeOfResource" JNull = Nypl.Ok (JArr []))
    /\ (forall e, Nypl._get_metadata mods = Nypl.Err e ->
                  e = Nypl.IndexError \/ e = Nypl.Exn AttributeError).
Proof.
  intros mods.
  assert (G : forall e, Nypl._get_metadata mods = Nypl.Err e ->
                (e = Nypl.IndexError
                 /\ Nypl.dict_get mods "typeOfResource" JNull = Nypl.Ok (JArr []))
                \/ e = Nypl.Exn AttributeError).
  { intros e H. unfold Nypl._get_metadata in H.
    stage_or_error H tor0 Etor.
    cbv zeta in H.
    match type of H with
    | Nypl.bind ?m _ = _ => destruct m as [m1|e1] eqn:E1; cbn [Nypl.bind] in H
    end.
    - stage_or_error H genre0 Egenre.
      match type of H with
      | Nypl.bind ?m _ = _ => destruct m as [m2|e2] eqn:E2; cbn [Nypl.bind] in H
      end.
      + stage_or_error H origin0 Eo. stage_or_error H issued0 Ei.
        stage_or_error H v3 E3. stage_or_error H published0 Ep.
        stage_or_error H v4 E4. stage_or_error H physical0 Eph.
        stage_or_error H note0 En. stage_or_error H v5 E5.
        discriminate.
      + destruct genre0; discriminate.
    - injection H as <-. apply first_stage_error in E1 as [[-> ->]| ->]; auto. }
  split; [split|].
  - intros H. destruct (G _ H) as [[_ E]|E]; [exact E|discriminate].
  - intros E. unfold Nypl._get_metadata. rewrite E. reflexivity.
  - intros e H. destruct (G _ H) as [[-> _]| ->]; auto.
Qed.

(* ===================================================================== *)
(** * Requests and retries *)
(* ===================================================================== *)

Section Requests.

Variable L : Type.
Variable server : list Nypl.request -> option Response.
Variable rq : Nypl.request.

Lemma after_requests_zero (w : Nypl.world L) : after_requests w rq 0 = w.
Proof. destruct w. unfold after_requests. cbn. now rewrite app_nil_r. Qed.

Lemma after_requests_succ (w : Nypl.world L) k :
  after_requests (after_requests w rq 1) rq k = after_requests w rq (S k).
Proof. unfold after_requests. cbn. now rewrite <- app_assoc. Qed.

Lemma after_requests_last (w : Nypl.world L) k :
  after_requests (after_requests w rq k) rq 1 = after_requests w rq (S k).
Proof.
  unfold after_requests. cbn [Nypl.sent Nypl.added Nypl.commits].
  rewrite <- app_assoc. change (S k) with (1 + k)%nat.
  now rewrite Nat.add_comm, repeat_app.
Qed.

Lemma request_loop_retries k : forall left (w : Nypl.world L),
  (forall i, (i < k)%nat -> unusable (server (Nypl.sent w ++ repeat rq (S i)))) ->
  (k <= left)%nat ->
  Nypl.request_loop server rq left w
  = Nypl.request_loop server rq (left - k) (after_requests w rq k).
Proof.
  induction k as [|k IH]; intros left w Hbad Hle.
  - now rewrite Nat.sub_0_r, after_requests_zero.
  - destruct left as [|left]; [lia|].
    cbn [Nypl.request_loop Nypl.sent Nat.sub].
    destruct (Hbad 0%nat ltac:(lia)) as (r & E & Hr). cbn [repeat] in E. rewrite E.
    assert (Step : (if status_code r =? 200
                    then match Nypl.read_results r with
                         | Nypl.Ok results =>
                             (Nypl.Ok results, after_requests w rq 1)
                         | Nypl.Err _ =>
                             Nypl.request_loop server rq left (after_requests w rq 1)
                         end
                    else Nypl.request_loop server rq left (after_requests w rq 1))
                   = Nypl.request_loop server rq left (after_requests w rq 1)).
    { destruct Hr as [N|[e Er]].
      - apply Z.eqb_neq in N. now rewrite N.
      - rewrite Er. now destruct (status_code r =? 200). }
    unfold after_requests in Step at 1 2 3. cbn [repeat] in Step. rewrite Step.
    rewrite (IH left (after_requests w rq 1)).
    + now rewrite after_requests_succ.
    + intros i Hi. cbn [after_requests Nypl.sent]. unfold after_requests. cbn [Nypl.sent].
      rewrite <- app_assoc. apply (Hbad (S i)). lia.
    + lia.
Qed.

Lemma request_loop_conclusive left (w : Nypl.world L) :
  conclusive (server (Nypl.sent w ++ [rq])) ->
  Nypl.request_loop server rq (S left) w
  = (conclusion (server (Nypl.sent w ++ [rq])), after_requests w rq 1).
Proof.
  intros H. cbn [Nypl.request_loop Nypl.sent]. unfold after_requests. cbn [repeat].
  destruct H as [E|(r & results & E & S200 & Er)]; rewrite E; cbn [conclusion].
  - reflexivity.
  - apply Z.eqb_eq in S200. now rewrite S200, Er.
Qed.

(** Whatever the replies are, a call sends at most [left] copies of its
    request and touches nothing else. *)
Lemma request_loop_world left : forall (w : Nypl.world L),
  exists k, (k <= left)%nat /\ (left = 0%nat \/ 1 <= k)%nat
            /\ snd (Nypl.request_loop server rq left w) = after_requests w rq k.
Proof.
  induction left as [|left IH]; intros w.
  - exists 0%nat. split; [lia|]. split; [now left|]. cbn. now rewrite after_requests_zero.
  - cbn [Nypl.request_loop Nypl.sent].
    change (Nypl.mkWorld (Nypl.sent w ++ [rq]) (Nypl.added w) (Nypl.commits w))
      with (after_requests w rq 1).
    destruct (IH (after_requests w rq 1)) as (k & Hk & _ & Ek).
    rewrite after_requests_succ in Ek.
    destruct (server (Nypl.sent w ++ [rq])) as [r|].
    + destruct (status_code r =? 200).
      * destruct (Nypl.read_results r).
        -- exists 1%nat. repeat split; lia.
        -- exists (S k). repeat split; [lia|right; lia|exact Ek].
      * exists (S k). repeat split; [lia|right; lia|exact Ek].
    + exists 1%nat. repeat split; lia.
Qed.

End Requests.

(** X15. [_request_handler] sends its request again after every reply whose
    status is not 200 or whose body cannot be read, and stops at the first
    reply that is conclusive: it returns what [nyplAPI.response] holds in
    that reply (or raises [AttributeError] when there is no response object
    at all), having sent exactly the requests up to that one and nothing
    more. *)
Theorem request_handler_stops_at_first_conclusive_reply :
  forall (L : Type) (NYPL_API : option string)
         (server : list Nypl.request -> option Response)
         (endpoint : option string) (params : option (Py.dict json))
         (headers : option (Py.dict string)) (retries : option Z)
         (w : Nypl.world L) (n : nat),
    (n < Z.to_nat (match retries with Some r => r | None => Nypl.RETRIES end))%nat ->
    (forall i, (i < n)%nat ->
       unusable (server (Nypl.sent w
                         ++ repeat (request_of NYPL_API endpoint params headers) (S i))%list)) ->
    conclusive (server (Nypl.sent w
                        ++ repeat (request_of NYPL_API endpoint params headers) (S n))%list) ->
    Nypl._request_handler NYPL_API server endpoint params headers retries w
    = (conclusion (server (Nypl.sent w
                        ++ repeat (request_of NYPL_API endpoint params headers) (S n))%list),
       after_requests w (request_of NYPL_API endpoint params headers) (S n)).
Proof.
  intros L api server endpoint params headers retries w n Hn Hbad Hgood.
  unfold Nypl._request_handler.
  change (Nypl.mkRequest _ params _) with (request_of api endpoint params headers).
  set (rq := request_of api endpoint params headers) in *.
  rewrite (@request_loop_retries L server rq n _ w Hbad) by lia.
  destruct (Z.to_nat (match retries with Some r => r | None => Nypl.RETRIES end) - n)%nat
    as [|left] eqn:El; [lia|].
  assert (Es : (Nypl.sent (after_requests w rq n) ++ [rq] = Nypl.sent w ++ repeat rq (S n))%list).
  { unfold after_requests. cbn [Nypl.sent]. rewrite <- app_assoc. f_equal.
    change (S n) with (1 + n)%nat. now rewrite Nat.add_comm, repeat_app. }
  rewrite request_loop_conclusive; rewrite Es; [|exact Hgood].
  now rewrite after_requests_last.
Qed.

Lemma request_handler_stops_at_first_conclusive_reply_witness :
  Nypl._request_handler None flaky_server None None None None (Nypl.start unit)
  = (conclusion (flaky_server
                   (Nypl.sent (Nypl.start unit) ++ repeat (request_of None None None None) 3)%list),
     after_requests (Nypl.start unit) (request_of None None None None) 3).
Proof.
  apply (@request_handler_stops_at_first_conclusive_reply unit None flaky_server
           None None None None (Nypl.start unit) 2).
  - cbn. lia.
  - intros [|[|i]] Hi; [| |lia].
    + eexists. split; [reflexivity|]. left. discriminate.
    + eexists. split; [reflexivity|]. right. eexists. reflexivity.
  - right. do 2 eexists. repeat split.
Defined.

Lemma request_handler_exhausted (L : Type) (NYPL_API : option string)
    (server : list Nypl.request -> option Response)
    (endpoint : option string) (params : option (Py.dict json))
    (headers : option (Py.dict string)) (retries : option Z) (w : Nypl.world L) :
  (forall i,
     (i < Z.to_nat (match retries with Some r => r | None => Nypl.RETRIES end))%nat ->
     unusable (server (Nypl.sent w
                       ++ repeat (request_of NYPL_API endpoint params headers) (S i))%list)) ->
  Nypl._request_handler NYPL_API server endpoint params headers retries w
  = (Nypl.Ok JNull,
     after_requests w (request_of NYPL_API endpoint params headers)
       (Z.to_nat (match retries with Some r => r | None => Nypl.RETRIES end))).
Proof.
  intros Hbad. unfold Nypl._request_handler.
  change (Nypl.mkRequest _ params _) with (request_of NYPL_API endpoint params headers).
  rewrite (@request_loop_retries L server _ _ _ w Hbad) by lia.
  now rewrite Nat.sub_diag.
Qed.

Lemma request_handler_world (L : Type) (NYPL_API : option string)
    (server : list Nypl.request -> option Response)
    (endpoint : option string) (params : option (Py.dict json))
    (headers : option (Py.dict string)) (retries : option Z) (w : Nypl.world L) :
  exists k,
    (k <= Z.to_nat (match retries with Some r => r | None => Nypl.RETRIES end))%nat
    /\ (Z.to_nat (match retries with Some r => r | None => Nypl.RETRIES end) = 0%nat
        \/ 1 <= k)%nat
    /\ snd (Nypl._request_handler NYPL_API server endpoint params headers retries w)
       = after_requests w (request_of NYPL_API endpoint params headers) k.
Proof. unfold Nypl._request_handler. apply request_loop_world. Qed.

(** X16. When every reply is unusable, [_request_handler] gives up after
    exactly [retries] requests (three by default, none at all for a count
    that is not positive) and returns [None]; it raises nothing. *)
Theorem request_handler_gives_up :
  forall (L : Type) (NYPL_API : option string)
         (server : list Nypl.request -> option Response)
         (endpoint : option string) (params : option (Py.dict json))
         (headers : option (Py.dict string)) (retries : option Z)
         (w : Nypl.world L),
    (forall i,
       (i < Z.to_nat (match retries with Some r => r | None => Nypl.RETRIES end))%nat ->
       unusable (server (Nypl.sent w
                         ++ repeat (request_of NYPL_API endpoint params headers) (S i))%list)) ->
    Nypl._request_handler NYPL_API server endpoint params headers retries w
    = (Nypl.Ok JNull,
       after_requests w (request_of NYPL_API endpoint params headers)
         (Z.to_nat (match retries with Some r => r | None => Nypl.RETRIES end))).
Proof.
  intros L api server endpoint params headers retries w Hbad.
  now apply request_handler_exhausted.
Qed.

Lemma request_handler_gives_up_witness :
  Nypl._request_handler None dead_server (Some "http://api.repo.nypl.org/x") None None
    (Some 2) (Nypl.start unit)
  = (Nypl.Ok JNull,
     after_requests (Nypl.start unit)
       (request_of None (Some "http://api.repo.nypl.org/x") None None) (Z.to_nat 2)).
Proof.
  apply (@request_handler_gives_up unit None dead_server
           (Some "http://api.repo.nypl.org/x") None None (Some 2) (Nypl.start unit)).
  intros i _. eexists. split; [reflexivity|]. left. discriminate.
Defined.

(* ===================================================================== *)
(** * The items handed to the image store *)
(* ===================================================================== *)

Section Store.

Variable parse_qs : strlike -> Py.dict (list string).
Variable L : Type.
Variable get_license_info : json -> L.
Variable NYPL_API : option string.
Variable server : list Nypl.request -> option Response.

Ltac item_stage H x E :=
  match type of H with
  | Nypl.bind ?m _ = _ =>
      destruct m as [x|] eqn:E; cbn [Nypl.bind] in H; [|discriminate]
  end.

Lemma capture_item_complete img metadata creator title call :
  Nypl.capture_item parse_qs get_license_info img metadata creator title
  = Nypl.Ok (Some call) ->
  complete_item get_license_info metadata creator title call.
Proof.
  intros H. unfold Nypl.capture_item in H.
  item_stage H holder0 E1. item_stage H image_id0 E2.
  destruct (Nypl.is_none image_id0) eqn:Nid; [discriminate|].
  item_stage H links0 E3. item_stage H link0 E4. item_stage H data0 E5.
  item_stage H item_link0 E6. item_stage H landing0 E7.
  item_stage H rights0 E8. item_stage H license0 E9.
  destruct (fst data0) as [url0|]; [|discriminate].
  destruct (Nypl.is_none landing0) eqn:Nl; [discriminate|].
  destruct (Nypl.is_none license0) eqn:Nu; [discriminate|].
  cbn [orb] in H. injection H as <-.
  unfold complete_item. cbn. repeat split; try assumption.
  exists license0. split; [assumption|reflexivity].
Qed.

Lemma capture_loop_world metadata creator title captures : forall (w : Nypl.world L),
  exists calls,
    snd (Nypl.capture_loop parse_qs get_license_info captures metadata creator title w)
    = Nypl.mkWorld (Nypl.sent w) (Nypl.added w ++ calls) (Nypl.commits w)
    /\ (List.length calls <= List.length captures)%nat
    /\ Forall (complete_item get_license_info metadata creator title) calls.
Proof.
  induction captures as [|img captures IH]; intros w.
  - exists []. cbn. rewrite app_nil_r. destruct w. repeat split; auto.
  - cbn [Nypl.capture_loop].
    destruct (Nypl.capture_item parse_qs get_license_info img metadata creator title)
      as [[call|]|e] eqn:E.
    + destruct (IH (Nypl.mkWorld (Nypl.sent w) (Nypl.added w ++ [call]) (Nypl.commits w)))
        as (calls & Ew & Hl & Hc).
      exists (call :: calls). rewrite Ew. cbn [Nypl.sent Nypl.added Nypl.commits].
      rewrite <- app_assoc. repeat split; [cbn; lia|].
      constructor; [now apply capture_item_complete in E|exact Hc].
    + destruct (IH w) as (calls & Ew & Hl & Hc).
      exists calls. rewrite Ew. repeat split; [cbn; lia|exact Hc].
    + exists []. cbn. rewrite app_nil_r. destruct w. repeat split; auto. lia.
Qed.

(** What [_handle_results] leaves behind, whether it returns or raises. *)
Lemma handle_results_world results : forall (w : Nypl.world L),
  exists reqs calls,
    snd (Nypl._handle_results parse_qs get_license_info NYPL_API server results w)
    = Nypl.mkWorld (Nypl.sent w ++ reqs) (Nypl.added w ++ calls) (Nypl.commits w)
    /\ (List.length reqs <= 3 * List.length results)%nat
    /\ Forall (details_request NYPL_API results) reqs.
Proof.
  induction results as [|item results IH]; intros w.
  - exists [], []. cbn. rewrite !app_nil_r. destruct w. repeat split; auto.
  - assert (Keep : forall reqs, Forall (details_request NYPL_API results) reqs ->
                                Forall (details_request NYPL_API (item :: results)) reqs).
    { intros reqs H. eapply Forall_impl; [|exact H].
      intros rq (it & uuid & Hin & Hu & Hrq). exists it, uuid. repeat split; auto.
      now right. }
    assert (Stop : forall w1 : Nypl.world L,
               w1 = Nypl.mkWorld (Nypl.sent w1) (Nypl.added w1) (Nypl.commits w1)).
    { now intros []. }
    cbn [Nypl._handle_results].
    destruct (Nypl.dict_get item "uuid" JNull) as [uuid0|e] eqn:Eu; cbn [Nypl.bind].
    2:{ exists [], []. cbn. rewrite !app_nil_r. repeat split; auto; lia. }
    destruct uuid0 as [| | |uuid| |]; cbn [Nypl.metadata_endpoint];
      try (exists [], []; cbn; rewrite !app_nil_r; repeat split; auto; lia).
    destruct (request_handler_world NYPL_API server
                (Some (Nypl.METADATA_ENDPOINT ++ uuid)) None None None w)
      as (k & Hk & Hk1 & Ek).
    change (Z.to_nat Nypl.RETRIES) with 3%nat in Hk.
    set (rq := request_of NYPL_API (Some (Nypl.METADATA_ENDPOINT ++ uuid)) None None) in *.
    assert (Hrq : Forall (details_request NYPL_API (item :: results)) (repeat rq k)).
    { apply Forall_forall. intros x Hx. apply repeat_spec in Hx. subst x.
      exists item, uuid. repeat split; auto. now left. }
    destruct (Nypl._request_handler NYPL_API server
                (Some (Nypl.METADATA_ENDPOINT ++ uuid)) None None None w)
      as [[details|e] w1]; cbn [snd] in Ek; subst w1.
    2:{ exists (repeat rq k), []. rewrite app_nil_r, repeat_length.
        repeat split; auto; cbn [List.length]; lia. }
    assert (Next : forall w2 calls,
               w2 = Nypl.mkWorld (Nypl.sent w ++ repeat rq k) (Nypl.added w ++ calls)
                      (Nypl.commits w) ->
               exists reqs calls',
                 snd (Nypl._handle_results parse_qs get_license_info NYPL_API server
                        results w2)
                 = Nypl.mkWorld (Nypl.sent w ++ reqs) (Nypl.added w ++ calls')
                     (Nypl.commits w)
                 /\ (List.length reqs <= 3 * List.length (item :: results))%nat
                 /\ Forall (details_request NYPL_API (item :: results)) reqs).
    { intros w2 calls ->. destruct (IH (Nypl.mkWorld (Nypl.sent w ++ repeat rq k)
                                          (Nypl.added w ++ calls) (Nypl.commits w)))
        as (reqs & calls' & Ew & Hl & Hf).
      exists (repeat rq k ++ reqs)%list, (calls ++ calls')%list.
      rewrite Ew. cbn [Nypl.sent Nypl.added Nypl.commits]. rewrite <- !app_assoc.
      repeat split.
      - rewrite List.length_app, repeat_length. cbn [List.length]. lia.
      - apply Forall_app. split; [exact Hrq|now apply Keep]. }
    destruct (Nypl.is_none details).
    { apply (Next _ []). unfold after_requests. now rewrite app_nil_r. }
    destruct (Nypl.read_details details) as [[[[title0 creator0] metadata0] captures0]|e].
    2:{ exists (repeat rq k), []. rewrite app_nil_r, repeat_length.
        repeat split; auto; cbn [List.length]; lia. }
    unfold Nypl._get_capture_details.
    destruct (capture_loop_world (Some metadata0) creator0 title0 captures0
                (after_requests w rq k)) as (calls & Ec & _ & _).
    destruct (Nypl.capture_loop parse_qs get_license_info captures0 (Some metadata0)
                creator0 title0 (after_requests w rq k)) as [[u|e] w2];
      cbn [snd] in Ec; subst w2.
    + apply (Next _ calls). reflexivity.
    + exists (repeat rq k), calls. rewrite repeat_length.
      repeat split; auto; cbn [List.length]; lia.
Qed.

End Store.

(** X17. Whether it returns or raises, [_get_capture_details] sends no
    request and commits nothing; it hands to the image store at most one
    item per capture, after the items already there, and every item it
    hands over has an image id, a landing URL and a license URL that are
    not [None], and the title, creator and metadata it was called with. *)
Theorem capture_details_adds_complete_items :
  forall (parse_qs : strlike -> Py.dict (list string)) (L : Type)
         (get_license_info : json -> L) (captures : option (list json))
         (metadata : option (Py.dict json)) (creator title : json) (w : Nypl.world L),
    exists calls,
      snd (Nypl._get_capture_details parse_qs get_license_info captures metadata
             creator title w)
      = Nypl.mkWorld (Nypl.sent w) (Nypl.added w ++ calls) (Nypl.commits w)
      /\ (List.length calls
          <= List.length (match captures with Some l => l | None => [] end))%nat
      /\ Forall (complete_item get_license_info metadata creator title) calls.
Proof.
  intros. unfold Nypl._get_capture_details. apply capture_loop_world.
Qed.

(** X18. Whether it returns or raises, [_handle_results] commits nothing,
    keeps what was sent and stored before, and sends at most three requests
    per item of the page, each of them for the details of one of the items:
    to [METADATA_ENDPOINT] followed by the item's [uuid], without
    parameters and with the default headers. *)
Theorem handle_results_requests :
  forall (parse_qs : strlike -> Py.dict (list string)) (L : Type)
         (get_license_info : json -> L) (NYPL_API : option string)
         (server : list Nypl.request -> option Response)
         (results : list json) (w : Nypl.world L),
    exists reqs calls,
      snd (Nypl._handle_results parse_qs get_license_info NYPL_API server results w)
      = Nypl.mkWorld (Nypl.sent w ++ reqs) (Nypl.added w ++ calls) (Nypl.commits w)
      /\ (List.length reqs <= 3 * List.length results)%nat
      /\ Forall (details_request NYPL_API results) reqs.
Proof. intros. apply handle_results_world. Qed.

Lemma main_loop_world (parse_qs : strlike -> Py.dict (list string)) (L : Type)
    (get_license_info : json -> L) (NYPL_API : option string)
    (server : list Nypl.request -> option Response) (fuel : nat) :
  forall (page : Z) (w0 w : Nypl.world L) (r : Nypl.res unit),
    Nypl.main_loop parse_qs get_license_info NYPL_API server fuel page w0 = Some (r, w) ->
    Nypl.commits w
    = (Nypl.commits w0 + match r with Nypl.Ok _ => 1 | Nypl.Err _ => 0 end)%nat
    /\ exists reqs calls,
         Nypl.sent w = (Nypl.sent w0 ++ reqs)%list
         /\ Nypl.added w = (Nypl.added w0 ++ calls)%list.
Proof.
  induction fuel as [|fuel IH]; intros page w0 w r H; [discriminate|].
  cbn [Nypl.main_loop] in H.
  set (rq := request_of NYPL_API None
               (Some (Nypl._get_query_param None (JNum (inject_Z page)))) None).
  destruct (request_handler_world NYPL_API server None
              (Some (Nypl._get_query_param None (JNum (inject_Z page)))) None None w0)
    as (k & Hk & Hk1 & Ek).
  fold rq in Ek.
  assert (Base : forall r' n,
             n = match r' with Nypl.Ok _ => 1%nat | Nypl.Err _ => 0%nat end ->
             Some (r', Nypl.mkWorld (Nypl.sent w0 ++ repeat rq k) (Nypl.added w0)
                         (n + Nypl.commits w0)) = Some (r, w) ->
             Nypl.commits w
             = (Nypl.commits w0 + match r with Nypl.Ok _ => 1 | Nypl.Err _ => 0 end)%nat
             /\ exists reqs calls,
                  Nypl.sent w = (Nypl.sent w0 ++ reqs)%list
                  /\ Nypl.added w = (Nypl.added w0 ++ calls)%list).
  { intros r' n -> [= <- <-]. cbn [Nypl.commits Nypl.sent Nypl.added].
    split; [lia|]. exists (repeat rq k), []. split; [reflexivity|now rewrite app_nil_r]. }
  destruct (Nypl._request_handler NYPL_API server None
              (Some (Nypl._get_query_param None (JNum (inject_Z page)))) None None w0)
    as [[response|e] w1]; cbn [snd] in Ek; subst w1.
  2:{ exact (Base (Nypl.Err e) 0%nat eq_refl H). }
  destruct (Nypl.dict_get response "result" JNull) as [[| | | |[|item items]|]|e];
    try exact (Base (Nypl.Ok tt) 1%nat eq_refl H);
    try exact (Base (Nypl.Err e) 0%nat eq_refl H).
  destruct (handle_results_world parse_qs get_license_info NYPL_API server (item :: items)
              (after_requests w0 rq k))
    as (reqs & calls & Ew & _ & _).
  destruct (Nypl._handle_results parse_qs get_license_info NYPL_API server (item :: items)
              (after_requests w0 rq k))
    as [[u|e] w2]; cbn [snd] in Ew; subst w2.
  - apply IH in H as (Hc & reqs' & calls' & Hs & Ha).
    cbn [Nypl.sent Nypl.added Nypl.commits after_requests] in *.
    split; [exact Hc|]. exists (repeat rq k ++ reqs ++ reqs')%list, (calls ++ calls')%list.
    rewrite Hs, Ha. now rewrite <- !app_assoc.
  - injection H as <- <-. cbn [Nypl.sent Nypl.added Nypl.commits after_requests].
    split; [lia|].
    exists (repeat rq k ++ reqs)%list, calls. now rewrite <- app_assoc.
Qed.

(** X19. [main] commits the image store exactly once when it returns, and
    not at all when it raises. *)
Theorem main_commits_once :
  forall (parse_qs : strlike -> Py.dict (list string)) (L : Type)
         (get_license_info : json -> L) (NYPL_API : option string)
         (server : list Nypl.request -> option Response) (fuel : nat)
         (r : Nypl.res unit) (w : Nypl.world L),
    Nypl.main parse_qs get_license_info NYPL_API server fuel = Some (r, w) ->
    Nypl.commits w = match r with Nypl.Ok _ => 1%nat | Nypl.Err _ => 0%nat end.
Proof.
  intros parse_qs L gli api server fuel r w H.
  unfold Nypl.main in H. apply main_loop_world in H as [Hc _]. exact Hc.
Qed.

Lemma main_commits_once_witness :
  Nypl.commits (world_after sample_catalog 2) = 1%nat.
Proof.
  apply (@main_commits_once sample_parse_qs json sample_license None sample_catalog 2
           (Nypl.Ok tt) (world_after sample_catalog 2)).
  vm_compute. reflexivity.
Defined.

(** X20. When the first three replies to the search for page 1 are
    unusable, [main] raises [AttributeError] (the [.get] on the [None] that
    [_request_handler] returned): it has sent that request three times, has
    stored nothing and does not commit. *)
Theorem main_fails_when_search_fails :
  forall (parse_qs : strlike -> Py.dict (list string)) (L : Type)
         (get_license_info : json -> L) (NYPL_API : option string)
         (server : list Nypl.request -> option Response) (fuel : nat),
    (forall i, (i < 3)%nat -> unusable (server (repeat (first_search NYPL_API) (S i)))) ->
    Nypl.main parse_qs get_license_info NYPL_API server (S fuel)
    = Some (Nypl.Err (Nypl.Exn AttributeError),
            Nypl.mkWorld (repeat (first_search NYPL_API) 3) [] 0).
Proof.
  intros parse_qs L gli api server fuel Hbad.
  unfold Nypl.main. cbn [Nypl.main_loop].
  rewrite request_handler_exhausted.
  - reflexivity.
  - intros i Hi. apply (Hbad i). exact Hi.
Qed.

Lemma main_fails_when_search_fails_witness :
  Nypl.main sample_parse_qs sample_license None dead_server 1
  = Some (Nypl.Err (Nypl.Exn AttributeError),
          Nypl.mkWorld (repeat (first_search None) 3) [] 0).
Proof.
  apply (@main_fails_when_search_fails sample_parse_qs json sample_license None
           dead_server 0).
  intros i _. eexists. split; [reflexivity|]. left. discriminate.
Defined.

Lemma searches_app a b : searches (a ++ b) = (searches a ++ searches b)%list.
Proof. apply filter_app. Qed.

Lemma searches_repeat NYPL_API page k :
  searches (repeat (search_request NYPL_API page) k) = repeat (search_request NYPL_API page) k.
Proof. induction k as [|k IH]; [reflexivity|]. cbn [repeat]. unfold searches in *. cbn. now rewrite IH. Qed.

Lemma searches_details NYPL_API results reqs :
  Forall (details_request NYPL_API results) reqs -> searches reqs = [].
Proof.
  induction 1 as [|rq reqs (item & uuid & _ & _ & ->) _ IH]; [reflexivity|].
  unfold searches in *. cbn [filter Nypl.rq_endpoint].
  replace (String.eqb (Nypl.METADATA_ENDPOINT ++ uuid) Nypl.BASE_ENDPOINT) with false
    by reflexivity.
  exact IH.
Qed.

(** [main_loop] is [main_steps] without the world of a loop that is still
    going. *)
Lemma main_loop_steps (parse_qs : strlike -> Py.dict (list string)) (L : Type)
    (get_license_info : json -> L) (NYPL_API : option string)
    (server : list Nypl.request -> option Response) (fuel : nat) :
  forall (page : Z) (w : Nypl.world L),
    Nypl.main_loop parse_qs get_license_info NYPL_API server fuel page w
    = match Nypl.main_steps parse_qs get_license_info NYPL_API server fuel page w with
      | (Some r, w') => Some (r, w')
      | (None, _) => None
      end.
Proof.
  induction fuel as [|fuel IH]; intros page w; [reflexivity|].
  cbn [Nypl.main_loop Nypl.main_steps].
  destruct (Nypl._request_handler NYPL_API server None
              (Some (Nypl._get_query_param None (JNum (inject_Z page)))) None None w)
    as [[response|e] w1]; [|reflexivity].
  destruct (Nypl.dict_get response "result" JNull) as [[| | | |[|item items]|]|e];
    try reflexivity.
  destruct (Nypl._handle_results parse_qs get_license_info NYPL_API server (item :: items) w1)
    as [[u|e] w2]; [apply IH|reflexivity].
Qed.

Lemma main_steps_pages (parse_qs : strlike -> Py.dict (list string)) (L : Type)
    (get_license_info : json -> L) (NYPL_API : option string)
    (server : list Nypl.request -> option Response) (fuel : nat) :
  forall (page : Z) (w0 : Nypl.world L),
    exists counts,
      searches (Nypl.sent (snd (Nypl.main_steps parse_qs get_license_info NYPL_API server
                                  fuel page w0)))
      = (searches (Nypl.sent w0) ++ page_blocks NYPL_API page counts)%list
      /\ Forall (fun c => 1 <= c <= 3)%nat counts
      /\ (List.length counts <= fuel)%nat
      /\ ((1 <= fuel)%nat -> (1 <= List.length counts)%nat)
      /\ (fst (Nypl.main_steps parse_qs get_license_info NYPL_API server fuel page w0) = None ->
          List.length counts = fuel).
Proof.
  induction fuel as [|fuel IH]; intros page w0.
  { exists []. cbn. rewrite app_nil_r. repeat split; auto; lia. }
  cbn [Nypl.main_steps].
  destruct (request_handler_world NYPL_API server None
              (Some (Nypl._get_query_param None (JNum (inject_Z page)))) None None w0)
    as (k & Hk & Hk1 & Ek).
  change (request_of NYPL_API None
            (Some (Nypl._get_query_param None (JNum (inject_Z page)))) None)
    with (search_request NYPL_API page) in Ek.
  change (Z.to_nat Nypl.RETRIES) with 3%nat in Hk, Hk1.
  assert (Hk2 : (1 <= k <= 3)%nat) by lia.
  assert (Base : forall (r' : Nypl.res unit) (w : Nypl.world L),
             Nypl.sent w = (Nypl.sent w0 ++ repeat (search_request NYPL_API page) k)%list ->
             exists counts,
               searches (Nypl.sent (snd (Some r', w)))
               = (searches (Nypl.sent w0) ++ page_blocks NYPL_API page counts)%list
               /\ Forall (fun c => 1 <= c <= 3)%nat counts
               /\ (List.length counts <= S fuel)%nat
               /\ ((1 <= S fuel)%nat -> (1 <= List.length counts)%nat)
               /\ (fst (Some r', w) = None -> List.length counts = S fuel)).
  { intros r' w Es. exists [k]. cbn [snd fst].
    rewrite Es, searches_app, searches_repeat. cbn [page_blocks]. rewrite app_nil_r.
    repeat split; [constructor; [lia|constructor]|cbn; lia|cbn; lia|discriminate]. }
  destruct (Nypl._request_handler NYPL_API server None
              (Some (Nypl._get_query_param None (JNum (inject_Z page)))) None None w0)
    as [[response|e] w1]; cbn [snd] in Ek; subst w1.
  2:{ apply Base. reflexivity. }
  destruct (Nypl.dict_get response "result" JNull) as [[| | | |[|item items]|]|e];
    try (apply Base; reflexivity).
  destruct (handle_results_world parse_qs get_license_info NYPL_API server (item :: items)
              (after_requests w0 (search_request NYPL_API page) k))
    as (reqs & calls & Ew & _ & Hd).
  apply searches_details in Hd.
  destruct (Nypl._handle_results parse_qs get_license_info NYPL_API server (item :: items)
              (after_requests w0 (search_request NYPL_API page) k))
    as [[u|e] w2]; cbn [snd] in Ew; subst w2.
  - set (w2 := Nypl.mkWorld
                  (Nypl.sent (after_requests w0 (search_request NYPL_API page) k) ++ reqs)
                  (Nypl.added (after_requests w0 (search_request NYPL_API page) k) ++ calls)
                  (Nypl.commits (after_requests w0 (search_request NYPL_API page) k))).
    destruct (IH (page + 1) w2) as (counts & Es & Hc & Hl & _ & Hn).
    exists (k :: counts). rewrite Es. unfold w2. cbn [Nypl.sent after_requests].
    rewrite !searches_app, searches_repeat, Hd, app_nil_r.
    cbn [page_blocks]. rewrite <- app_assoc.
    repeat split; [constructor; [lia|exact Hc]|cbn; lia|cbn; lia|].
    intros E. cbn [List.length]. f_equal. now apply Hn.
  - exists [k]. cbn [snd fst Nypl.sent after_requests].
    rewrite !searches_app, searches_repeat, Hd, !app_nil_r. cbn [page_blocks].
    rewrite app_nil_r.
    repeat split; [constructor; [lia|constructor]|cbn; lia|cbn; lia|discriminate].
Qed.

(** X22. However long the pages go on, the searches that [main] has sent
    after at most [fuel] passes of its loop go through the pages 1, 2, 3,
    ... in order and without a gap, each page asked for between one and
    three times before the next one; page 1 is asked for as soon as the
    loop is entered, and while the loop is still going after [fuel] passes,
    all of the pages 1 to [fuel] have been asked for. [main] returns exactly
    when the loop has ended, with the world reached then. *)
Theorem main_asks_pages_in_order :
  forall (parse_qs : strlike -> Py.dict (list string)) (L : Type)
         (get_license_info : json -> L) (NYPL_API : option string)
         (server : list Nypl.request -> option Response) (fuel : nat),
    Nypl.main parse_qs get_license_info NYPL_API server fuel
    = match Nypl.main_steps parse_qs get_license_info NYPL_API server fuel 1
              (Nypl.start L) with
      | (Some r, w) => Some (r, w)
      | (None, _) => None
      end
    /\ exists counts,
         searches (Nypl.sent (snd (Nypl.main_steps parse_qs get_license_info NYPL_API server
                                     fuel 1 (Nypl.start L))))
         = page_blocks NYPL_API 1 counts
         /\ Forall (fun c => 1 <= c <= 3)%nat counts
         /\ (List.length counts <= fuel)%nat
         /\ ((1 <= fuel)%nat -> (1 <= List.length counts)%nat)
         /\ (fst (Nypl.main_steps parse_qs get_license_info NYPL_API server fuel 1
                    (Nypl.start L)) = None ->
             List.length counts = fuel).
Proof.
  intros parse_qs L gli api server fuel. split.
  - unfold Nypl.main. apply main_loop_steps.
  - destruct (main_steps_pages parse_qs gli api server fuel 1 (Nypl.start L))
      as (counts & Es & H).
    exists counts. split; [exact Es|exact H].
Qed.

(* ===================================================================== *)
(** * The columns of the TSV files *)
(* ===================================================================== *)

(** X21. The current audio and image tables start with the same seventeen
    columns and differ only in columns that one media type alone has. So if
    none of these is required, [required_columns], which is computed from
    the image table, is also the list of the required columns of the audio
    table, in the same order. *)
Theorem required_columns_same_for_all_media :
  forall (required : TsvColumns.Column -> bool),
    (forall c, In c TsvColumns.media_specific -> required c = false) ->
    option_map (filter required) TsvColumns.CURRENT_AUDIO_TSV_COLUMNS
    = TsvColumns.required_columns required
    /\ TsvColumns.required_columns required
       = option_map (fun columns => filter required (firstn 17 columns))
           TsvColumns.CURRENT_AUDIO_TSV_COLUMNS
    /\ option_map (firstn 17) TsvColumns.CURRENT_AUDIO_TSV_COLUMNS
       = option_map (firstn 17) TsvColumns.CURRENT_IMAGE_TSV_COLUMNS.
Proof.
  intros required H.
  assert (H1 : required TsvColumns.DURATION = false) by (apply H; cbn; tauto).
  assert (H2 : required TsvColumns.BIT_RATE = false) by (apply H; cbn; tauto).
  assert (H3 : required TsvColumns.SAMPLE_RATE = false) by (apply H; cbn; tauto).
  assert (H4 : required TsvColumns.GENRES = false) by (apply H; cbn; tauto).
  assert (H5 : required TsvColumns.AUDIO_SET = false) by (apply H; cbn; tauto).
  assert (H6 : required TsvColumns.SET_POSITION = false) by (apply H; cbn; tauto).
  assert (H7 : required TsvColumns.ALT_FILES = false) by (apply H; cbn; tauto).
  assert (H8 : required TsvColumns.WIDTH = false) by (apply H; cbn; tauto).
  assert (H9 : required TsvColumns.HEIGHT = false) by (apply H; cbn; tauto).
  clear H.
  assert (Tail : forall pre : list TsvColumns.Column,
             filter required
               (pre ++ [TsvColumns.DURATION; TsvColumns.BIT_RATE; TsvColumns.SAMPLE_RATE;
                        TsvColumns.GENRES; TsvColumns.AUDIO_SET; TsvColumns.SET_POSITION;
                        TsvColumns.ALT_FILES])%list
             = filter required pre
             /\ filter required (pre ++ [TsvColumns.WIDTH; TsvColumns.HEIGHT])%list
                = filter required pre).
  { intros pre. rewrite !filter_app. cbn [filter].
    rewrite H1, H2, H3, H4, H5, H6, H7, H8, H9. now rewrite app_nil_r. }
  unfold TsvColumns.required_columns, TsvColumns.CURRENT_AUDIO_TSV_COLUMNS,
    TsvColumns.CURRENT_IMAGE_TSV_COLUMNS, TsvColumns.current_columns.
  cbn [TsvColumns.COLUMNS TsvColumns.CURRENT_VERSION Py.get String.eqb Ascii.eqb Bool.eqb
       option_map firstn].
  set (shared := [TsvColumns.FOREIGN_ID; TsvColumns.LANDING_URL; TsvColumns.DIRECT_URL;
                  TsvColumns.THUMBNAIL; TsvColumns.FILETYPE; TsvColumns.FILESIZE;
                  TsvColumns.LICENSE; TsvColumns.LICENSE_VERSION; TsvColumns.LICENSE_URL;
                  TsvColumns.CREATOR; TsvColumns.CREATOR_URL; TsvColumns.TITLE;
                  TsvColumns.META_DATA; TsvColumns.TAGS; TsvColumns.CATEGORY;
                  TsvColumns.PROVIDER; TsvColumns.SOURCE]).
  destruct (Tail shared) as [Ta Ti]. unfold shared in Ta, Ti. cbn [app] in Ta, Ti.
  rewrite Ta, Ti. repeat split.
Qed.

Lemma required_columns_same_for_all_media_witness :
  option_map (filter TsvColumns.sample_required) TsvColumns.CURRENT_AUDIO_TSV_COLUMNS
  = TsvColumns.required_columns TsvColumns.sample_required
  /\ TsvColumns.required_columns TsvColumns.sample_required
     = option_map (fun columns => filter TsvColumns.sample_required (firstn 17 columns))
         TsvColumns.CURRENT_AUDIO_TSV_COLUMNS
  /\ option_map (firstn 17) TsvColumns.CURRENT_AUDIO_TSV_COLUMNS
     = option_map (firstn 17) TsvColumns.CURRENT_IMAGE_TSV_COLUMNS.
Proof.
  apply (@required_columns_same_for_all_media TsvColumns.sample_required).
  intros c Hc. cbn in Hc.
  repeat (destruct Hc as [<-|Hc]; [reflexivity|]). destruct Hc.
Defined.
